(** * libcbmimage: a shallow embedding of the address, chain, BAM, FAT,
      file and validation code, and the properties checked against it.

    Conventions of the embedding.
    - C integers are [Z]; every store into a [uint8_t] or [uint16_t] object is
      written out as [u8] / [u16] (reduction modulo 2^8 / 2^16).
    - A pointer into the raw image buffer is the byte offset it points at;
      [None] is the NULL pointer.  The raw buffer itself is a total function
      from offsets to bytes together with its size.
    - [assert()] is a debugging aid that compiles to nothing under NDEBUG; the
      embedding follows the statements that remain, i.e. the explicit checks
      the functions perform themselves.  On an input that fails an assertion
      of the source the definitions give what a build without assertions
      computes, where a build with assertions stops at the assertion.
    - Function pointers of [cbmimage_fileimage_functions] are values of small
      enumerations that name the possible targets; NULL is [None].
    - Diagnostics written through [cbmimage_i_fmt_print] are collected, in
      program order, in a list of [diag] values. *)

From stdpp Require Import base list.
From Stdlib Require Import ZArith Lia Bool.
Import ListNotations.
Local Open Scope Z_scope.

(** ** Machine integers *)

Definition u8 (x : Z) : Z := x mod 256.
Definition u16 (x : Z) : Z := x mod 65536.

(** C's [b ? 1 : 0] and the truth value of an [int]. *)
Definition Z_of_bool (b : bool) : Z := if b then 1 else 0.
Definition truthy (x : Z) : bool := negb (x =? 0).

(** Array read [a[i]]; the arrays of the library are zero-initialised and the
    indices used stay below their length, the default is never observed on
    the paths that are reasoned about. *)
Definition zidx (a : list Z) (i : Z) : Z := nth (Z.to_nat i) a 0.

(** ** Data model (include/cbmimage.h, include/cbmimage/internal.h) *)

Record cbmimage_track_sector := mk_ts { track : Z; sector : Z }.

Record cbmimage_blockaddress := mk_block { ts : cbmimage_track_sector; lba : Z }.

(** [CBMIMAGE_BLOCK_INIT(_track, _sector, _lba)] *)
Definition CBMIMAGE_BLOCK_INIT (t s l : Z) : cbmimage_blockaddress :=
  {| ts := {| track := t; sector := s |}; lba := l |}.

Definition cbmimage_block_unused : cbmimage_blockaddress := CBMIMAGE_BLOCK_INIT 0 0 0.

(** [CBMIMAGE_TS_SET(_ts, _track, _sector)]: both members are [uint8_t]. *)
Definition CBMIMAGE_TS_SET (b : cbmimage_blockaddress) (t s : Z) : cbmimage_blockaddress :=
  {| ts := {| track := u8 t; sector := u8 s |}; lba := lba b |}.

Definition CBMIMAGE_TS_CLEAR (b : cbmimage_blockaddress) : cbmimage_blockaddress :=
  CBMIMAGE_TS_SET b 0 0.

Definition set_lba (b : cbmimage_blockaddress) (l : Z) : cbmimage_blockaddress :=
  {| ts := ts b; lba := u16 l |}.

Inductive cbmimage_BAM_state :=
  | BAM_UNKNOWN | BAM_REALLY_FREE | BAM_FREE | BAM_USED | BAM_DOES_NOT_EXIST.

Inductive cbmimage_imagetype :=
  | TYPE_UNKNOWN | TYPE_D40 | TYPE_D64 | TYPE_D64_40TRACK
  | TYPE_D64_40TRACK_SPEEDDOS | TYPE_D64_40TRACK_DOLPHIN
  | TYPE_D64_40TRACK_PROLOGIC | TYPE_D64_42TRACK | TYPE_D71 | TYPE_D81
  | TYPE_D80 | TYPE_D82 | TYPE_CMD_D1M | TYPE_CMD_D2M | TYPE_CMD_D4M
  | TYPE_CMD_NATIVE.

(** Targets of the function pointers in [cbmimage_fileimage_functions]. *)
Inductive cbmimage_get_sectors_in_track_fct := cbmimage_i_d40_d64_d71_get_sectors_in_track.
Inductive cbmimage_ts_to_blockaddress_fct := cbmimage_i_d40_d64_d71_ts_to_blockaddress.
Inductive cbmimage_lba_to_blockaddress_fct := cbmimage_i_d40_d64_d71_lba_to_blockaddress.
Inductive cbmimage_chdir_fct := cbmimage_i_d81_chdir.
Inductive cbmimage_set_bam_fct := cbmimage_i_d71_set_bam | cbmimage_i_d81_set_bam.

Record cbmimage_fileimage_functions := {
  get_sectors_in_track : option cbmimage_get_sectors_in_track_fct;
  ts_to_blockaddress : option cbmimage_ts_to_blockaddress_fct;
  lba_to_blockaddress : option cbmimage_lba_to_blockaddress_fct;
  chdir : option cbmimage_chdir_fct;
  set_bam : option cbmimage_set_bam_fct
}.

(** [cbmimage_i_bam_selector]; [sel_buffer] is the pointer to the block that
    holds the entry. *)
Record cbmimage_i_bam_selector := {
  sel_buffer : option Z;
  starttrack : Z;
  sel_block : cbmimage_blockaddress;
  startoffset : Z;
  multiplier : Z;
  data_count : Z;
  reverse_order : Z
}.

(** [CBMIMAGE_I_BAM_SELECTOR_INIT] and the macros built on it. *)
Definition CBMIMAGE_I_BAM_SELECTOR_INIT (st so mu dc t s ro : Z) : cbmimage_i_bam_selector :=
  {| sel_buffer := None; starttrack := st; sel_block := CBMIMAGE_BLOCK_INIT t s 0;
     startoffset := so; multiplier := mu; data_count := dc; reverse_order := ro |}.

Definition CBMIMAGE_BAM_SELECTOR_INIT (st so mu dc t s : Z) :=
  CBMIMAGE_I_BAM_SELECTOR_INIT st so mu dc t s 0.

Definition CBMIMAGE_BAM_COUNTER_SELECTOR_INIT (st so mu t s : Z) :=
  CBMIMAGE_BAM_SELECTOR_INIT st so mu 0 t s.

(** [cbmimage_blockaccessor]: the block and the pointer to its bytes. *)
Record cbmimage_blockaccessor := {
  acc_block : cbmimage_blockaddress;
  acc_data : option Z
}.

(** [cbmimage_fat]: [elements] entries of one [uint16_t] each. *)
Record cbmimage_fat := { fat_entry : list Z; fat_elements : Z }.

(** [cbmimage_image_settings]: one frame.  The arrays of the union member
    [d40_d64_d71] are the two lists at the end. *)
Record cbmimage_image_settings := {
  fct : cbmimage_fileimage_functions;
  imagetype : cbmimage_imagetype;
  info : option cbmimage_blockaccessor;
  fat : option cbmimage_fat;
  info_offset_diskname : Z;
  dir : cbmimage_blockaddress;
  maxtracks : Z;
  maxsectors : Z;
  bytes_in_block : Z;
  dir_tracks : Z * Z;
  lastblock : cbmimage_blockaddress;
  has_super_sidesector : Z;
  bam_count : Z;
  bam : option (list cbmimage_i_bam_selector);
  bam_counter : option (list cbmimage_i_bam_selector);
  subdir_data_offset : Z;
  block_subdir_first : cbmimage_blockaddress;
  block_subdir_last : cbmimage_blockaddress;
  subdir_global_addressing : bool;
  subdir_relative_addressing : bool;
  is_partition_table : bool;
  is_geos : bool;
  geos_border : cbmimage_blockaddress;
  sectors_in_track : list Z;
  track_lba_start : list Z
}.

(** [cbmimage_image_parameter]: the raw buffer and its usable size. *)
Record cbmimage_image_parameter := {
  size : Z;
  buffer : Z -> Z
}.

Record cbmimage_fileimage := {
  settings : cbmimage_image_settings;
  parameter : cbmimage_image_parameter
}.

Definition with_settings (image : cbmimage_fileimage) (s : cbmimage_image_settings) :=
  {| settings := s; parameter := parameter image |}.

(** Field updates of the settings frame: the members that are written after
    the geometry constants have been installed. *)
Definition upd_settings (s : cbmimage_image_settings)
    (lastblock' : cbmimage_blockaddress) (dir' : cbmimage_blockaddress)
    (info' : option cbmimage_blockaccessor) (fat' : option cbmimage_fat)
    (is_geos' : bool) (geos_border' : cbmimage_blockaddress)
    (bam' bam_counter' : option (list cbmimage_i_bam_selector))
    : cbmimage_image_settings :=
  {| fct := fct s; imagetype := imagetype s; info := info'; fat := fat';
     info_offset_diskname := info_offset_diskname s; dir := dir';
     maxtracks := maxtracks s; maxsectors := maxsectors s;
     bytes_in_block := bytes_in_block s; dir_tracks := dir_tracks s;
     lastblock := lastblock'; has_super_sidesector := has_super_sidesector s;
     bam_count := bam_count s; bam := bam'; bam_counter := bam_counter';
     subdir_data_offset := subdir_data_offset s;
     block_subdir_first := block_subdir_first s;
     block_subdir_last := block_subdir_last s;
     subdir_global_addressing := subdir_global_addressing s;
     subdir_relative_addressing := subdir_relative_addressing s;
     is_partition_table := is_partition_table s; is_geos := is_geos';
     geos_border := geos_border'; sectors_in_track := sectors_in_track s;
     track_lba_start := track_lba_start s |}.

Definition set_lastblock s b :=
  upd_settings s b (dir s) (info s) (fat s) (is_geos s) (geos_border s) (bam s) (bam_counter s).
Definition set_dir s b :=
  upd_settings s (lastblock s) b (info s) (fat s) (is_geos s) (geos_border s) (bam s) (bam_counter s).
Definition set_info s a :=
  upd_settings s (lastblock s) (dir s) a (fat s) (is_geos s) (geos_border s) (bam s) (bam_counter s).
Definition set_fat s f :=
  upd_settings s (lastblock s) (dir s) (info s) f (is_geos s) (geos_border s) (bam s) (bam_counter s).
Definition set_geos s g b :=
  upd_settings s (lastblock s) (dir s) (info s) (fat s) g b (bam s) (bam_counter s).
Definition set_bam_selectors s b c :=
  upd_settings s (lastblock s) (dir s) (info s) (fat s) (is_geos s) (geos_border s) b c.

(** ** lib/getters.c *)

Definition cbmimage_get_max_track (image : cbmimage_fileimage) : Z :=
  maxtracks (settings image).

Definition cbmimage_get_max_sectors (image : cbmimage_fileimage) : Z :=
  maxsectors (settings image).

Definition cbmimage_get_max_lba (image : cbmimage_fileimage) : Z :=
  lba (lastblock (settings image)).

Definition cbmimage_get_bytes_in_block (image : cbmimage_fileimage) : Z :=
  bytes_in_block (settings image).

(** lib/d40_d64_d71.c: [cbmimage_i_d40_d64_d71_get_sectors_in_track] *)
Definition d40_d64_d71_get_sectors_in_track (s : cbmimage_image_settings) (t : Z) : Z :=
  if t <=? maxtracks s then zidx (sectors_in_track s) t else 0.

Definition cbmimage_get_sectors_in_track (image : cbmimage_fileimage) (t : Z) : Z :=
  match get_sectors_in_track (fct (settings image)) with
  | Some cbmimage_i_d40_d64_d71_get_sectors_in_track =>
      d40_d64_d71_get_sectors_in_track (settings image) t
  | None => maxsectors (settings image)
  end.

(** ** lib/blockaddress.c *)

Definition cbmimage_blockaddress_ts_exists (image : cbmimage_fileimage) (t s : Z) : bool :=
  (0 <? t) && (t <=? cbmimage_get_max_track image)
  && (s <? cbmimage_get_max_sectors image)
  && (s <? cbmimage_get_sectors_in_track image t).

Definition cbmimage_blockaddress_lba_exists (image : cbmimage_fileimage) (l : Z) : bool :=
  (0 <? l) && (l <=? cbmimage_get_max_lba image).

(** [cbmimage_i_generic_ts_to_blockaddress]; returns the status and the
    block as left behind in [*block]. *)
Definition cbmimage_i_generic_ts_to_blockaddress
    (image : cbmimage_fileimage) (block : cbmimage_blockaddress)
    : Z * cbmimage_blockaddress :=
  if negb (cbmimage_blockaddress_ts_exists image (track (ts block)) (sector (ts block)))
  then (1, set_lba block 0)
  else (0, set_lba block
             ((track (ts block) - 1) * maxsectors (settings image) + sector (ts block) + 1)).

(** lib/d40_d64_d71.c: [cbmimage_i_d40_d64_d71_ts_to_blockaddress] *)
Definition d40_d64_d71_ts_to_blockaddress
    (s : cbmimage_image_settings) (block : cbmimage_blockaddress)
    : Z * cbmimage_blockaddress :=
  if (track (ts block) =? 0) || (maxtracks s <? track (ts block))
  then (1, block)
  else (0, set_lba block (zidx (track_lba_start s) (track (ts block)) + sector (ts block))).

Definition cbmimage_blockaddress_init_from_ts
    (image : cbmimage_fileimage) (block : cbmimage_blockaddress)
    : Z * cbmimage_blockaddress :=
  match ts_to_blockaddress (fct (settings image)) with
  | Some cbmimage_i_d40_d64_d71_ts_to_blockaddress =>
      d40_d64_d71_ts_to_blockaddress (settings image) block
  | None => cbmimage_i_generic_ts_to_blockaddress image block
  end.

(** [cbmimage_i_generic_lba_to_blockaddress]; C's [/] on [int] is [Z.quot]. *)
Definition cbmimage_i_generic_lba_to_blockaddress
    (image : cbmimage_fileimage) (block : cbmimage_blockaddress)
    : Z * cbmimage_blockaddress :=
  if lba block =? 0 then (1, block)
  else
    let ms := maxsectors (settings image) in
    let t := u16 (Z.quot (lba block - 1) ms + 1) in
    let s := u16 ((lba block - 1) - (t - 1) * ms) in
    if (maxtracks (settings image) <? t) || (ms <=? s)
    then (1, CBMIMAGE_TS_CLEAR block)
    else (0, CBMIMAGE_TS_SET block t s).

(** The [for] loop of [cbmimage_i_d40_d64_d71_lba_to_blockaddress]: starting
    at [t], the first track whose start LBA exceeds [l], or [maxtracks + 1]. *)
Fixpoint lba_scan (start : list Z) (maxtr l : Z) (fuel : nat) (t : Z) : Z :=
  match fuel with
  | O => t
  | S fuel' =>
      if t <=? maxtr
      then if l <? zidx start t then t else lba_scan start maxtr l fuel' (u16 (t + 1))
      else t
  end.

(** lib/d40_d64_d71.c: [cbmimage_i_d40_d64_d71_lba_to_blockaddress] *)
Definition d40_d64_d71_lba_to_blockaddress
    (s : cbmimage_image_settings) (block : cbmimage_blockaddress)
    : Z * cbmimage_blockaddress :=
  let t0 := lba_scan (track_lba_start s) (maxtracks s) (lba block)
              (Z.to_nat (maxtracks s)) 1 in
  let t := u16 (t0 - 1) in
  let sec := u16 (lba block - zidx (track_lba_start s) t) in
  if zidx (sectors_in_track s) t <? sec
  then (1, CBMIMAGE_TS_SET block 0 0)
  else (0, CBMIMAGE_TS_SET block t sec).

Definition cbmimage_blockaddress_init_from_lba
    (image : cbmimage_fileimage) (block : cbmimage_blockaddress)
    : Z * cbmimage_blockaddress :=
  match lba_to_blockaddress (fct (settings image)) with
  | Some cbmimage_i_d40_d64_d71_lba_to_blockaddress =>
      d40_d64_d71_lba_to_blockaddress (settings image) block
  | None => cbmimage_i_generic_lba_to_blockaddress image block
  end.

Definition cbmimage_blockaddress_init_from_ts_value
    (image : cbmimage_fileimage) (block : cbmimage_blockaddress) (t s : Z)
    : Z * cbmimage_blockaddress :=
  cbmimage_blockaddress_init_from_ts image (CBMIMAGE_TS_SET block t s).

Definition cbmimage_blockaddress_init_from_lba_value
    (image : cbmimage_fileimage) (block : cbmimage_blockaddress) (l : Z)
    : Z * cbmimage_blockaddress :=
  cbmimage_blockaddress_init_from_lba image (set_lba block l).

(** [CBMIMAGE_BLOCK_SET_FROM_TS] and [CBMIMAGE_BLOCK_SET_FROM_LBA]: the
    status of the conversion is dropped by the macros. *)
Definition CBMIMAGE_BLOCK_SET_FROM_TS
    (image : cbmimage_fileimage) (block : cbmimage_blockaddress) (t s : Z) :=
  snd (cbmimage_blockaddress_init_from_ts image (CBMIMAGE_TS_SET block t s)).

Definition CBMIMAGE_BLOCK_SET_FROM_LBA
    (image : cbmimage_fileimage) (block : cbmimage_blockaddress) (l : Z) :=
  snd (cbmimage_blockaddress_init_from_lba image (set_lba block l)).

(** [cbmimage_i_blockaddress_advance] *)
Definition cbmimage_i_blockaddress_advance
    (image : cbmimage_fileimage) (block : cbmimage_blockaddress)
    (do_not_advance_in_track : bool) : Z * cbmimage_blockaddress :=
  let t := track (ts block) in
  let s := sector (ts block) in
  let sector_count := u16 (cbmimage_get_sectors_in_track image t) in
  let maxtrack := cbmimage_get_max_track image in
  if negb (cbmimage_blockaddress_lba_exists image (lba block)) then (-1, block)
  else if subdir_relative_addressing (settings image)
          && (cbmimage_get_max_lba image
                <=? lba block + lba (block_subdir_first (settings image)) - 1)
  then (-1, block)
  else
    let s1 := u16 (s + 1) in
    if sector_count <=? s1 then
      if do_not_advance_in_track then (-1, block)
      else
        let t1 := u16 (t + 1) in
        if maxtrack <? t1 then (-1, block)
        else (0, set_lba (CBMIMAGE_TS_SET block t1 0) (lba block + 1))
    else (0, set_lba (CBMIMAGE_TS_SET block t s1) (lba block + 1)).

Definition cbmimage_blockaddress_advance image block :=
  cbmimage_i_blockaddress_advance image block false.

Definition cbmimage_blockaddress_advance_in_track image block :=
  cbmimage_i_blockaddress_advance image block true.

(** [cbmimage_blockaddress_add] *)
Definition cbmimage_blockaddress_add
    (image : cbmimage_fileimage) (blockresult block_adder : cbmimage_blockaddress)
    : Z * cbmimage_blockaddress :=
  if lba block_adder =? 0 then (0, blockresult)
  else if lba blockresult =? 0 then (0, block_adder)
  else (0, CBMIMAGE_BLOCK_SET_FROM_LBA image cbmimage_block_unused
             (lba blockresult + lba block_adder - 1)).

(** ** lib/readwriteblock.c *)

(** [size_t] arithmetic wraps modulo 2^64. *)
Definition size_t (x : Z) : Z := x mod 18446744073709551616.

(** [cbmimage_i_adjust_relative_address] *)
Definition cbmimage_i_adjust_relative_address
    (image : cbmimage_fileimage) (block : cbmimage_blockaddress)
    : Z * cbmimage_blockaddress :=
  let s := settings image in
  if subdir_relative_addressing s then
    if lba (block_subdir_last s) <=? lba block then (-1, block)
    else
      let block1 := set_lba block (lba block + (lba (block_subdir_first s) - 1)) in
      (0, snd (cbmimage_blockaddress_init_from_lba image block1))
  else (0, block).

(** [cbmimage_i_get_address_of_block]: the offset of the block in the raw
    buffer, or NULL. *)
Definition cbmimage_i_get_address_of_block
    (image : cbmimage_fileimage) (block : cbmimage_blockaddress) : option Z :=
  let bib := cbmimage_get_bytes_in_block image in
  let '(r, block) := cbmimage_i_adjust_relative_address image block in
  if truthy r then None
  else if (0 <? lba block) && (lba block <=? cbmimage_get_max_lba image) then
    let buffer_offset := size_t ((lba block - 1) * bib) in
    if buffer_offset <=? size_t (size (parameter image) - bib)
    then Some (buffer_offset + subdir_data_offset (settings image))
    else None
  else None.

(** Read of [p[i]] for a pointer [p] to [uint8_t] into the raw buffer.  The
    library reads through block pointers without testing them in several
    places; on a buffer that holds every block of the geometry the pointers
    are never NULL, and the value chosen for NULL here is not observed. *)
Definition rd (image : cbmimage_fileimage) (p : option Z) (i : Z) : Z :=
  match p with
  | Some o => u8 (buffer (parameter image) (o + i))
  | None => 0
  end.

(** [cbmimage_read_block]: the status and the bytes copied to the caller's
    buffer ([None]: the buffer is left untouched). *)
Definition cbmimage_read_block
    (image : cbmimage_fileimage) (block : cbmimage_blockaddress)
    (have_buffer : bool) (buffersize : Z) : Z * option (list Z) :=
  let bib := cbmimage_get_bytes_in_block image in
  match cbmimage_i_get_address_of_block image block with
  | Some p =>
      if have_buffer && (bib <=? buffersize) then
        let copied := map (fun i => rd image (Some p) (Z.of_nat i)) (seq 0 (Z.to_nat bib)) in
        if rd image (Some p) 0 =? 0
        then (rd image (Some p) 1, Some copied)
        else (0, Some copied)
      else (-1, None)
  | None => (-1, None)
  end.

(** ** lib/blockaccessor.c *)

(** [cbmimage_i_blockaccessor_release] *)
Definition cbmimage_i_blockaccessor_release (a : cbmimage_blockaccessor) : cbmimage_blockaccessor :=
  {| acc_block := cbmimage_block_unused; acc_data := None |}.

(** [cbmimage_blockaccessor_set_to] *)
Definition cbmimage_blockaccessor_set_to
    (image : cbmimage_fileimage) (a : cbmimage_blockaccessor)
    (block : cbmimage_blockaddress) : Z * cbmimage_blockaccessor :=
  let a := cbmimage_i_blockaccessor_release a in
  if (0 <? track (ts block)) && (track (ts block) <=? cbmimage_get_max_track image)
     && (sector (ts block) <? cbmimage_get_sectors_in_track image (track (ts block)))
     && (0 <? lba block)
  then (0, {| acc_block := block;
              acc_data := cbmimage_i_get_address_of_block image block |})
  else (0, a).

(** [cbmimage_blockaccessor_create]: the accessor is allocated zeroed. *)
Definition cbmimage_blockaccessor_create
    (image : cbmimage_fileimage) (block : cbmimage_blockaddress) : cbmimage_blockaccessor :=
  snd (cbmimage_blockaccessor_set_to image
         {| acc_block := cbmimage_block_unused; acc_data := None |} block).

(** [cbmimage_blockaccessor_create_from_ts]: the local block address is
    filled in by [CBMIMAGE_BLOCK_SET_FROM_TS]. *)
Definition cbmimage_blockaccessor_create_from_ts
    (image : cbmimage_fileimage) (t s : Z) : cbmimage_blockaccessor :=
  cbmimage_blockaccessor_create image
    (CBMIMAGE_BLOCK_SET_FROM_TS image cbmimage_block_unused t s).

(** [cbmimage_blockaccessor_get_next_block]; [block_next] is [None] for a
    NULL pointer, otherwise the caller's block address, which is returned
    updated. *)
Definition cbmimage_blockaccessor_get_next_block
    (image : cbmimage_fileimage) (a : cbmimage_blockaccessor)
    (block_next : option cbmimage_blockaddress) : Z * option cbmimage_blockaddress :=
  let t := rd image (acc_data a) 0 in
  let s := rd image (acc_data a) 1 in
  if t =? 0 then ((if s =? 0 then 256 else s), block_next)
  else if t <=? cbmimage_get_max_track image then
    if s <? cbmimage_get_sectors_in_track image t then
      match block_next with
      | Some b =>
          let '(r, b') := cbmimage_blockaddress_init_from_ts_value image b t s in
          (r, Some b')
      | None => (0, None)
      end
    else (-1, block_next)
  else (-1, block_next).

(** [cbmimage_blockaccessor_follow] *)
Definition cbmimage_blockaccessor_follow
    (image : cbmimage_fileimage) (a : cbmimage_blockaccessor) : Z * cbmimage_blockaccessor :=
  let '(ret, bn) := cbmimage_blockaccessor_get_next_block image a (Some cbmimage_block_unused) in
  if ret =? 0 then
    (ret, snd (cbmimage_blockaccessor_set_to image a
                 (match bn with Some b => b | None => cbmimage_block_unused end)))
  else (ret, cbmimage_i_blockaccessor_release a).

(** [cbmimage_blockaccessor_advance] *)
Definition cbmimage_blockaccessor_advance
    (image : cbmimage_fileimage) (a : cbmimage_blockaccessor) : Z * cbmimage_blockaccessor :=
  let '(ret, block) := cbmimage_blockaddress_advance image (acc_block a) in
  if ret =? 0 then (ret, snd (cbmimage_blockaccessor_set_to image a block))
  else (ret, cbmimage_i_blockaccessor_release a).

(** ** lib/bam.c: selector initialisation *)

(** [cbmimage_i_init_bam_selector]: the first [selector_count] entries get
    their LBA and their buffer pointer. *)
Definition init_one_bam_selector
    (image : cbmimage_fileimage) (sel : cbmimage_i_bam_selector) : cbmimage_i_bam_selector :=
  let block := snd (cbmimage_blockaddress_init_from_ts image (sel_block sel)) in
  {| sel_buffer := cbmimage_i_get_address_of_block image block;
     starttrack := starttrack sel; sel_block := block;
     startoffset := startoffset sel; multiplier := multiplier sel;
     data_count := data_count sel; reverse_order := reverse_order sel |}.

Fixpoint cbmimage_i_init_bam_selector
    (image : cbmimage_fileimage) (selector : list cbmimage_i_bam_selector)
    (selector_count : nat) : list cbmimage_i_bam_selector :=
  match selector_count, selector with
  | S n, sel :: rest =>
      init_one_bam_selector image sel :: cbmimage_i_init_bam_selector image rest n
  | _, _ => selector
  end.

(** ** lib/d40_d64_d71.c *)

Definition sectors_in_track_d40 : list Z :=
  [ 0;
    21; 21; 21; 21; 21;  21; 21; 21; 21; 21;
    21; 21; 21; 21; 21;  21; 21; 20; 20; 20;
    20; 20; 20; 20; 18;  18; 18; 18; 18; 18;
    17; 17; 17; 17; 17 ].

Definition sectors_in_track_d64 : list Z :=
  [ 0;
    21; 21; 21; 21; 21;  21; 21; 21; 21; 21;
    21; 21; 21; 21; 21;  21; 21; 19; 19; 19;
    19; 19; 19; 19; 18;  18; 18; 18; 18; 18;
    17; 17; 17; 17; 17;  17; 17; 17; 17; 17;
    17; 17 ].

Definition sectors_in_track_d71 : list Z :=
  [ 0;
    21; 21; 21; 21; 21;  21; 21; 21; 21; 21;
    21; 21; 21; 21; 21;  21; 21; 19; 19; 19;
    19; 19; 19; 19; 18;  18; 18; 18; 18; 18;
    17; 17; 17; 17; 17;
    21; 21; 21; 21; 21;  21; 21; 21; 21; 21;
    21; 21; 21; 21; 21;  21; 21; 19; 19; 19;
    19; 19; 19; 19; 18;  18; 18; 18; 18; 18;
    17; 17; 17; 17; 17 ].

(** [cbmimage_i_d40_d64_d71_calculate_track_lba_start_table]: the loop body
    for tracks [t], [t+1], ... ([n] of them), on the array [start] of
    [1 + 70] entries; [block_number] is a [uint16_t]. *)
Fixpoint calculate_track_lba_start_loop
    (sit : list Z) (n : nat) (t block_number : Z) (start : list Z) : list Z :=
  match n with
  | O => start
  | S n' =>
      calculate_track_lba_start_loop sit n' (t + 1)
        (u16 (block_number + zidx sit t))
        (<[Z.to_nat t := block_number]> start)
  end.

Definition cbmimage_i_d40_d64_d71_calculate_track_lba_start_table
    (sit : list Z) (maxtr : Z) : list Z :=
  calculate_track_lba_start_loop sit (Z.to_nat maxtr) 1 1 (replicate 71 0).

(** The literal ["GEOS format V1."] *)
Definition geos_text : list Z :=
  [71; 69; 79; 83; 32; 102; 111; 114; 109; 97; 116; 32; 86; 49; 46].

(** [strncmp(text, p, length text) == 0] for a literal without NUL. *)
Definition strncmp_eq (image : cbmimage_fileimage) (text : list Z) (p : option Z) : bool :=
  forallb (fun i => rd image p (Z.of_nat i) =? nth i text 0) (seq 0 (length text)).

(** [cbmimage_i_d40_d64_d71_get_geos_infoblock] (the D81 variant is the same
    text): the GEOS flag and the border block. *)
Definition cbmimage_i_get_geos_infoblock
    (image : cbmimage_fileimage) : bool * cbmimage_blockaddress :=
  let s := settings image in
  let data := match info s with Some a => acc_data a | None => None end in
  if strncmp_eq image geos_text (option_map (fun o => o + 173) data) then
    let border_track := rd image data 171 in
    let border_sector := rd image data 172 in
    let b := CBMIMAGE_BLOCK_SET_FROM_TS image (geos_border s) border_track border_sector in
    (true, snd (cbmimage_blockaddress_init_from_ts image b))
  else (false, geos_border s).

Definition d64_fileimage_functions : cbmimage_fileimage_functions :=
  {| get_sectors_in_track := Some cbmimage_i_d40_d64_d71_get_sectors_in_track;
     ts_to_blockaddress := Some cbmimage_i_d40_d64_d71_ts_to_blockaddress;
     lba_to_blockaddress := Some cbmimage_i_d40_d64_d71_lba_to_blockaddress;
     chdir := None; set_bam := None |}.

Definition d71_fileimage_functions : cbmimage_fileimage_functions :=
  {| get_sectors_in_track := Some cbmimage_i_d40_d64_d71_get_sectors_in_track;
     ts_to_blockaddress := Some cbmimage_i_d40_d64_d71_ts_to_blockaddress;
     lba_to_blockaddress := Some cbmimage_i_d40_d64_d71_lba_to_blockaddress;
     chdir := None; set_bam := Some cbmimage_i_d71_set_bam |}.

(** A zero-initialised selector (unused array slot). *)
Definition bam_selector_zero : cbmimage_i_bam_selector :=
  CBMIMAGE_I_BAM_SELECTOR_INIT 0 0 0 0 0 0 0.

(** [i_d40_d64] and [i_d71]: [CBMIMAGE_BAM_AND_BAM_COUNTER_CREATE(, 0, 1, 0x04, 4, 3, 18, 0)]
    puts the bitmap at [_startoffset + 1] and the counter at [_startoffset]. *)
Definition i_d40_d64_bam : list cbmimage_i_bam_selector :=
  [ CBMIMAGE_BAM_SELECTOR_INIT 1 (4 + 1) 4 3 18 0; bam_selector_zero ].
Definition i_d40_d64_bam_counter : list cbmimage_i_bam_selector :=
  [ CBMIMAGE_BAM_COUNTER_SELECTOR_INIT 1 4 4 18 0; bam_selector_zero ].
Definition i_d71_bam : list cbmimage_i_bam_selector :=
  [ CBMIMAGE_BAM_SELECTOR_INIT 1 (4 + 1) 4 3 18 0;
    CBMIMAGE_BAM_SELECTOR_INIT 36 0 3 3 (18 + 35) 0 ].
Definition i_d71_bam_counter : list cbmimage_i_bam_selector :=
  [ CBMIMAGE_BAM_COUNTER_SELECTOR_INIT 1 4 4 18 0;
    CBMIMAGE_BAM_COUNTER_SELECTOR_INIT 36 221 1 18 0 ].

(** The settings right after the constants, the tables and the start table
    of [cbmimage_i_d40_d64_d71_chdir_partition_init] are in place (everything
    else still zero from the allocation). *)
Definition d40_d64_d71_settings_geometry
    (ty : cbmimage_imagetype) (maxtr : Z) : cbmimage_image_settings :=
  let '(f, dt1, bc, b, c, sit) :=
    match ty with
    | TYPE_D40 =>
        (d64_fileimage_functions, 0, 1, i_d40_d64_bam, i_d40_d64_bam_counter,
         sectors_in_track_d40)
    | TYPE_D71 =>
        (d71_fileimage_functions, 18 + 35, 2, i_d71_bam, i_d71_bam_counter,
         sectors_in_track_d71)
    | _ =>
        (d64_fileimage_functions, 0, 1, i_d40_d64_bam, i_d40_d64_bam_counter,
         sectors_in_track_d64)
    end in
  {| fct := f; imagetype := ty; info := None; fat := None;
     info_offset_diskname := 144; dir := cbmimage_block_unused;
     maxtracks := maxtr; maxsectors := 21; bytes_in_block := 256;
     dir_tracks := (18, dt1); lastblock := cbmimage_block_unused;
     has_super_sidesector := 0; bam_count := bc;
     bam := Some b; bam_counter := Some c;
     subdir_data_offset := 0;
     block_subdir_first := cbmimage_block_unused;
     block_subdir_last := cbmimage_block_unused;
     subdir_global_addressing := false; subdir_relative_addressing := false;
     is_partition_table := false; is_geos := false;
     geos_border := cbmimage_block_unused;
     sectors_in_track := sit;
     track_lba_start := cbmimage_i_d40_d64_d71_calculate_track_lba_start_table sit maxtr |}.

(** lib/fileimage.c: [cbmimage_i_create_last_block]; both locals are
    [uint8_t]. *)
Definition cbmimage_i_create_last_block (image : cbmimage_fileimage) : cbmimage_fileimage :=
  let last_track := u8 (cbmimage_get_max_track image) in
  let last_sector := u8 (cbmimage_get_sectors_in_track image last_track) in
  with_settings image
    (set_lastblock (settings image)
       (CBMIMAGE_BLOCK_SET_FROM_TS image (lastblock (settings image))
          last_track (last_sector - 1))).

(** The part shared by the D40/D64/D71 and the D81 initialisation once the
    geometry is installed: last block, directory block, info accessor, GEOS
    probe and BAM selectors, in the order of the source. *)
Definition finish_partition_init
    (image : cbmimage_fileimage) (dir_t dir_s info_t info_s : Z)
    (selector_count : nat) : cbmimage_fileimage :=
  let image := cbmimage_i_create_last_block image in
  let image := with_settings image
      (set_dir (settings image)
         (CBMIMAGE_BLOCK_SET_FROM_TS image (dir (settings image)) dir_t dir_s)) in
  let image := with_settings image
      (set_info (settings image)
         (Some (cbmimage_blockaccessor_create_from_ts image info_t info_s))) in
  let image := with_settings image
      (set_dir (settings image)
         (snd (cbmimage_blockaddress_init_from_ts image (dir (settings image))))) in
  let geos := cbmimage_i_get_geos_infoblock image in
  let image := with_settings image (set_geos (settings image) (fst geos) (snd geos)) in
  let b := option_map (fun l => cbmimage_i_init_bam_selector image l selector_count)
             (bam (settings image)) in
  let image := with_settings image (set_bam_selectors (settings image) b (bam_counter (settings image))) in
  let c := option_map (fun l => cbmimage_i_init_bam_selector image l selector_count)
             (bam_counter (settings image)) in
  with_settings image (set_bam_selectors (settings image) (bam (settings image)) c).

(** [cbmimage_i_d40_d64_d71_chdir_partition_init] on the frame of [image]. *)
Definition cbmimage_i_d40_d64_d71_chdir_partition_init
    (image : cbmimage_fileimage) (ty : cbmimage_imagetype) (maxtr : Z) : cbmimage_fileimage :=
  let s := d40_d64_d71_settings_geometry ty maxtr in
  finish_partition_init (with_settings image s) 18 1 18 0 (Z.to_nat (bam_count s)).

(** ** lib/d81.c *)

Definition d81_fileimage_functions : cbmimage_fileimage_functions :=
  {| get_sectors_in_track := None; ts_to_blockaddress := None;
     lba_to_blockaddress := None;
     chdir := Some cbmimage_i_d81_chdir; set_bam := Some cbmimage_i_d81_set_bam |}.

Definition i_d81_bam : list cbmimage_i_bam_selector :=
  [ CBMIMAGE_BAM_SELECTOR_INIT 1 (16 + 1) 6 5 40 1;
    CBMIMAGE_BAM_SELECTOR_INIT 41 (16 + 1) 6 5 40 2 ].
Definition i_d81_bam_counter : list cbmimage_i_bam_selector :=
  [ CBMIMAGE_BAM_COUNTER_SELECTOR_INIT 1 16 6 40 1;
    CBMIMAGE_BAM_COUNTER_SELECTOR_INIT 41 16 6 40 2 ].

Definition d81_settings_geometry : cbmimage_image_settings :=
  {| fct := d81_fileimage_functions; imagetype := TYPE_D81; info := None; fat := None;
     info_offset_diskname := 4; dir := cbmimage_block_unused;
     maxtracks := 80; maxsectors := 40; bytes_in_block := 256;
     dir_tracks := (40, 0); lastblock := cbmimage_block_unused;
     has_super_sidesector := 1; bam_count := 2;
     bam := Some i_d81_bam; bam_counter := Some i_d81_bam_counter;
     subdir_data_offset := 0;
     block_subdir_first := cbmimage_block_unused;
     block_subdir_last := cbmimage_block_unused;
     subdir_global_addressing := false; subdir_relative_addressing := false;
     is_partition_table := false; is_geos := false;
     geos_border := cbmimage_block_unused;
     sectors_in_track := []; track_lba_start := [] |}.

(** [cbmimage_i_d81_chdir_partition_init] on the frame of [image]. *)
Definition cbmimage_i_d81_chdir_partition_init (image : cbmimage_fileimage) : cbmimage_fileimage :=
  finish_partition_init (with_settings image d81_settings_geometry) 40 3 40 0 2.

(** ** lib/fileimage.c *)

(** [cbmimage_i_get_number_of_blocks] *)
Definition cbmimage_i_get_number_of_blocks (ty : cbmimage_imagetype) : Z :=
  match ty with
  | TYPE_UNKNOWN => 0
  | TYPE_D40 => 683 + 7
  | TYPE_D64 => 683
  | TYPE_D64_40TRACK | TYPE_D64_40TRACK_SPEEDDOS
  | TYPE_D64_40TRACK_DOLPHIN | TYPE_D64_40TRACK_PROLOGIC => 683 + 5 * 17
  | TYPE_D64_42TRACK => 683 + 7 * 17
  | TYPE_D71 => 683 * 2
  | TYPE_D81 => 3200
  | TYPE_D80 => 2083
  | TYPE_D82 => 2083 * 2
  | TYPE_CMD_D1M => 3240
  | TYPE_CMD_D2M => 6480
  | TYPE_CMD_D4M => 12960
  | TYPE_CMD_NATIVE => 0
  end.

(** [cbmimage_mapping_from_size_to_imagetype]: type, size, blocks. *)
Definition cbmimage_mapping_from_size_to_imagetype : list (cbmimage_imagetype * Z * Z) :=
  [ (TYPE_D64, 174848, 683);
    (TYPE_D64_40TRACK, 174848 + 5 * 17 * 256, 683 + 5 * 17);
    (TYPE_D64_42TRACK, 174848 + 7 * 17 * 256, 683 + 7 * 17);
    (TYPE_D40, 174848 + 7 * 256, 683 + 7);
    (TYPE_D71, 174848 * 2, 683 * 2);
    (TYPE_D81, 819200, 3200);
    (TYPE_D80, 533248, 2083);
    (TYPE_D82, 533248 * 2, 2083 * 2);
    (TYPE_CMD_D1M, 3240 * 256, 3240);
    (TYPE_CMD_D2M, 3240 * 256 * 2, 3240 * 2);
    (TYPE_CMD_D4M, 3240 * 256 * 4, 3240 * 4) ].

(** [cbmimage_image_guesstype]: the type and the value left in
    [*extra_errormap]. *)
Fixpoint guesstype_loop (tbl : list (cbmimage_imagetype * Z * Z)) (sz : Z)
    : cbmimage_imagetype * Z :=
  match tbl with
  | [] => (TYPE_UNKNOWN, 0)
  | (ty, s, blocks) :: rest =>
      if s =? sz then (ty, 1)
      else if s + blocks =? sz then (ty, 0)
      else guesstype_loop rest sz
  end.

Definition cbmimage_image_guesstype (sz : Z) : cbmimage_imagetype * Z :=
  guesstype_loop cbmimage_mapping_from_size_to_imagetype sz.

(** The frame as allocated (all members zero). *)
Definition settings_zero : cbmimage_image_settings :=
  {| fct := {| get_sectors_in_track := None; ts_to_blockaddress := None;
               lba_to_blockaddress := None; chdir := None; set_bam := None |};
     imagetype := TYPE_UNKNOWN; info := None; fat := None;
     info_offset_diskname := 0; dir := cbmimage_block_unused;
     maxtracks := 0; maxsectors := 0; bytes_in_block := 0;
     dir_tracks := (0, 0); lastblock := cbmimage_block_unused;
     has_super_sidesector := 0; bam_count := 0;
     bam := None; bam_counter := None;
     subdir_data_offset := 0;
     block_subdir_first := cbmimage_block_unused;
     block_subdir_last := cbmimage_block_unused;
     subdir_global_addressing := false; subdir_relative_addressing := false;
     is_partition_table := false; is_geos := false;
     geos_border := cbmimage_block_unused;
     sectors_in_track := []; track_lba_start := [] |}.

(** [cbmimage_i_fileimage_create] / [cbmimage_image_open] for the image kinds
    of lib/d40_d64_d71.c and lib/d81.c: D40, the D64 variants, D71 and D81.
    (The D80/D82 and D1M/D2M/D4M image kinds and the chdir stack are not
    part of this embedding.)  Allocation is assumed to succeed. *)
Definition cbmimage_image_open
    (buf : Z -> Z) (sz : Z) (imagetype_hint : cbmimage_imagetype) : cbmimage_fileimage :=
  let '(ty, extra_errormap) :=
    match imagetype_hint with
    | TYPE_UNKNOWN => cbmimage_image_guesstype sz
    | _ => (imagetype_hint, 1)
    end in
  let extra_errormap :=
    if truthy extra_errormap then cbmimage_i_get_number_of_blocks ty else extra_errormap in
  let sz := if truthy extra_errormap then sz
            else size_t (sz - cbmimage_i_get_number_of_blocks ty) in
  let image := {| settings := settings_zero;
                  parameter := {| size := sz; buffer := buf |} |} in
  let image :=
    match ty with
    | TYPE_D40 => cbmimage_i_d40_d64_d71_chdir_partition_init image TYPE_D40 35
    | TYPE_D71 => cbmimage_i_d40_d64_d71_chdir_partition_init image TYPE_D71 70
    | TYPE_D64 => cbmimage_i_d40_d64_d71_chdir_partition_init image TYPE_D64 35
    | TYPE_D64_40TRACK => cbmimage_i_d40_d64_d71_chdir_partition_init image ty 40
    | TYPE_D64_40TRACK_SPEEDDOS => cbmimage_i_d40_d64_d71_chdir_partition_init image ty 40
    | TYPE_D64_40TRACK_DOLPHIN => cbmimage_i_d40_d64_d71_chdir_partition_init image ty 40
    | TYPE_D64_40TRACK_PROLOGIC => cbmimage_i_d40_d64_d71_chdir_partition_init image ty 40
    | TYPE_D64_42TRACK => cbmimage_i_d40_d64_d71_chdir_partition_init image ty 42
    | TYPE_D81 => cbmimage_i_d81_chdir_partition_init image
    | _ => image
    end in
  cbmimage_i_create_last_block image.

(** The buffer of [sz] zero bytes, and a buffer with some bytes poked in. *)
Definition zero_buffer : Z -> Z := fun _ => 0.

Fixpoint poke (writes : list (Z * Z)) (buf : Z -> Z) : Z -> Z :=
  match writes with
  | [] => buf
  | (o, v) :: rest => fun i => if i =? o then v else poke rest buf i
  end.

(** ** Diagnostics (lib/cbprint.c)

    One constructor per [cbmimage_i_fmt_print] call site that is reached by
    the embedded code, with the values that identify the finding (the file
    name of the block-count message is left out). *)
Inductive diag :=
  | Diag_loop_detected_marking (block : cbmimage_blockaddress)
  | Diag_found_loop (block_start block_current : cbmimage_blockaddress)
  | Diag_marking_already_marked (block_start block_current : cbmimage_blockaddress)
  | Diag_partition_exceeds_disk (count : Z)
  | Diag_track_invalid (t : Z)
  | Diag_bits_not_allowed (t sectors : Z)
  | Diag_free_blocks_exceed_sectors (t counter sectors : Z)
  | Diag_free_blocks_mismatch (t counter counted : Z)
  | Diag_used_but_bam_empty (block : cbmimage_blockaddress)
  | Diag_not_used_but_bam_used (block : cbmimage_blockaddress)
  | Diag_block_count_mismatch (reported occupied : Z)
  | Diag_super_sidesector_link (sss : cbmimage_blockaddress)
  | Diag_super_sidesector_not_marked (sss : cbmimage_blockaddress) (number : Z)
  | Diag_super_sidesector_data_after_end (sss : cbmimage_blockaddress) (offset : Z)
  | Diag_super_sidesector_overflowed
  | Diag_super_sidesector_wrong_group (block : cbmimage_blockaddress)
  | Diag_sidesector_differs (count_sidesector i : Z)
  | Diag_sidesector_not_mentioned (count_sidesector : Z)
  | Diag_sidesector_record_length (count_sidesector recordlength found : Z)
  | Diag_sidesector_number (count_sidesector : Z) (block : cbmimage_blockaddress)
  | Diag_end_of_file_but_link (t s : Z)
  | Diag_file_block_differs (block : cbmimage_blockaddress) (t s : Z)
  | Diag_sidesector_done_file_continues (block : cbmimage_blockaddress)
  | Diag_sidesector_extra_data (block : cbmimage_blockaddress)
  | Diag_vlir_data_after (block : cbmimage_blockaddress) (offset : Z).

(** ** lib/loop.c *)

Record cbmimage_loop := { loop_map : list Z; loop_map_size : Z }.

(** [cbmimage_loop_create] *)
Definition cbmimage_loop_create (image : cbmimage_fileimage) : cbmimage_loop :=
  let count_of_blocks := u16 (cbmimage_get_max_lba image + 1) in
  let additional_data := (count_of_blocks + 7) / 8 in
  {| loop_map := replicate (Z.to_nat additional_data) 0; loop_map_size := additional_data |}.

(** [cbmimage_loop_mark] *)
Definition cbmimage_loop_mark
    (image : cbmimage_fileimage) (loop : cbmimage_loop) (block : cbmimage_blockaddress)
    : Z * cbmimage_loop * list diag :=
  if (lba block =? 0) || (cbmimage_get_max_lba image <? lba block) then (-1, loop, [])
  else
    let byte_of_block := u16 (lba block / 8) in
    let bit_of_block := u8 (lba block mod 8) in
    if loop_map_size loop <=? byte_of_block then (-1, loop, [])
    else
      let old := zidx (loop_map loop) byte_of_block in
      let is_marked := Z_of_bool (truthy (Z.land old (Z.shiftl 1 bit_of_block))) in
      let loop' := {| loop_map := <[Z.to_nat byte_of_block :=
                                 u8 (Z.lor old (Z.shiftl 1 bit_of_block))]> (loop_map loop);
                      loop_map_size := loop_map_size loop |} in
      (is_marked, loop',
       if truthy is_marked then [Diag_loop_detected_marking block] else []).

(** [cbmimage_loop_check] *)
Definition cbmimage_loop_check
    (image : cbmimage_fileimage) (loop : cbmimage_loop) (block : cbmimage_blockaddress) : Z :=
  if (lba block =? 0) || (cbmimage_get_max_lba image <? lba block) then -1
  else
    let byte_of_block := u16 (lba block / 8) in
    let bit_of_block := u8 (lba block mod 8) in
    if loop_map_size loop <=? byte_of_block then -1
    else Z_of_bool (truthy (Z.land (zidx (loop_map loop) byte_of_block) (Z.shiftl 1 bit_of_block))).

(** ** lib/fat.c *)

Definition CBMIMAGE_FAT_LASTBLOCK : Z := 65535.
Definition CBMIMAGE_FAT_UNUSED : Z := 0.

(** [cbmimage_fat_create] *)
Definition cbmimage_fat_create (image : cbmimage_fileimage) : cbmimage_fat :=
  let elements := cbmimage_get_max_lba image + 1 in
  {| fat_entry := replicate (Z.to_nat elements) 0; fat_elements := elements |}.

(** [cbmimage_i_fat_set]: [fat->entry[block.lba].lba = target_lba] *)
Definition cbmimage_i_fat_set
    (f : cbmimage_fat) (block : cbmimage_blockaddress) (target_lba : Z) : Z * cbmimage_fat :=
  (0, {| fat_entry := <[Z.to_nat (lba block) := u16 target_lba]> (fat_entry f);
         fat_elements := fat_elements f |}).

(** [cbmimage_fat_set] *)
Definition cbmimage_fat_set
    (f : cbmimage_fat) (block target : cbmimage_blockaddress) : Z * cbmimage_fat :=
  let l := lba target in
  let l := if l =? 0 then CBMIMAGE_FAT_LASTBLOCK else l in
  cbmimage_i_fat_set f block l.

(** [cbmimage_fat_clear] *)
Definition cbmimage_fat_clear (f : cbmimage_fat) (block : cbmimage_blockaddress) :=
  cbmimage_i_fat_set f block CBMIMAGE_FAT_UNUSED.

(** [cbmimage_i_fat_get_target_lba] *)
Definition cbmimage_i_fat_get_target_lba (f : cbmimage_fat) (block : cbmimage_blockaddress) : Z :=
  zidx (fat_entry f) (lba block).

(** [cbmimage_fat_get]: the local [lba] receives the value of the comparison
    [... != CBMIMAGE_FAT_UNUSED]; the [default] branch of the [switch]
    converts into the parameter [block], which is dropped on return. *)
Definition cbmimage_fat_get
    (image : cbmimage_fileimage) (f : cbmimage_fat) (block : cbmimage_blockaddress)
    : cbmimage_blockaddress :=
  let l := Z_of_bool (negb (cbmimage_i_fat_get_target_lba f block =? CBMIMAGE_FAT_UNUSED)) in
  let target := cbmimage_block_unused in
  if l =? CBMIMAGE_FAT_UNUSED then target
  else if l =? CBMIMAGE_FAT_LASTBLOCK then set_lba target CBMIMAGE_FAT_LASTBLOCK
  else
    let block := CBMIMAGE_BLOCK_SET_FROM_LBA image block l in
    target.

(** [cbmimage_fat_is_used] *)
Definition cbmimage_fat_is_used (f : cbmimage_fat) (block : cbmimage_blockaddress) : bool :=
  negb (cbmimage_i_fat_get_target_lba f block =? CBMIMAGE_FAT_UNUSED).

(** ** lib/chain.c *)

Record cbmimage_chain := {
  block_start : cbmimage_blockaddress;
  is_done : bool;
  is_loop : bool;
  loop_detector : cbmimage_loop;
  block_accessor : cbmimage_blockaccessor
}.

(** [cbmimage_i_chain_readblock] *)
Definition cbmimage_i_chain_readblock
    (image : cbmimage_fileimage) (chain : cbmimage_chain) (block : cbmimage_blockaddress)
    : Z * cbmimage_chain * list diag :=
  let '(m, loop', log) := cbmimage_loop_mark image (loop_detector chain) block in
  if truthy m then
    (-1, {| block_start := block_start chain; is_done := true; is_loop := true;
            loop_detector := loop'; block_accessor := block_accessor chain |}, log)
  else
    let '(ret, a) := cbmimage_blockaccessor_set_to image (block_accessor chain) block in
    let chain' := {| block_start := block_start chain; is_done := is_done chain;
                     is_loop := is_loop chain; loop_detector := loop';
                     block_accessor := a |} in
    if ret =? 0
    then (fst (cbmimage_blockaccessor_get_next_block image a None), chain', log)
    else (ret, chain', log).

(** [cbmimage_chain_start] *)
Definition cbmimage_chain_start
    (image : cbmimage_fileimage) (start : cbmimage_blockaddress)
    : cbmimage_chain * list diag :=
  let chain := {| block_start := start; is_done := false; is_loop := false;
                  loop_detector := cbmimage_loop_create image;
                  block_accessor := cbmimage_blockaccessor_create image start |} in
  let '(_, chain', log) := cbmimage_i_chain_readblock image chain start in
  (chain', log).

(** [cbmimage_chain_advance] *)
Definition cbmimage_chain_advance
    (image : cbmimage_fileimage) (chain : cbmimage_chain)
    : Z * cbmimage_chain * list diag :=
  let '(ret, bn) :=
    cbmimage_blockaccessor_get_next_block image (block_accessor chain)
      (Some cbmimage_block_unused) in
  if ret =? 0 then
    cbmimage_i_chain_readblock image chain
      (match bn with Some b => b | None => cbmimage_block_unused end)
  else
    (ret, {| block_start := block_start chain; is_done := true;
             is_loop := is_loop chain; loop_detector := loop_detector chain;
             block_accessor := block_accessor chain |}, []).

(** [cbmimage_chain_last_result] *)
Definition cbmimage_chain_last_result (image : cbmimage_fileimage) (chain : cbmimage_chain) : Z :=
  fst (cbmimage_blockaccessor_get_next_block image (block_accessor chain) None).

Definition cbmimage_chain_is_done (chain : cbmimage_chain) : bool := is_done chain.
Definition cbmimage_chain_is_loop (chain : cbmimage_chain) : bool := is_loop chain.

Definition cbmimage_chain_get_current (chain : cbmimage_chain) : cbmimage_blockaddress :=
  acc_block (block_accessor chain).

(** [cbmimage_chain_get_next] *)
Definition cbmimage_chain_get_next
    (image : cbmimage_fileimage) (chain : cbmimage_chain) : cbmimage_blockaddress :=
  match snd (cbmimage_blockaccessor_get_next_block image (block_accessor chain)
               (Some cbmimage_block_unused)) with
  | Some b => b
  | None => cbmimage_block_unused
  end.

(** [cbmimage_chain_get_data] *)
Definition cbmimage_chain_get_data (chain : cbmimage_chain) : option Z :=
  acc_data (block_accessor chain).

(** ** lib/bam.c *)

Definition BAM_MASK_COUNT : Z := 32.

(** The [enum cbmimage_BAM_state_e] constants as the [int] values that
    [cbmimage_bam_get] returns (it also returns [-1]). *)
Definition BAM_state_code (s : cbmimage_BAM_state) : Z :=
  match s with
  | BAM_UNKNOWN => 0 | BAM_REALLY_FREE => 1 | BAM_FREE => 2
  | BAM_USED => 3 | BAM_DOES_NOT_EXIST => 4
  end.

(** [reverse_bit_order]: eight rounds of shifting a bit from [input] into
    the [uint8_t] [output]. *)
Fixpoint reverse_bit_order_loop (n : nat) (input output : Z) : Z :=
  match n with
  | O => output
  | S n' =>
      reverse_bit_order_loop n' (Z.shiftr input 1)
        (Z.lor (u8 (Z.shiftl output 1)) (Z.land input 1))
  end.

Definition reverse_bit_order (input : Z) : Z := reverse_bit_order_loop 8 input 0.

(** [cbmimage_i_countbits]: the inner loop over the bits of one byte and the
    outer loop over the [BAM_MASK_COUNT] bytes. *)
Fixpoint countbits_byte (n : nat) (bam_byte : Z) : Z :=
  match n with
  | O => 0
  | S n' => (if truthy (Z.land bam_byte 1) then 1 else 0)
            + countbits_byte n' (Z.shiftr bam_byte 1)
  end.

Definition cbmimage_i_countbits (mask : list Z) : Z :=
  fold_left (fun result i => result + countbits_byte 8 (zidx mask (Z.of_nat i)))
    (seq 0 (Z.to_nat BAM_MASK_COUNT)) 0.

(** The [for] loop of [cbmimage_i_get_right_selector], from index [n] on;
    [fuel] bounds the remaining iterations by [selector_count - 1 - n]. *)
Fixpoint right_selector_loop
    (selector : list cbmimage_i_bam_selector) (t : Z) (fuel : nat) (n : Z) : Z :=
  match fuel with
  | O => n
  | S fuel' =>
      if t <? starttrack (nth (Z.to_nat (n + 1)) selector bam_selector_zero)
      then n
      else right_selector_loop selector t fuel' (n + 1)
  end.

(** [cbmimage_i_get_right_selector]; called with [selector_count > 0]. *)
Definition cbmimage_i_get_right_selector
    (s : cbmimage_image_settings) (selector : list cbmimage_i_bam_selector)
    (selector_count : Z) (t : Z) : Z :=
  if (t <? 1) || (maxtracks s <? t) then -1
  else right_selector_loop selector t (Z.to_nat (selector_count - 1)) 0.

(** The offset computation shared by bitmap and counter: a [uint8_t]. *)
Definition bam_offset (sel : cbmimage_i_bam_selector) (t : Z) : Z :=
  u8 (startoffset sel + (t - starttrack sel) * multiplier sel).

(** [cbmimage_i_get_bam_of_track]: the status and the 32 mask bytes. *)
Definition cbmimage_i_get_bam_of_track
    (image : cbmimage_fileimage) (t : Z) : Z * list Z :=
  let s := settings image in
  let t := u8 t in
  if bam_count s =? 0 then (-1, [])
  else
    let sels := match bam s with Some l => l | None => [] end in
    let n := cbmimage_i_get_right_selector s sels (bam_count s) t in
    if n <? 0 then (-1, [])
    else
      let sel := nth (Z.to_nat n) sels bam_selector_zero in
      let offset_bam := bam_offset sel t in
      (0, map (fun i =>
                 let i := Z.of_nat i in
                 if i <? data_count sel then
                   let bam_byte := rd image (sel_buffer sel) (offset_bam + i) in
                   if truthy (reverse_order sel) then reverse_bit_order bam_byte else bam_byte
                 else 0)
              (seq 0 (Z.to_nat BAM_MASK_COUNT))).

(** [cbmimage_i_get_bam_counter_of_track] *)
Definition cbmimage_i_get_bam_counter_of_track
    (image : cbmimage_fileimage) (t : Z) : Z :=
  let s := settings image in
  let t := u8 t in
  match bam_counter s with
  | None =>
      let '(r, mask) := cbmimage_i_get_bam_of_track image t in
      if r <? 0 then 0 else cbmimage_i_countbits mask
  | Some sels =>
      if bam_count s =? 0 then 0
      else
        let n := cbmimage_i_get_right_selector s sels (bam_count s) t in
        if n <? 0 then 0
        else
          let sel := nth (Z.to_nat n) sels bam_selector_zero in
          rd image (sel_buffer sel) (bam_offset sel t)
  end.

(** The [for] loop of [cbmimage_i_check_max_bam_of_track] from index [i] on:
    [true] when a forbidden bit is found. *)
Fixpoint check_max_bam_loop (mask : list Z) (n : nat) (i remaining : Z) : bool :=
  match n with
  | O => false
  | S n' =>
      if 8 <=? remaining then check_max_bam_loop mask n' (i + 1) (remaining - 8)
      else if remaining =? 0 then
        if negb (zidx mask i =? 0) then true
        else check_max_bam_loop mask n' (i + 1) remaining
      else
        let local_mask := u8 (Z.shiftl 255 remaining) in
        if negb (Z.land (zidx mask i) local_mask =? 0) then true
        else check_max_bam_loop mask n' (i + 1) remaining
  end.

(** [cbmimage_i_check_max_bam_of_track] *)
Definition cbmimage_i_check_max_bam_of_track
    (image : cbmimage_fileimage) (t : Z) (mask : list Z) : Z * list diag :=
  if cbmimage_get_max_track image <? t then (-1, [Diag_track_invalid t])
  else
    let sectors_on_track := u16 (cbmimage_get_sectors_in_track image t) in
    if check_max_bam_loop mask (Z.to_nat BAM_MASK_COUNT) 0 sectors_on_track
    then (-1, [Diag_bits_not_allowed t sectors_on_track])
    else (0, []).

(** [cbmimage_i_bam_check_really_unused] *)
Definition cbmimage_i_bam_check_really_unused
    (image : cbmimage_fileimage) (block : cbmimage_blockaddress) : Z :=
  match cbmimage_i_get_address_of_block image block with
  | None => 0
  | Some p =>
      let bib := cbmimage_get_bytes_in_block image in
      if rd image (Some p) 2 =? 1 then
        if forallb (fun i => rd image (Some p) (Z.of_nat i) =? 1) (seq 1 (Z.to_nat bib - 1))
        then 1 else 0
      else if rd image (Some p) 2 =? 0 then
        if forallb (fun i => rd image (Some p) (Z.of_nat i) =? 0) (seq 0 (Z.to_nat bib))
        then 1 else 0
      else 0
  end.

(** [cbmimage_bam_get] *)
Definition cbmimage_bam_get
    (image : cbmimage_fileimage) (block : cbmimage_blockaddress) : Z :=
  let '(r, bam_of_track) := cbmimage_i_get_bam_of_track image (track (ts block)) in
  if r <? 0 then -1
  else
    let index := sector (ts block) / 8 in
    let bitpos := sector (ts block) mod 8 in
    if truthy (Z.land (zidx bam_of_track index) (Z.shiftl 1 bitpos)) then
      if truthy (cbmimage_i_bam_check_really_unused image block)
      then BAM_state_code BAM_REALLY_FREE
      else BAM_state_code BAM_FREE
    else BAM_state_code BAM_USED.

(** The body of the [for] loop of [cbmimage_bam_check_consistency] for one
    track: [None] when the function returns [-1] from inside the loop,
    otherwise the diagnostics of this round. *)
Definition bam_check_consistency_track
    (image : cbmimage_fileimage) (t : Z) : option (list diag) :=
  let '(r, bam_mask) := cbmimage_i_get_bam_of_track image t in
  if r <? 0 then None
  else
    let bam_counter_of_track := u16 (cbmimage_i_get_bam_counter_of_track image t) in
    let sectors_on_track := u16 (cbmimage_get_sectors_in_track image t) in
    let '(_, log1) := cbmimage_i_check_max_bam_of_track image t bam_mask in
    let count_of_bam_blocks := u16 (cbmimage_i_countbits bam_mask) in
    Some (log1
          ++ (if sectors_on_track <? bam_counter_of_track
              then [Diag_free_blocks_exceed_sectors t bam_counter_of_track sectors_on_track]
              else [])
          ++ (if negb (count_of_bam_blocks =? bam_counter_of_track)
              then [Diag_free_blocks_mismatch t bam_counter_of_track count_of_bam_blocks]
              else [])).

Fixpoint bam_check_consistency_loop
    (image : cbmimage_fileimage) (n : nat) (t : Z) : Z * list diag :=
  match n with
  | O => (0, [])
  | S n' =>
      match bam_check_consistency_track image t with
      | None => (-1, [])
      | Some log =>
          let '(r, log') := bam_check_consistency_loop image n' (t + 1) in
          (r, log ++ log')
      end
  end.

(** [cbmimage_bam_check_consistency]: tracks [1 .. maxtrack]. *)
Definition cbmimage_bam_check_consistency (image : cbmimage_fileimage) : Z * list diag :=
  bam_check_consistency_loop image (Z.to_nat (cbmimage_get_max_track image)) 1.

(** ** lib/file.c *)

(** Conversion to [int] (32 bit, two's complement), as done for the
    arguments of [min(int, int)] of include/cbmimage/helper.h. *)
Definition c_int (x : Z) : Z := (x + 2147483648) mod 4294967296 - 2147483648.

Definition min (a b : Z) : Z := if c_int a <? c_int b then c_int a else c_int b.

(** [cbmimage_file]: the members that the reader uses.  The structure is
    allocated zeroed. *)
Record cbmimage_file := {
  file_chain : cbmimage_chain;
  block_current_offset : Z;
  block_current_remain : Z
}.

(** [cbmimage_file_open_by_dir_entry], from the point where the directory
    entry has been cloned: [start] is [dei->entry.start_block]. *)
Definition cbmimage_file_open_by_dir_entry
    (image : cbmimage_fileimage) (start : cbmimage_blockaddress)
    : cbmimage_file * list diag :=
  let '(chain, log) := cbmimage_chain_start image start in
  let ret := cbmimage_chain_last_result image chain in
  if ret =? 0 then
    ({| file_chain := chain; block_current_offset := 2;
        block_current_remain := u16 (256 - 2) |}, log)
  else if 1 <? ret then
    ({| file_chain := chain; block_current_offset := 2;
        block_current_remain := u16 (ret - 2 + 1) |}, log)
  else
    ({| file_chain := chain; block_current_offset := 0;
        block_current_remain := 0 |}, log).

(** State of the [while] loop of [cbmimage_file_read_next_block]: the file,
    the bytes written to the caller's buffer so far, [write_remaining] and
    [bytes_return]. *)
Record read_state := {
  rs_file : cbmimage_file;
  rs_written : list Z;
  rs_write_remaining : Z;
  rs_bytes_return : Z;
  rs_log : list diag
}.

(** One round of the [while] loop body. *)
Definition read_next_block_body
    (image : cbmimage_fileimage) (st : read_state) : read_state :=
  let file := rs_file st in
  let bytes_to_copy := size_t (min (rs_write_remaining st) (block_current_remain file)) in
  let '(file, written, write_remaining, bytes_return) :=
    if 0 <? bytes_to_copy then
      ({| file_chain := file_chain file;
          block_current_offset := u16 (block_current_offset file + bytes_to_copy);
          block_current_remain := u16 (block_current_remain file - bytes_to_copy) |},
       rs_written st
         ++ map (fun i => rd image (cbmimage_chain_get_data (file_chain file))
                            (block_current_offset file + Z.of_nat i))
                (seq 0 (Z.to_nat bytes_to_copy)),
       size_t (rs_write_remaining st - bytes_to_copy),
       c_int (rs_bytes_return st + bytes_to_copy))
    else (file, rs_written st, rs_write_remaining st, rs_bytes_return st) in
  if 0 <? write_remaining then
    let '(ret, chain, log) := cbmimage_chain_advance image (file_chain file) in
    let '(off, rem, write_remaining) :=
      if ret =? 0 then (2, u16 (256 - 2), write_remaining)
      else if ret =? 1 then (block_current_offset file, block_current_remain file, 0)
      else if 1 <? ret then (2, u16 (ret - 2 + 1), write_remaining)
      else (block_current_offset file, block_current_remain file, 0) in
    {| rs_file := {| file_chain := chain; block_current_offset := off;
                     block_current_remain := rem |};
       rs_written := written; rs_write_remaining := write_remaining;
       rs_bytes_return := bytes_return; rs_log := rs_log st ++ log |}
  else
    {| rs_file := file; rs_written := written; rs_write_remaining := write_remaining;
       rs_bytes_return := bytes_return; rs_log := rs_log st |}.

(** The [while] loop; [None] when [fuel] rounds did not reach the exit. *)
Fixpoint read_next_block_loop
    (image : cbmimage_fileimage) (fuel : nat) (st : read_state) : option read_state :=
  if (0 <? rs_write_remaining st) && negb (cbmimage_chain_is_done (file_chain (rs_file st)))
  then
    match fuel with
    | O => None
    | S fuel' => read_next_block_loop image fuel' (read_next_block_body image st)
    end
  else Some st.

(** [cbmimage_file_read_next_block]: the return value, the file afterwards
    and the bytes stored in the caller's buffer. *)
Definition cbmimage_file_read_next_block
    (image : cbmimage_fileimage) (fuel : nat) (file : cbmimage_file) (buffer_size : Z)
    : option (Z * cbmimage_file * list Z * list diag) :=
  if cbmimage_chain_is_done (file_chain file) then Some (-1, file, [], [])
  else
    match read_next_block_loop image fuel
            {| rs_file := file; rs_written := []; rs_write_remaining := size_t buffer_size;
               rs_bytes_return := 0; rs_log := [] |} with
    | Some st => Some (rs_bytes_return st, rs_file st, rs_written st, rs_log st)
    | None => None
    end.

(** ** lib/dir.c *)

(** The constants of include/cbmimage/internal/dir.h: the offsets inside a
    directory slot, the masks of the type byte, the length of a name, the
    shifted space and the size of a slot.  The functions of lib/dir.c take
    them as a parameter. *)
Record dir_entry_layout := {
  CBMIMAGE_DIR_ENTRY_TYPE_OFFSET : Z;
  CBMIMAGE_DIR_ENTRY_TYPE_MASK_TYPE : Z;
  CBMIMAGE_DIR_ENTRY_TYPE_MASK_LOCKED : Z;
  CBMIMAGE_DIR_ENTRY_TYPE_MASK_CLOSED : Z;
  CBMIMAGE_DIR_ENTRY_TRACK_OFFSET : Z;
  CBMIMAGE_DIR_ENTRY_SECTOR_OFFSET : Z;
  CBMIMAGE_DIR_ENTRY_NAME_OFFSET : Z;
  CBMIMAGE_DIR_ENTRY_NAME_LENGTH : Z;
  CBMIMAGE_DIR_ENTRY_NAME_SHIFTSPACE : Z;
  CBMIMAGE_DIR_ENTRY_SS_TRACK_OFFSET : Z;
  CBMIMAGE_DIR_ENTRY_SS_SECTOR_OFFSET : Z;
  CBMIMAGE_DIR_ENTRY_REL_RECORD_LENGTH : Z;
  CBMIMAGE_DIR_ENTRY_GEOS_FILETYPE : Z;
  CBMIMAGE_DIR_ENTRY_GEOS_FILESTRUCTURE : Z;
  CBMIMAGE_DIR_ENTRY_GEOS_INFO_TRACK : Z;
  CBMIMAGE_DIR_ENTRY_GEOS_INFO_SECTOR : Z;
  CBMIMAGE_DIR_ENTRY_YEAR : Z;
  CBMIMAGE_DIR_ENTRY_MONTH : Z;
  CBMIMAGE_DIR_ENTRY_DAY : Z;
  CBMIMAGE_DIR_ENTRY_HOUR : Z;
  CBMIMAGE_DIR_ENTRY_MINUTE : Z;
  CBMIMAGE_DIR_ENTRY_BLOCK_COUNT_LOW : Z;
  CBMIMAGE_DIR_ENTRY_BLOCK_COUNT_HIGH : Z;
  CBMIMAGE_DIR_ENTRY_PARTITION_START_LOW : Z;
  CBMIMAGE_DIR_ENTRY_PARTITION_START_HIGH : Z;
  CBMIMAGE_DIR_ENTRY_PARTITION_BLOCK_COUNT_LOW : Z;
  CBMIMAGE_DIR_ENTRY_PARTITION_BLOCK_COUNT_HIGH : Z;
  CBMIMAGE_DIR_ENTRY_NEXT_ONE : Z
}.

(** Modelled from the spec: the fixed offsets inside each 32-byte directory
    slot (type byte at +0x02 with the type in the low four bits, the lock
    bit 0x40 and the closed bit 0x80; start track and sector at +0x03 and
    +0x04; the name of 16 bytes at +0x05, ended by the shifted space 0xA0;
    GEOS info block or side sector at +0x15 and +0x16; record length at
    +0x17; the timestamp from +0x17 on; the block count at +0x1E and +0x1F).
    The offsets the spec is silent about (GEOS file type and structure,
    and the four of a partition-table slot) stay arguments. *)
Definition cbm_dir_entry_layout
    (geos_filetype geos_filestructure : Z)
    (partition_start_low partition_start_high : Z)
    (partition_block_count_low partition_block_count_high : Z) : dir_entry_layout :=
  {| CBMIMAGE_DIR_ENTRY_TYPE_OFFSET := 2;
     CBMIMAGE_DIR_ENTRY_TYPE_MASK_TYPE := 15;
     CBMIMAGE_DIR_ENTRY_TYPE_MASK_LOCKED := 64;
     CBMIMAGE_DIR_ENTRY_TYPE_MASK_CLOSED := 128;
     CBMIMAGE_DIR_ENTRY_TRACK_OFFSET := 3;
     CBMIMAGE_DIR_ENTRY_SECTOR_OFFSET := 4;
     CBMIMAGE_DIR_ENTRY_NAME_OFFSET := 5;
     CBMIMAGE_DIR_ENTRY_NAME_LENGTH := 16;
     CBMIMAGE_DIR_ENTRY_NAME_SHIFTSPACE := 160;
     CBMIMAGE_DIR_ENTRY_SS_TRACK_OFFSET := 21;
     CBMIMAGE_DIR_ENTRY_SS_SECTOR_OFFSET := 22;
     CBMIMAGE_DIR_ENTRY_REL_RECORD_LENGTH := 23;
     CBMIMAGE_DIR_ENTRY_GEOS_FILETYPE := geos_filetype;
     CBMIMAGE_DIR_ENTRY_GEOS_FILESTRUCTURE := geos_filestructure;
     CBMIMAGE_DIR_ENTRY_GEOS_INFO_TRACK := 21;
     CBMIMAGE_DIR_ENTRY_GEOS_INFO_SECTOR := 22;
     CBMIMAGE_DIR_ENTRY_YEAR := 23;
     CBMIMAGE_DIR_ENTRY_MONTH := 24;
     CBMIMAGE_DIR_ENTRY_DAY := 25;
     CBMIMAGE_DIR_ENTRY_HOUR := 26;
     CBMIMAGE_DIR_ENTRY_MINUTE := 27;
     CBMIMAGE_DIR_ENTRY_BLOCK_COUNT_LOW := 30;
     CBMIMAGE_DIR_ENTRY_BLOCK_COUNT_HIGH := 31;
     CBMIMAGE_DIR_ENTRY_PARTITION_START_LOW := partition_start_low;
     CBMIMAGE_DIR_ENTRY_PARTITION_START_HIGH := partition_start_high;
     CBMIMAGE_DIR_ENTRY_PARTITION_BLOCK_COUNT_LOW := partition_block_count_low;
     CBMIMAGE_DIR_ENTRY_PARTITION_BLOCK_COUNT_HIGH := partition_block_count_high;
     CBMIMAGE_DIR_ENTRY_NEXT_ONE := 32 |}.

(** [cbmimage_dir_type] *)
Definition DIR_TYPE_DEL : Z := 0.
Definition DIR_TYPE_REL : Z := 4.
Definition DIR_TYPE_PART1581 : Z := 5.
Definition DIR_TYPE_CMD_NATIVE : Z := 6.
Definition DIR_TYPE_PART_OFFSET : Z := 256.
Definition DIR_TYPE_PART_D64 : Z := DIR_TYPE_PART_OFFSET + 2.
Definition DIR_TYPE_PART_D71 : Z := DIR_TYPE_PART_OFFSET + 3.
Definition DIR_TYPE_PART_D81 : Z := DIR_TYPE_PART_OFFSET + 4.

Definition GEOS_FILETYPE_NON_GEOS : Z := 0.

(** [cbmimage_dir_header_name]; [text] has 24 bytes. *)
Record cbmimage_dir_header_name := {
  name_end_index : Z;
  name_length : Z;
  name_text : list Z
}.

(** [cbmimage_dir_entry] *)
Record cbmimage_dir_entry := {
  entry_name : cbmimage_dir_header_name;
  entry_type : Z;
  entry_is_locked : bool;
  entry_is_closed : bool;
  entry_has_datetime : bool;
  entry_is_geos : bool;
  entry_geos_is_vlir : bool;
  entry_is_valid : bool;
  entry_start_block : cbmimage_blockaddress;
  entry_rel_sidesector_block : cbmimage_blockaddress;
  entry_rel_recordlength : Z;
  entry_block_count : Z;
  entry_year : Z;
  entry_month : Z;
  entry_day : Z;
  entry_hour : Z;
  entry_minute : Z;
  entry_geos_infoblock : cbmimage_blockaddress;
  entry_geos_filetype : Z
}.

(** [cbmimage_i_dir_entry_internal]; the image is passed along with it. *)
Record cbmimage_i_dir_entry_internal := {
  entry : cbmimage_dir_entry;
  dir_block_accessor : cbmimage_blockaccessor;
  dir_block_offset : Z;
  is_empty : bool;
  dei_loop_detector : cbmimage_loop
}.

Definition set_is_valid (e : cbmimage_dir_entry) (v : bool) : cbmimage_dir_entry :=
  {| entry_name := entry_name e; entry_type := entry_type e;
     entry_is_locked := entry_is_locked e; entry_is_closed := entry_is_closed e;
     entry_has_datetime := entry_has_datetime e; entry_is_geos := entry_is_geos e;
     entry_geos_is_vlir := entry_geos_is_vlir e; entry_is_valid := v;
     entry_start_block := entry_start_block e;
     entry_rel_sidesector_block := entry_rel_sidesector_block e;
     entry_rel_recordlength := entry_rel_recordlength e;
     entry_block_count := entry_block_count e;
     entry_year := entry_year e; entry_month := entry_month e; entry_day := entry_day e;
     entry_hour := entry_hour e; entry_minute := entry_minute e;
     entry_geos_infoblock := entry_geos_infoblock e;
     entry_geos_filetype := entry_geos_filetype e |}.

(** [strchr(text, c) - text]: the index of the first [c] before the
    terminating zero. *)
Fixpoint strchr_index (text : list Z) (c : Z) (i : Z) : option Z :=
  match text with
  | [] => None
  | x :: rest =>
      if x =? c then Some i
      else if x =? 0 then None
      else strchr_index rest c (i + 1)
  end.

Section Directory.

Variable L : dir_entry_layout.
Variable image : cbmimage_fileimage.

(** [cbmimage_i_dir_entry_store_datetime]: has_datetime, year, month, day,
    hour and minute of the slot at [off] of the block at [p]. *)
Definition cbmimage_i_dir_entry_store_datetime
    (p : option Z) (off : Z) : bool * Z * Z * Z * Z * Z :=
  let at_ (o : Z) := rd image p (off + o) in
  if truthy (at_ (CBMIMAGE_DIR_ENTRY_YEAR L))
     || truthy (at_ (CBMIMAGE_DIR_ENTRY_MONTH L))
     || truthy (at_ (CBMIMAGE_DIR_ENTRY_DAY L))
     || truthy (at_ (CBMIMAGE_DIR_ENTRY_HOUR L))
     || truthy (at_ (CBMIMAGE_DIR_ENTRY_MINUTE L))
  then
    let year := at_ (CBMIMAGE_DIR_ENTRY_YEAR L) in
    let year := if 83 <? year then u16 (year + 1900) else u16 (year + 2000) in
    (true, year, at_ (CBMIMAGE_DIR_ENTRY_MONTH L), at_ (CBMIMAGE_DIR_ENTRY_DAY L),
     at_ (CBMIMAGE_DIR_ENTRY_HOUR L), at_ (CBMIMAGE_DIR_ENTRY_MINUTE L))
  else (false, 0, 0, 0, 0, 0).

(** The second half of [cbmimage_i_dir_get]: the entry read from the slot
    at [off] of the block at [p]; [old] is the entry as it was. *)
Definition dir_get_entry
    (old : cbmimage_dir_entry) (p : option Z) (off : Z) : cbmimage_dir_entry :=
  let at_ (o : Z) := rd image p (off + o) in
  let type := at_ (CBMIMAGE_DIR_ENTRY_TYPE_OFFSET L) in
  let text :=
    map (fun i => at_ (CBMIMAGE_DIR_ENTRY_NAME_OFFSET L + Z.of_nat i))
        (seq 0 (Z.to_nat (CBMIMAGE_DIR_ENTRY_NAME_LENGTH L)))
    ++ drop (Z.to_nat (CBMIMAGE_DIR_ENTRY_NAME_LENGTH L)) (name_text (entry_name old)) in
  let name :=
    {| name_end_index :=
         match strchr_index text (CBMIMAGE_DIR_ENTRY_NAME_SHIFTSPACE L) 0 with
         | Some i => i
         | None => 16
         end;
       name_length := CBMIMAGE_DIR_ENTRY_NAME_LENGTH L;
       name_text := text |} in
  if is_partition_table (settings image) then
    let lba :=
      Z.lor (at_ (CBMIMAGE_DIR_ENTRY_PARTITION_START_LOW L))
            (Z.shiftl (at_ (CBMIMAGE_DIR_ENTRY_PARTITION_START_HIGH L)) 8) in
    let block_count :=
      u16 (Z.lor (at_ (CBMIMAGE_DIR_ENTRY_PARTITION_BLOCK_COUNT_LOW L))
                 (Z.shiftl (at_ (CBMIMAGE_DIR_ENTRY_PARTITION_BLOCK_COUNT_HIGH L)) 8)) in
    {| entry_name := name;
       entry_type := type + DIR_TYPE_PART_OFFSET;
       entry_is_locked := false; entry_is_closed := true;
       entry_has_datetime := entry_has_datetime old;
       entry_is_geos := false; entry_geos_is_vlir := false;
       entry_is_valid := entry_is_valid old;
       entry_start_block :=
         CBMIMAGE_BLOCK_SET_FROM_LBA image cbmimage_block_unused (lba * 2 + 1);
       entry_rel_sidesector_block := cbmimage_block_unused;
       entry_rel_recordlength := 0;
       entry_block_count := u16 (block_count * 2);
       entry_year := entry_year old; entry_month := entry_month old;
       entry_day := entry_day old; entry_hour := entry_hour old;
       entry_minute := entry_minute old;
       entry_geos_infoblock := cbmimage_block_unused;
       entry_geos_filetype := GEOS_FILETYPE_NON_GEOS |}
  else
    let etype := Z.land type (CBMIMAGE_DIR_ENTRY_TYPE_MASK_TYPE L) in
    let geos_filetype := at_ (CBMIMAGE_DIR_ENTRY_GEOS_FILETYPE L) in
    let is_vlir := at_ (CBMIMAGE_DIR_ENTRY_GEOS_FILESTRUCTURE L) in
    let geos := (etype <? DIR_TYPE_REL) && (negb (geos_filetype =? 0) || (is_vlir =? 1)) in
    let '(has_datetime, year, month, day, hour, minute) :=
      cbmimage_i_dir_entry_store_datetime p off in
    {| entry_name := name;
       entry_type := etype;
       entry_is_locked := truthy (Z.land type (CBMIMAGE_DIR_ENTRY_TYPE_MASK_LOCKED L));
       entry_is_closed := truthy (Z.land type (CBMIMAGE_DIR_ENTRY_TYPE_MASK_CLOSED L));
       entry_has_datetime := has_datetime;
       entry_is_geos := geos;
       entry_geos_is_vlir := if geos then Z.odd is_vlir else false;
       entry_is_valid := entry_is_valid old;
       entry_start_block :=
         CBMIMAGE_BLOCK_SET_FROM_TS image cbmimage_block_unused
           (at_ (CBMIMAGE_DIR_ENTRY_TRACK_OFFSET L)) (at_ (CBMIMAGE_DIR_ENTRY_SECTOR_OFFSET L));
       entry_rel_sidesector_block :=
         if geos then cbmimage_block_unused
         else CBMIMAGE_BLOCK_SET_FROM_TS image cbmimage_block_unused
                (at_ (CBMIMAGE_DIR_ENTRY_SS_TRACK_OFFSET L))
                (at_ (CBMIMAGE_DIR_ENTRY_SS_SECTOR_OFFSET L));
       entry_rel_recordlength :=
         if geos then 0 else at_ (CBMIMAGE_DIR_ENTRY_REL_RECORD_LENGTH L);
       entry_block_count :=
         u16 (Z.lor (at_ (CBMIMAGE_DIR_ENTRY_BLOCK_COUNT_LOW L))
                    (Z.shiftl (at_ (CBMIMAGE_DIR_ENTRY_BLOCK_COUNT_HIGH L)) 8));
       entry_year := year; entry_month := month; entry_day := day;
       entry_hour := hour; entry_minute := minute;
       entry_geos_infoblock :=
         if geos then
           CBMIMAGE_BLOCK_SET_FROM_TS image cbmimage_block_unused
             (at_ (CBMIMAGE_DIR_ENTRY_GEOS_INFO_TRACK L))
             (at_ (CBMIMAGE_DIR_ENTRY_GEOS_INFO_SECTOR L))
         else cbmimage_block_unused;
       entry_geos_filetype := if geos then geos_filetype else GEOS_FILETYPE_NON_GEOS |}.

(** [cbmimage_i_dir_get] *)
Definition cbmimage_i_dir_get
    (dei : cbmimage_i_dir_entry_internal) : Z * cbmimage_i_dir_entry_internal * list diag :=
  let bib := cbmimage_get_bytes_in_block image in
  let '(v, a, off) :=
    if bib <=? dir_block_offset dei then
      let '(v, a) := cbmimage_blockaccessor_follow image (dir_block_accessor dei) in
      (v, a, if v =? 0 then u16 (dir_block_offset dei - bib) else dir_block_offset dei)
    else (0, dir_block_accessor dei, dir_block_offset dei) in
  if negb (v =? 0) then
    (-1, {| entry := entry dei; dir_block_accessor := a; dir_block_offset := off;
            is_empty := is_empty dei; dei_loop_detector := dei_loop_detector dei |}, [])
  else
    let '(m, loop, log) :=
      if off =? 0 then cbmimage_loop_mark image (dei_loop_detector dei) (acc_block a)
      else (0, dei_loop_detector dei, []) in
    if truthy m then
      (-1, {| entry := entry dei; dir_block_accessor := a; dir_block_offset := off;
              is_empty := is_empty dei; dei_loop_detector := loop |}, log)
    else
      let type := rd image (acc_data a) (off + CBMIMAGE_DIR_ENTRY_TYPE_OFFSET L) in
      (0, {| entry := dir_get_entry (entry dei) (acc_data a) off;
             dir_block_accessor := a;
             dir_block_offset := u16 (off + CBMIMAGE_DIR_ENTRY_NEXT_ONE L);
             is_empty := type =? 0;
             dei_loop_detector := loop |}, log).

(** [cbmimage_i_dir_get_nonempty]: the [do ... while (1)] loop, [None] when
    [fuel] rounds did not leave it. *)
Fixpoint cbmimage_i_dir_get_nonempty
    (fuel : nat) (dei : cbmimage_i_dir_entry_internal)
    : option (Z * cbmimage_i_dir_entry_internal * list diag) :=
  match fuel with
  | O => None
  | S fuel' =>
      let '(ret, dei, log) := cbmimage_i_dir_get dei in
      if truthy ret then
        Some (ret, {| entry := set_is_valid (entry dei) false;
                      dir_block_accessor := dir_block_accessor dei;
                      dir_block_offset := dir_block_offset dei;
                      is_empty := is_empty dei;
                      dei_loop_detector := dei_loop_detector dei |}, log)
      else if (entry_type (entry dei) =? DIR_TYPE_DEL)
              && negb (entry_is_locked (entry dei))
              && negb (entry_is_closed (entry dei))
              && (track (ts (entry_start_block (entry dei))) =? 0)
              && (zidx (name_text (entry_name (entry dei))) 0 =? 0)
      then
        match cbmimage_i_dir_get_nonempty fuel' dei with
        | Some (r, dei', log') => Some (r, dei', log ++ log')
        | None => None
        end
      else
        Some (ret, {| entry := set_is_valid (entry dei) (ret =? 0);
                      dir_block_accessor := dir_block_accessor dei;
                      dir_block_offset := dir_block_offset dei;
                      is_empty := is_empty dei;
                      dei_loop_detector := dei_loop_detector dei |}, log)
  end.

(** The directory entry as [cbmimage_i_xalloc] delivers it. *)
Definition dir_entry_zero : cbmimage_dir_entry :=
  {| entry_name := {| name_end_index := 0; name_length := 0; name_text := replicate 24 0 |};
     entry_type := 0; entry_is_locked := false; entry_is_closed := false;
     entry_has_datetime := false; entry_is_geos := false; entry_geos_is_vlir := false;
     entry_is_valid := false;
     entry_start_block := cbmimage_block_unused;
     entry_rel_sidesector_block := cbmimage_block_unused;
     entry_rel_recordlength := 0; entry_block_count := 0;
     entry_year := 0; entry_month := 0; entry_day := 0; entry_hour := 0; entry_minute := 0;
     entry_geos_infoblock := cbmimage_block_unused;
     entry_geos_filetype := 0 |}.

(** [cbmimage_dir_get_first] *)
Definition cbmimage_dir_get_first (fuel : nat)
    : option (cbmimage_i_dir_entry_internal * list diag) :=
  let dei := {| entry := dir_entry_zero;
                dir_block_accessor := cbmimage_blockaccessor_create image (dir (settings image));
                dir_block_offset := 0;
                is_empty := false;
                dei_loop_detector := cbmimage_loop_create image |} in
  match cbmimage_i_dir_get_nonempty fuel dei with
  | Some (_, dei, log) => Some (dei, log)
  | None => None
  end.

(** [cbmimage_dir_get_next] *)
Definition cbmimage_dir_get_next (fuel : nat) (dei : cbmimage_i_dir_entry_internal)
    : option (Z * cbmimage_i_dir_entry_internal * list diag) :=
  cbmimage_i_dir_get_nonempty fuel dei.

End Directory.

(** [cbmimage_dir_get_is_valid], [cbmimage_dir_is_deleted] *)
Definition cbmimage_dir_get_is_valid (dei : cbmimage_i_dir_entry_internal) : bool :=
  entry_is_valid (entry dei).

Definition cbmimage_dir_is_deleted (dei : cbmimage_i_dir_entry_internal) : bool :=
  is_empty dei.

(** ** lib/validate.c *)

(** A C value of type [int] that may be indeterminate:
    [cbmimage_i_validate_process_file] ends without a [return] statement,
    the value its caller uses is not determined by the source. *)
Inductive cval := Det (z : Z) | Indet.

(** [a || b] with an indeterminate left operand and a determinate right
    one: 1 when the right operand is not zero, whatever the left one is. *)
Definition cval_lor_left_indet (b : Z) : cval := if truthy b then Det 1 else Indet.

(** The validator works on the FAT of the active frame and prints as it
    goes; its loops are bounded by the data.  [V A] is a computation on the
    image (for [image->settings->fat]) and the diagnostics printed so far
    that delivers an [A], or [None] when a loop ran out of fuel. *)
Definition V (A : Type) : Type :=
  cbmimage_fileimage -> list diag -> option (A * cbmimage_fileimage * list diag).

#[local] Instance V_ret : MRet V := fun A x image log => Some (x, image, log).

#[local] Instance V_bind : MBind V := fun A B k m image log =>
  match m image log with
  | Some (x, image', log') => k x image' log'
  | None => None
  end.

Definition out_of_fuel {A : Type} : V A := fun _ _ => None.

Definition the_image : V cbmimage_fileimage := fun image log => Some (image, image, log).

Definition print (d : list diag) : V unit := fun image log => Some (tt, image, log ++ d).

Definition of_option {A : Type} (o : option (A * list diag)) : V A :=
  fun image log =>
    match o with
    | Some (x, d) => Some (x, image, log ++ d)
    | None => None
    end.

(** [image->settings->fat]; the validator creates it before any use. *)
Definition settings_fat (image : cbmimage_fileimage) : cbmimage_fat :=
  match fat (settings image) with
  | Some f => f
  | None => {| fat_entry := []; fat_elements := 0 |}
  end.

Definition update_fat (f : cbmimage_fat -> cbmimage_fat) : V unit :=
  fun image log =>
    Some (tt, with_settings image (set_fat (settings image) (Some (f (settings_fat image)))),
          log).

(** [cbmimage_i_mark_global_and_local]; [loop_detector] is [None] for NULL.
    Delivers the status and the local loop detector afterwards. *)
Definition cbmimage_i_mark_global_and_local
    (loop_detector : option cbmimage_loop)
    (block_start block_current block_target : cbmimage_blockaddress)
    : V (Z * option cbmimage_loop) :=
  image ← the_image;
  let '(ret, loop_detector, log) :=
    match loop_detector with
    | Some l =>
        let '(m, l', log) := cbmimage_loop_mark image l block_current in
        if truthy m
        then (-1, Some l', log ++ [Diag_found_loop block_start block_current])
        else (0, Some l', log)
    | None => (0, None, [])
    end in
  print log;;
  let used := cbmimage_fat_is_used (settings_fat image) block_current in
  print (if used then [Diag_marking_already_marked block_start block_current] else []);;
  update_fat (fun f => snd (cbmimage_fat_set f block_current block_target));;
  mret (if used then -1 else ret, loop_detector).

(** The [for] loop of [cbmimage_i_validate_follow_chain]. *)
Fixpoint validate_follow_chain_loop
    (fuel : nat) (block_start : cbmimage_blockaddress)
    (chain : cbmimage_chain) (loop_detector : cbmimage_loop) (ret count : Z)
    : V (Z * Z) :=
  if cbmimage_chain_is_done chain then mret (ret, count)
  else
    match fuel with
    | O => out_of_fuel
    | S fuel' =>
        image ← the_image;
        '(m, loop_detector') ←
          cbmimage_i_mark_global_and_local (Some loop_detector) block_start
            (cbmimage_chain_get_current chain) (cbmimage_chain_get_next image chain);
        let ret := if truthy m then -1 else ret in
        let count := size_t (count + 1) in
        let '(_, chain', log) := cbmimage_chain_advance image chain in
        print log;;
        validate_follow_chain_loop fuel' block_start chain'
          (match loop_detector' with Some l => l | None => loop_detector end) ret count
    end.

(** [cbmimage_i_validate_follow_chain]: the status and the number of blocks
    followed, which the caller adds to [*count_blocks] when that pointer is
    not NULL. *)
Definition cbmimage_i_validate_follow_chain
    (fuel : nat) (block_start : cbmimage_blockaddress) : V (Z * Z) :=
  image ← the_image;
  let loop_detector := cbmimage_loop_create image in
  let '(chain, log) := cbmimage_chain_start image block_start in
  print log;;
  '(ret, count) ← validate_follow_chain_loop fuel block_start chain loop_detector 0 0;
  mret (if 0 <? ret then 0 else ret, count).

(** The [for] loop of [cbmimage_i_validate_1581_partition]; [n] is [count]
    as a natural number. *)
Fixpoint validate_1581_partition_loop
    (n : nat) (block_start block_current block_next : cbmimage_blockaddress) (ret : Z)
    : V Z :=
  match n with
  | O => mret ret
  | S n' =>
      let count := Z.of_nat n in
      image ← the_image;
      let block_next := if count =? 1 then cbmimage_block_unused else block_next in
      '(m, _) ← cbmimage_i_mark_global_and_local None block_start block_current block_next;
      let ret := if truthy m then -1 else ret in
      let '(a, block_current) := cbmimage_blockaddress_advance image block_current in
      print (if truthy a then [Diag_partition_exceeds_disk count] else []);;
      let ret := if truthy a then -1 else ret in
      let block_next :=
        if negb (count =? 1) then snd (cbmimage_blockaddress_advance image block_next)
        else block_next in
      validate_1581_partition_loop n' block_start block_current block_next ret
  end.

(** [cbmimage_i_validate_1581_partition] *)
Definition cbmimage_i_validate_1581_partition
    (block_start : cbmimage_blockaddress) (count : Z) : V Z :=
  image ← the_image;
  let block_current := block_start in
  let block_next := snd (cbmimage_blockaddress_advance image block_current) in
  validate_1581_partition_loop (Z.to_nat count) block_start block_current block_next 0.

(** The [do ... while] loop of [cbmimage_i_bam_check_equality]. *)
Fixpoint bam_check_equality_loop (fuel : nat) (block : cbmimage_blockaddress) : V unit :=
  match fuel with
  | O => out_of_fuel
  | S fuel' =>
      image ← the_image;
      let is_marked_in_loop := cbmimage_fat_is_used (settings_fat image) block in
      let is_used_in_bam := cbmimage_bam_get image block =? BAM_state_code BAM_USED in
      print (if is_marked_in_loop && negb is_used_in_bam then [Diag_used_but_bam_empty block]
             else if negb is_marked_in_loop && is_used_in_bam
                  then [Diag_not_used_but_bam_used block]
                  else []);;
      let '(a, block) := cbmimage_blockaddress_advance image block in
      if truthy a then mret tt else bam_check_equality_loop fuel' block
  end.

(** [cbmimage_i_bam_check_equality]: [ret] is initialised with 0 and never
    assigned again. *)
Definition cbmimage_i_bam_check_equality (fuel : nat) : V Z :=
  image ← the_image;
  let ret := 0 in
  let block :=
    snd (cbmimage_blockaddress_init_from_ts_value image cbmimage_block_unused 1 0) in
  bam_check_equality_loop fuel block;;
  mret ret.

(** Offsets inside a super side-sector and a side-sector. *)
Definition SUPER_SIDESECTOR_OFFSET_LINK_TRACK : Z := 0.
Definition SUPER_SIDESECTOR_OFFSET_LINK_SECTOR : Z := 1.
Definition SUPER_SIDESECTOR_OFFSET_LINK_COUNT : Z := 2.
Definition SUPER_SIDESECTOR_OFFSET_GROUP0_TRACK : Z := 3.
Definition SUPER_SIDESECTOR_OFFSET_GROUP0_SECTOR : Z := 4.
Definition SUPER_SIDESECTOR_LINK_COUNT_FIXED : Z := 254.
Definition SIDESECTOR_OFFSET_RECORD_SIZE : Z := 3.
Definition SIDESECTOR_OFFSET_SS0_TRACK : Z := 4.
Definition SIDESECTOR_OFFSET_SS0_SECTOR : Z := 5.
Definition SIDESECTOR_OFFSET_CHAIN_TRACK : Z := 16.
Definition SIDESECTOR_MAX_COUNT : Z := 6.

(** [cbmimage_i_validate_super_sidesector_plausibility] *)
Definition cbmimage_i_validate_super_sidesector_plausibility
    (image : cbmimage_fileimage) (chain : cbmimage_chain) : Z * list diag :=
  let ptr := rd image (cbmimage_chain_get_data chain) in
  let sss := cbmimage_chain_get_current chain in
  let bad_link :=
    negb (ptr SUPER_SIDESECTOR_OFFSET_LINK_TRACK =? ptr SUPER_SIDESECTOR_OFFSET_GROUP0_TRACK)
    || negb (ptr SUPER_SIDESECTOR_OFFSET_LINK_SECTOR
             =? ptr SUPER_SIDESECTOR_OFFSET_GROUP0_SECTOR) in
  let bad_count :=
    negb (ptr SUPER_SIDESECTOR_OFFSET_LINK_COUNT =? SUPER_SIDESECTOR_LINK_COUNT_FIXED) in
  (if bad_link || bad_count then -1 else 0,
   (if bad_link then [Diag_super_sidesector_link sss] else [])
   ++ (if bad_count
       then [Diag_super_sidesector_not_marked sss (ptr SUPER_SIDESECTOR_OFFSET_LINK_COUNT)]
       else [])).

(** The [for] loop of [cbmimage_i_validate_super_sidesector_end] from [i]
    on, [n] bytes to go. *)
Fixpoint super_sidesector_end_loop
    (image : cbmimage_fileimage) (chain : cbmimage_chain) (n : nat) (i : Z)
    : Z * list diag :=
  match n with
  | O => (0, [])
  | S n' =>
      if negb (rd image (cbmimage_chain_get_data chain) i =? 0)
      then (-1, [Diag_super_sidesector_data_after_end (cbmimage_chain_get_current chain) i])
      else super_sidesector_end_loop image chain n' (i + 1)
  end.

(** [cbmimage_i_validate_super_sidesector_end] *)
Definition cbmimage_i_validate_super_sidesector_end
    (image : cbmimage_fileimage) (chain : cbmimage_chain) (offset : Z) : Z * list diag :=
  super_sidesector_end_loop image chain (Z.to_nat (256 - offset)) offset.

(** [cbmimage_i_validate_sidesector_plausibility]; [first_sidesector] holds
    the 256 bytes copied from the first side-sector of the group. *)
Definition cbmimage_i_validate_sidesector_plausibility
    (image : cbmimage_fileimage) (chain_sidesector : cbmimage_chain)
    (first_sidesector : list Z) (count_sidesector recordlength : Z) : Z * list diag :=
  let data := rd image (cbmimage_chain_get_data chain_sidesector) in
  let block_this_sidesector := cbmimage_chain_get_current chain_sidesector in
  let count_sidesector := u8 count_sidesector mod SIDESECTOR_MAX_COUNT in
  let differs (i : Z) : bool :=
    negb (data (SIDESECTOR_OFFSET_SS0_TRACK + 2 * i)
          =? zidx first_sidesector (SIDESECTOR_OFFSET_SS0_TRACK + 2 * i))
    || negb (data (SIDESECTOR_OFFSET_SS0_SECTOR + 2 * i)
             =? zidx first_sidesector (SIDESECTOR_OFFSET_SS0_SECTOR + 2 * i)) in
  let log1 :=
    flat_map (fun i => if differs (Z.of_nat i)
                       then [Diag_sidesector_differs count_sidesector (Z.of_nat i)] else [])
             (seq 0 (Z.to_nat SIDESECTOR_MAX_COUNT)) in
  let misplaced :=
    negb (data (SIDESECTOR_OFFSET_SS0_TRACK + 2 * count_sidesector)
          =? track (ts block_this_sidesector))
    || negb (data (SIDESECTOR_OFFSET_SS0_SECTOR + 2 * count_sidesector)
             =? sector (ts block_this_sidesector)) in
  let wrong_length := negb (data SIDESECTOR_OFFSET_RECORD_SIZE =? recordlength) in
  let log :=
    log1
    ++ (if misplaced then [Diag_sidesector_not_mentioned count_sidesector] else [])
    ++ (if wrong_length
        then [Diag_sidesector_record_length count_sidesector recordlength
                (data SIDESECTOR_OFFSET_RECORD_SIZE)]
        else []) in
  (match log with [] => 0 | _ => -1 end, log).

(** The inner [for] loop of [cbmimage_i_validate_sidesector_chain]: the
    remaining link slots have to be zero. *)
Fixpoint sidesector_chain_rest
    (image : cbmimage_fileimage) (sidesector : option Z)
    (block_current : cbmimage_blockaddress) (n : nat) (offset_block : Z) : list diag :=
  match n with
  | O => []
  | S n' =>
      if 256 <=? offset_block then []
      else
        (if negb (Z.lor (rd image sidesector offset_block)
                        (rd image sidesector (offset_block + 1)) =? 0)
         then [Diag_sidesector_extra_data block_current] else [])
        ++ sidesector_chain_rest image sidesector block_current n' (offset_block + 2)
  end.

(** The outer [for] loop of [cbmimage_i_validate_sidesector_chain]: the
    status so far, the file chain and the diagnostics. *)
Fixpoint sidesector_chain_loop
    (image : cbmimage_fileimage) (sidesector : option Z)
    (n : nat) (offset_block : Z) (ret : Z) (chain_file : cbmimage_chain)
    : Z * cbmimage_chain * list diag :=
  match n with
  | O => (ret, chain_file, [])
  | S n' =>
      if 256 <=? offset_block then (ret, chain_file, [])
      else
        let block_current := cbmimage_chain_get_current chain_file in
        let t := rd image sidesector offset_block in
        let s := rd image sidesector (offset_block + 1) in
        if negb (Z.lor t s =? 0) then
          let at_end := cbmimage_chain_is_done chain_file in
          let other := negb (track (ts block_current) =? t)
                       || negb (sector (ts block_current) =? s) in
          let log := (if at_end then [Diag_end_of_file_but_link t s] else [])
                     ++ (if other then [Diag_file_block_differs block_current t s] else []) in
          let ret := if at_end || other then -1 else ret in
          let '(_, chain_file, log_advance) := cbmimage_chain_advance image chain_file in
          let '(ret, chain_file, log_rest) :=
            sidesector_chain_loop image sidesector n' (offset_block + 2) ret chain_file in
          (ret, chain_file, log ++ log_advance ++ log_rest)
        else
          let continues := negb (cbmimage_chain_is_done chain_file) in
          let rest := sidesector_chain_rest image sidesector block_current n offset_block in
          (match rest with
           | [] => if continues then -1 else ret
           | _ => -1
           end,
           chain_file,
           (if continues then [Diag_sidesector_done_file_continues block_current] else [])
           ++ rest)
  end.

(** [cbmimage_i_validate_sidesector_chain] *)
Definition cbmimage_i_validate_sidesector_chain
    (image : cbmimage_fileimage) (chain_sidesector chain_file : cbmimage_chain)
    : Z * cbmimage_chain * list diag :=
  sidesector_chain_loop image (cbmimage_chain_get_data chain_sidesector)
    120 SIDESECTOR_OFFSET_CHAIN_TRACK 0 chain_file.

(** The locals of [cbmimage_i_validate_rel_file] that its [for] loop
    changes. *)
Record rel_state := {
  rel_ret : Z;
  rel_block_count : Z;
  rel_super_sidesector_offset : Z;
  rel_loop_detector : cbmimage_loop;
  rel_chain_file : cbmimage_chain;
  rel_first_sidesector : list Z;
  rel_count_sidesector : Z
}.

(** The [for] loop of [cbmimage_i_validate_rel_file]; [chain_super_sidesector]
    is [None] for NULL. *)
Fixpoint validate_rel_file_loop
    (fuel : nat) (dir_entry : cbmimage_dir_entry)
    (chain_super_sidesector : option cbmimage_chain)
    (chain_sidesector : cbmimage_chain) (st : rel_state) : V rel_state :=
  if cbmimage_chain_is_done chain_sidesector then mret st
  else
    match fuel with
    | O => out_of_fuel
    | S fuel' =>
        image ← the_image;
        let block_count := size_t (rel_block_count st + 1) in
        '(m, loop_detector) ←
          cbmimage_i_mark_global_and_local (Some (rel_loop_detector st))
            (entry_rel_sidesector_block dir_entry)
            (cbmimage_chain_get_current chain_sidesector)
            (cbmimage_chain_get_next image chain_sidesector);
        let ret := if truthy m then -1 else rel_ret st in
        let count_sidesector := rel_count_sidesector st in
        let first_group := Z.rem count_sidesector SIDESECTOR_MAX_COUNT =? 0 in
        let block_first_sidesector := cbmimage_chain_get_current chain_sidesector in
        let first_sidesector :=
          if first_group
          then map (fun i => rd image (cbmimage_chain_get_data chain_sidesector) (Z.of_nat i))
                   (seq 0 256)
          else rel_first_sidesector st in
        let '(ret, super_sidesector_offset, log) :=
          if first_group then
            match chain_super_sidesector with
            | None =>
                if negb (count_sidesector =? 0)
                then (-1, rel_super_sidesector_offset st,
                      [Diag_sidesector_number count_sidesector block_first_sidesector])
                else (ret, rel_super_sidesector_offset st, [])
            | Some chain_super =>
                let offset := rel_super_sidesector_offset st in
                if 255 <=? offset then (-1, offset, [Diag_super_sidesector_overflowed])
                else
                  let ptr := rd image (cbmimage_chain_get_data chain_super) in
                  if negb (ptr offset =? track (ts block_first_sidesector))
                     || negb (ptr (offset + 1) =? sector (ts block_first_sidesector))
                  then (-1, u8 (offset + 2),
                        [Diag_super_sidesector_wrong_group block_first_sidesector])
                  else (ret, u8 (offset + 2), [])
            end
          else (ret, rel_super_sidesector_offset st, []) in
        print log;;
        let '(p, log) :=
          cbmimage_i_validate_sidesector_plausibility image chain_sidesector
            first_sidesector count_sidesector (entry_rel_recordlength dir_entry) in
        print log;;
        let ret := if truthy p then -1 else ret in
        let '(c, chain_file, log) :=
          cbmimage_i_validate_sidesector_chain image chain_sidesector (rel_chain_file st) in
        print log;;
        let ret := if truthy c then -1 else ret in
        let '(_, chain_sidesector, log) := cbmimage_chain_advance image chain_sidesector in
        print log;;
        validate_rel_file_loop fuel' dir_entry chain_super_sidesector chain_sidesector
          {| rel_ret := ret; rel_block_count := block_count;
             rel_super_sidesector_offset := super_sidesector_offset;
             rel_loop_detector :=
               match loop_detector with Some l => l | None => rel_loop_detector st end;
             rel_chain_file := chain_file;
             rel_first_sidesector := first_sidesector;
             rel_count_sidesector := c_int (count_sidesector + 1) |}
    end.

(** [cbmimage_i_validate_rel_file]: the status and the number of blocks to
    add to [*count_blocks]. *)
Definition cbmimage_i_validate_rel_file
    (fuel : nat) (dir_entry : cbmimage_dir_entry) : V (Z * Z) :=
  image ← the_image;
  '(ret, block_count, chain_super_sidesector, block_sidesector, super_sidesector_offset) ←
    (if negb (truthy (has_super_sidesector (settings image))) then
       mret (0, 0, None, entry_rel_sidesector_block dir_entry, 0)
     else
       let block_super_sidesector := entry_rel_sidesector_block dir_entry in
       let '(chain_super, log) := cbmimage_chain_start image block_super_sidesector in
       print log;;
       '(m, _) ←
         cbmimage_i_mark_global_and_local None block_super_sidesector
           block_super_sidesector (cbmimage_chain_get_next image chain_super);
       let '(p, log) := cbmimage_i_validate_super_sidesector_plausibility image chain_super in
       print log;;
       mret (if truthy m || truthy p then -1 else 0, 1, Some chain_super,
             cbmimage_chain_get_next image chain_super,
             SUPER_SIDESECTOR_OFFSET_GROUP0_TRACK));
  let loop_detector := cbmimage_loop_create image in
  let '(chain_file, log) := cbmimage_chain_start image (entry_start_block dir_entry) in
  print log;;
  let '(chain_sidesector, log) := cbmimage_chain_start image block_sidesector in
  print log;;
  st ← validate_rel_file_loop fuel dir_entry chain_super_sidesector chain_sidesector
         {| rel_ret := ret; rel_block_count := block_count;
            rel_super_sidesector_offset := super_sidesector_offset;
            rel_loop_detector := loop_detector;
            rel_chain_file := chain_file;
            rel_first_sidesector := replicate 256 0;
            rel_count_sidesector := 0 |};
  let '(ret, log) :=
    match chain_super_sidesector with
    | Some chain_super =>
        let '(e, log) :=
          cbmimage_i_validate_super_sidesector_end image chain_super
            (rel_super_sidesector_offset st) in
        (Z.lor e (rel_ret st), log)
    | None => (rel_ret st, [])
    end in
  print log;;
  mret (if 0 <? ret then 0 else ret, rel_block_count st).

(** The first [for] loop over the VLIR record block in
    [cbmimage_i_validate_geos_file]: the status, the blocks counted and the
    index [i] at which the loop is left. *)
Fixpoint geos_records_loop
    (fuel : nat) (recordblock_data : option Z) (n : nat) (i ret block_count : Z)
    : V (Z * Z * Z) :=
  match n with
  | O => mret (ret, block_count, i)
  | S n' =>
      if 256 <=? i then mret (ret, block_count, i)
      else
        image ← the_image;
        let t := rd image recordblock_data i in
        let s := rd image recordblock_data (i + 1) in
        if (t =? 0) && (s =? 0) then mret (ret, block_count, i)
        else if (t =? 0) && (s =? 255) then
          geos_records_loop fuel recordblock_data n' (i + 2) ret block_count
        else
          let block_record := CBMIMAGE_BLOCK_SET_FROM_TS image cbmimage_block_unused t s in
          '(r, count) ← cbmimage_i_validate_follow_chain fuel block_record;
          geos_records_loop fuel recordblock_data n' (i + 2)
            (Z.lor r ret) (size_t (block_count + count))
  end.

(** The second [for] loop: every slot from [i] on has to be (0,0). *)
Fixpoint geos_records_rest
    (image : cbmimage_fileimage) (recordblock_data : option Z)
    (start_block : cbmimage_blockaddress) (n : nat) (i : Z) : Z * list diag :=
  match n with
  | O => (0, [])
  | S n' =>
      if 256 <=? i then (0, [])
      else if negb (rd image recordblock_data i =? 0)
              || negb (rd image recordblock_data (i + 1) =? 0)
      then (-1, [Diag_vlir_data_after start_block i])
      else geos_records_rest image recordblock_data start_block n' (i + 2)
  end.

(** [cbmimage_i_validate_geos_file]: the status and the number of blocks to
    add to [*count_blocks]. *)
Definition cbmimage_i_validate_geos_file
    (fuel : nat) (dir_entry : cbmimage_dir_entry) : V (Z * Z) :=
  if entry_is_geos dir_entry then
    image ← the_image;
    '(ret, block_count) ←
      (if entry_geos_is_vlir dir_entry then
         let '(chain_recordblock, log) :=
           cbmimage_chain_start image (entry_start_block dir_entry) in
         print log;;
         let recordblock_data := cbmimage_chain_get_data chain_recordblock in
         '(ret, block_count, i) ← geos_records_loop fuel recordblock_data 127 2 0 0;
         let '(r, log) :=
           geos_records_rest image recordblock_data (entry_start_block dir_entry) 127 i in
         print log;;
         mret (if truthy r then -1 else ret, block_count)
       else mret (0, 0));
    if 0 <? lba (entry_geos_infoblock dir_entry) then
      let block_info := entry_geos_infoblock dir_entry in
      '(m, _) ←
        cbmimage_i_mark_global_and_local None block_info block_info cbmimage_block_unused;
      mret (if truthy m then -1 else ret, size_t (block_count + 1))
    else mret (ret, block_count)
  else mret (0, 0).

(** [cbmimage_i_validate_process_file].  The body computes [ret] and ends
    without returning it: the value the caller receives is indeterminate. *)
Definition cbmimage_i_validate_process_file
    (fuel : nat) (dir_entry : cbmimage_dir_entry) : V cval :=
  let type := entry_type dir_entry in
  '(ret, block_count) ←
    (if (type =? DIR_TYPE_PART_D64) || (type =? DIR_TYPE_PART_D71)
        || (type =? DIR_TYPE_PART_D81) || (type =? DIR_TYPE_PART1581)
     then
       r ← cbmimage_i_validate_1581_partition (entry_start_block dir_entry)
             (entry_block_count dir_entry);
       mret (Z_of_bool (truthy r || truthy 0), entry_block_count dir_entry)
     else if type =? DIR_TYPE_CMD_NATIVE then mret (0, 0)
     else
       '(r, count) ← cbmimage_i_validate_follow_chain fuel (entry_start_block dir_entry);
       mret (Z_of_bool (truthy r || truthy 0), count));
  '(ret, block_count) ←
    (if type =? DIR_TYPE_REL then
       '(r, count) ← cbmimage_i_validate_rel_file fuel dir_entry;
       mret (Z_of_bool (truthy r || truthy ret), size_t (block_count + count))
     else mret (ret, block_count));
  '(ret, block_count) ←
    (if entry_is_geos dir_entry then
       '(r, count) ← cbmimage_i_validate_geos_file fuel dir_entry;
       mret (Z_of_bool (truthy r || truthy ret), size_t (block_count + count))
     else mret (ret, block_count));
  print (if negb (entry_block_count dir_entry =? block_count)
         then [Diag_block_count_mismatch (entry_block_count dir_entry) block_count]
         else []);;
  let ret := if negb (entry_block_count dir_entry =? block_count) then 1 else ret in
  mret Indet.

(** The loop shared by the two [set_bam] functions: mark [block_current]
    with target [block_next] and step on, until the step fails.  [step]
    delivers the status of the advance and the next target. *)
Fixpoint set_bam_loop
    (fuel : nat) (step : cbmimage_blockaddress -> Z * cbmimage_blockaddress)
    (last_run : bool) (block_current block_next : cbmimage_blockaddress) (ret : Z) : V Z :=
  match fuel with
  | O => out_of_fuel
  | S fuel' =>
      image ← the_image;
      let used := cbmimage_fat_is_used (settings_fat image) block_current in
      print (if used
             then [Diag_marking_already_marked (block_subdir_first (settings image))
                     block_current]
             else []);;
      let ret := if used then -1 else ret in
      update_fat (fun f => snd (cbmimage_fat_set f block_current block_next));;
      if last_run then mret ret
      else
        let block_current := block_next in
        let '(a, block_next) := step block_next in
        if truthy a
        then set_bam_loop fuel' step true block_current cbmimage_block_unused ret
        else set_bam_loop fuel' step false block_current block_next ret
  end.

(** [cbmimage_i_d71_set_bam] *)
Definition d71_set_bam (fuel : nat) : V Z :=
  image ← the_image;
  let block_current :=
    snd (cbmimage_blockaddress_init_from_ts_value image cbmimage_block_unused (18 + 35) 0) in
  let block_next := snd (cbmimage_blockaddress_advance image block_current) in
  set_bam_loop fuel (cbmimage_blockaddress_advance_in_track image)
    false block_current block_next 0.

(** [cbmimage_i_d81_set_bam] *)
Definition d81_set_bam (fuel : nat) : V Z :=
  image ← the_image;
  let s := settings image in
  if subdir_global_addressing s && (0 <? lba (block_subdir_first s)) then
    let block_current :=
      snd (cbmimage_blockaddress_init_from_ts_value image cbmimage_block_unused 1 0) in
    let block_next := snd (cbmimage_blockaddress_advance image block_current) in
    set_bam_loop fuel
      (fun b =>
         let '(a, b') := cbmimage_blockaddress_advance image b in
         if truthy a then (a, b')
         else if lba b' =? lba (block_subdir_first s)
              then (0, snd (cbmimage_blockaddress_advance image (block_subdir_last s)))
              else (0, b'))
      false block_current block_next 0
  else mret 0.

Section Validate.

Variable L : dir_entry_layout.

(** The [for] loop over the directory in [cbmimage_validate]. *)
Fixpoint validate_dir_loop
    (fuel : nat) (dir_entry : cbmimage_i_dir_entry_internal) (ret : cval) : V cval :=
  if negb (cbmimage_dir_get_is_valid dir_entry) then mret ret
  else
    match fuel with
    | O => out_of_fuel
    | S fuel' =>
        image ← the_image;
        ret ←
          (if cbmimage_dir_is_deleted dir_entry then mret ret
           else
             r ← cbmimage_i_validate_process_file fuel (entry dir_entry);
             mret (match r, ret with
                   | Det r, Det ret => Det (Z_of_bool (truthy r || truthy ret))
                   | Indet, Det ret => cval_lor_left_indet ret
                   | _, Indet => Indet
                   end));
        '(_, dir_entry) ← of_option
          (match cbmimage_dir_get_next L image fuel dir_entry with
           | Some (r, d, log) => Some ((r, d), log)
           | None => None
           end);
        validate_dir_loop fuel' dir_entry ret
    end.

(** [cbmimage_validate] *)
Definition cbmimage_validate (fuel : nat) : V cval :=
  image ← the_image;
  (match fat (settings image) with
   | None =>
       update_fat (fun _ => cbmimage_fat_create image)
   | Some _ => mret tt
   end);;
  image ← the_image;
  let s := settings image in
  ret ←
    (if negb (is_partition_table s) then
       let '(ret, log) := cbmimage_bam_check_consistency image in
       print log;;
       ret ←
         (if ret =? 0 then
            '(r, _) ← cbmimage_i_validate_follow_chain fuel
                        (acc_block (match info s with
                                    | Some a => a
                                    | None => {| acc_block := cbmimage_block_unused;
                                                 acc_data := None |}
                                    end));
            mret r
          else mret ret);
       ret ←
         (match bam s with
          | Some (sel :: _) =>
              if ret =? 0 then
                image ← the_image;
                if negb (cbmimage_fat_is_used (settings_fat image) (sel_block sel)) then
                  '(r, _) ← cbmimage_i_validate_follow_chain fuel (sel_block sel);
                  mret r
                else mret ret
              else mret ret
          | _ => mret ret
          end);
       ret ←
         (if (ret =? 0) && negb (lba (geos_border s) =? 0) then
            '(r, _) ← cbmimage_i_validate_follow_chain fuel (geos_border s);
            mret r
          else mret ret);
       dir_entry ← of_option (cbmimage_dir_get_first L image fuel);
       validate_dir_loop fuel dir_entry (Det ret)
     else mret (Det 0));
  ret ←
    (match set_bam (fct s) with
     | Some cbmimage_i_d71_set_bam => r ← d71_set_bam fuel; mret (Det r)
     | Some cbmimage_i_d81_set_bam => r ← d81_set_bam fuel; mret (Det r)
     | None => mret ret
     end);
  if negb (is_partition_table s) then
    e ← cbmimage_i_bam_check_equality fuel;
    mret (match ret with
          | Det ret => Det (Z.lor e ret)
          | Indet => Indet
          end)
  else mret ret.

End Validate.

(** Running the validator on an image, with nothing printed so far. *)
Definition run_validate (L : dir_entry_layout) (fuel : nat) (image : cbmimage_fileimage)
    : option (cval * cbmimage_fileimage * list diag) :=
  cbmimage_validate L fuel image [].

(** ** Well-formed geometries

    Decidable descriptions of the two kinds of frame the address code is
    written for: a uniform frame (all three conversion pointers NULL) and a
    frame with a per-track start table. *)

Definition uniform_geometry (s : cbmimage_image_settings) : bool :=
  match get_sectors_in_track (fct s), ts_to_blockaddress (fct s),
        lba_to_blockaddress (fct s) with
  | None, None, None =>
      (1 <=? maxtracks s) && (maxtracks s <=? 255)
      && (1 <=? maxsectors s) && (maxsectors s <=? 256)
      && (maxtracks s * maxsectors s <=? 65535)
  | _, _, _ => false
  end.

Definition table_geometry (s : cbmimage_image_settings) : bool :=
  match get_sectors_in_track (fct s), ts_to_blockaddress (fct s),
        lba_to_blockaddress (fct s) with
  | Some _, Some _, Some _ =>
      (1 <=? maxtracks s) && (maxtracks s <=? 70)
      && (zidx (track_lba_start s) 0 =? 0)
      && (zidx (sectors_in_track s) 0 =? 0)
      && (zidx (track_lba_start s) 1 =? 1)
      && forallb (fun t =>
                    let t := Z.of_nat t in
                    (1 <=? zidx (sectors_in_track s) t)
                    && (zidx (sectors_in_track s) t <=? maxsectors s)
                    && (zidx (track_lba_start s) t + zidx (sectors_in_track s) t <=? 65535)
                    && ((t =? maxtracks s)
                        || (zidx (track_lba_start s) (t + 1)
                              =? zidx (track_lba_start s) t + zidx (sectors_in_track s) t)))
                 (seq 1 (Z.to_nat (maxtracks s)))
      && (maxsectors s <=? 255)
  | _, _, _ => false
  end.

Definition geometry_ok (s : cbmimage_image_settings) : bool :=
  uniform_geometry s || table_geometry s.

(** The image kinds that [cbmimage_image_open] above initialises. *)
Definition opens_with_geometry (ty : cbmimage_imagetype) : bool :=
  match ty with
  | TYPE_D40 | TYPE_D64 | TYPE_D64_40TRACK | TYPE_D64_40TRACK_SPEEDDOS
  | TYPE_D64_40TRACK_DOLPHIN | TYPE_D64_40TRACK_PROLOGIC | TYPE_D64_42TRACK
  | TYPE_D71 | TYPE_D81 => true
  | _ => false
  end.

(** A frame without an active partition on a buffer that holds every block
    of the geometry. *)
Definition image_ok (image : cbmimage_fileimage) : bool :=
  geometry_ok (settings image)
  && negb (subdir_relative_addressing (settings image))
  && (subdir_data_offset (settings image) =? 0)
  && (bytes_in_block (settings image) =? 256)
  && (1 <=? cbmimage_get_max_lba image)
  && (cbmimage_get_max_lba image <? 65536)
  && (cbmimage_get_max_lba image * 256 <=? size (parameter image))
  && (size (parameter image) <? 18446744073709551616)
  && (lba (snd (cbmimage_blockaddress_init_from_ts_value image cbmimage_block_unused
                  (maxtracks (settings image))
                  (cbmimage_get_sectors_in_track image (maxtracks (settings image)) - 1)))
        =? cbmimage_get_max_lba image).

(** Concrete images used as inputs below. *)
Definition d64_blank : cbmimage_fileimage := cbmimage_image_open zero_buffer 174848 TYPE_D64.
Definition d81_blank : cbmimage_fileimage := cbmimage_image_open zero_buffer 819200 TYPE_D81.

(** A D64 image whose block 18/0 carries the link (0, 10). *)
Definition d64_short_info : cbmimage_fileimage :=
  cbmimage_image_open (poke [(91392 + 1, 10)] zero_buffer) 174848 TYPE_D64.

(** A D64 image whose block 17/0 links to itself. *)
Definition d64_self_loop : cbmimage_fileimage :=
  cbmimage_image_open (poke [(86016, 17); (86016 + 1, 0)] zero_buffer) 174848 TYPE_D64.

(** A D64 image cut off behind block 18/0: the buffer of 91648 bytes holds
    the blocks with LBA 1 .. 358 of the 683 of the geometry.  Block 1/0
    carries the link (18, 1), the block with LBA 359. *)
Definition d64_truncated : cbmimage_fileimage :=
  cbmimage_image_open (poke [(0, 18); (1, 1)] zero_buffer) 91648 TYPE_D64.

(** A D64 image with a one-block file in block 17/0: the link is (0, 10),
    so the block holds the nine data bytes at offsets 2 .. 10. *)
Definition d64_one_block_file : cbmimage_fileimage :=
  cbmimage_image_open (poke [(86016 + 1, 10); (86016 + 2, 65); (86016 + 10, 66)] zero_buffer)
    174848 TYPE_D64.

(** That file, as [cbmimage_file_open_by_dir_entry] opens it, and as the
    first read leaves it. *)
Definition one_block_file : cbmimage_file :=
  fst (cbmimage_file_open_by_dir_entry d64_one_block_file (CBMIMAGE_BLOCK_INIT 17 0 337)).

Definition one_block_file_after_read : cbmimage_file :=
  {| file_chain :=
       {| block_start := CBMIMAGE_BLOCK_INIT 17 0 337; is_done := true; is_loop := false;
          loop_detector := loop_detector (file_chain one_block_file);
          block_accessor := block_accessor (file_chain one_block_file) |};
     block_current_offset := 2; block_current_remain := 9 |}.

(** A D64 image whose BAM (block 18/0) is inconsistent on three tracks:
    track 1 reports five free blocks with an empty bitmap, track 2 has the
    bit of sector 23 set, track 3 reports thirty free blocks. *)
Definition d64_bad_bam : cbmimage_fileimage :=
  cbmimage_image_open
    (poke [(91392 + 4, 5); (91392 + 8, 1); (91392 + 11, 128); (91392 + 12, 30)] zero_buffer)
    174848 TYPE_D64.

(** The blocks of an image in LBA order, but for the one at LBA [but]. *)
Definition blocks_but (image : cbmimage_fileimage) (but : Z) : list cbmimage_blockaddress :=
  flat_map (fun n => let l := Z.of_nat n in
                     if l =? but then []
                     else [CBMIMAGE_BLOCK_SET_FROM_LBA image cbmimage_block_unused l])
           (seq 1 (Z.to_nat (cbmimage_get_max_lba image))).

(** ** Chain traversal as iteration, and the measure of the loop detector *)

(** [n] calls of [cbmimage_chain_advance] in a row. *)
Fixpoint chain_run (image : cbmimage_fileimage) (n : nat) (chain : cbmimage_chain)
    : cbmimage_chain :=
  match n with
  | O => chain
  | S n' => chain_run image n' (snd (fst (cbmimage_chain_advance image chain)))
  end.

(** The bit of LBA [l] in the map of a loop detector. *)
Definition loop_marked (loop : cbmimage_loop) (l : Z) : bool :=
  Z.testbit (zidx (loop_map loop) (l / 8)) (l mod 8).

(** The number of LBAs among [1 .. n] that are not marked. *)
Fixpoint count_unmarked (loop : cbmimage_loop) (n : nat) : nat :=
  match n with
  | O => O
  | S n' => ((if loop_marked loop (Z.of_nat n) then 0 else 1) + count_unmarked loop n')%nat
  end.

(** The map of a detector has the size the detector records. *)
Definition loop_sized (loop : cbmimage_loop) : Prop :=
  length (loop_map loop) = Z.to_nat (loop_map_size loop).

(** A block address both of whose representations name a block of the
    frame. *)
Definition block_exists (image : cbmimage_fileimage) (b : cbmimage_blockaddress) : bool :=
  cbmimage_blockaddress_ts_exists image (track (ts b)) (sector (ts b))
  && cbmimage_blockaddress_lba_exists image (lba b).

(** The state a traversal keeps: the detector's map has its recorded size
    and the accessor points at a block. *)
Definition chain_inv (c : cbmimage_chain) : Prop :=
  loop_sized (loop_detector c) /\ acc_data (block_accessor c) <> None.

(** ** Abbreviations for the statements about the frame *)

(** The LBA of sector 0 of track [t], as the conversion from T/S gives it. *)
Definition first_lba (image : cbmimage_fileimage) (t : Z) : Z :=
  lba (snd (cbmimage_blockaddress_init_from_ts_value image cbmimage_block_unused t 0)).

(** The block address of LBA [l], as the conversion from LBAs gives it. *)
Definition block_of_lba (image : cbmimage_fileimage) (l : Z) : cbmimage_blockaddress :=
  snd (cbmimage_blockaddress_init_from_lba_value image cbmimage_block_unused l).

(** ** lib/readwriteblock.c: writing, and reading along a link *)

(** [memcpy(buffer + p, data, n)] on the raw buffer. *)
Definition store_bytes (buf : Z -> Z) (p n : Z) (data : list Z) : Z -> Z :=
  fun i => if (p <=? i) && (i <? p + n) then zidx data (i - p) else buf i.

Definition with_buffer (image : cbmimage_fileimage) (buf : Z -> Z) : cbmimage_fileimage :=
  {| settings := settings image;
     parameter := {| size := size (parameter image); buffer := buf |} |}.

(** [cbmimage_write_block]: the status and the image afterwards.
    [caller_buffer] is the parameter [buffer] ([None] for NULL), read from
    its start. *)
Definition cbmimage_write_block
    (image : cbmimage_fileimage) (block : cbmimage_blockaddress)
    (caller_buffer : option (list Z)) (buffersize : Z) : Z * cbmimage_fileimage :=
  let bib := cbmimage_get_bytes_in_block image in
  match caller_buffer, cbmimage_i_get_address_of_block image block with
  | Some data, Some p =>
      if bib <=? buffersize
      then (0, with_buffer image (store_bytes (buffer (parameter image)) p bib data))
      else (-1, image)
  | _, _ => (-1, image)
  end.

(** [cbmimage_read_next_block]: [caller_buffer] is the parameter [buffer],
    which holds a block whose first two bytes are the link.  Delivers the
    status, the value stored in [*block] and the bytes stored in the buffer
    (each [None] when left untouched). *)
Definition cbmimage_read_next_block
    (image : cbmimage_fileimage) (caller_buffer : list Z) (buffersize : Z)
    : Z * option cbmimage_blockaddress * option (list Z) :=
  let t := u8 (zidx caller_buffer 0) in
  let s := u8 (zidx caller_buffer 1) in
  let block_next := CBMIMAGE_BLOCK_INIT t s 0 in
  if t =? 0 then (-1, None, None)
  else
    let '(r, block_next) := cbmimage_blockaddress_init_from_ts image block_next in
    if truthy r then (s, None, None)
    else
      let '(ret, copied) := cbmimage_read_block image block_next true buffersize in
      (ret, Some block_next, copied).

(** ** lib/blockaccessor.c: the accessors by T/S and by LBA *)

(** [cbmimage_blockaccessor_create_from_lba] *)
Definition cbmimage_blockaccessor_create_from_lba
    (image : cbmimage_fileimage) (l : Z) : cbmimage_blockaccessor :=
  cbmimage_blockaccessor_create image
    (CBMIMAGE_BLOCK_SET_FROM_LBA image cbmimage_block_unused l).

(** [cbmimage_blockaccessor_set_to_ts] *)
Definition cbmimage_blockaccessor_set_to_ts
    (image : cbmimage_fileimage) (a : cbmimage_blockaccessor) (t s : Z)
    : Z * cbmimage_blockaccessor :=
  cbmimage_blockaccessor_set_to image a
    (CBMIMAGE_BLOCK_SET_FROM_TS image cbmimage_block_unused t s).

(** [cbmimage_blockaccessor_set_to_lba] *)
Definition cbmimage_blockaccessor_set_to_lba
    (image : cbmimage_fileimage) (a : cbmimage_blockaccessor) (l : Z)
    : Z * cbmimage_blockaccessor :=
  cbmimage_blockaccessor_set_to image a
    (CBMIMAGE_BLOCK_SET_FROM_LBA image cbmimage_block_unused l).

(** ** Sequences of calls, for the statements about detector and FAT *)

(** [cbmimage_loop_mark] on each block of a list, in order. *)
Definition loop_mark_all
    (image : cbmimage_fileimage) (blocks : list cbmimage_blockaddress)
    (loop : cbmimage_loop) : cbmimage_loop :=
  fold_left (fun l b => snd (fst (cbmimage_loop_mark image l b))) blocks loop.

(** A D64 image with a two-block chain: block 17/0 links to block 17/1, whose
    link (0, 255) ends the chain. *)
Definition d64_two_block_file : cbmimage_fileimage :=
  cbmimage_image_open
    (poke [(86016, 17); (86016 + 1, 1); (86272 + 1, 255)] zero_buffer) 174848 TYPE_D64.

(** A D64 image with a directory of two files.  The directory block 18/1
    (at offset 91648 of the buffer) ends the directory with the link
    (0, 255).  Its first slot holds a closed PRG file (type byte 0x82) of one
    block with the name A that starts in block 17/0, its second slot (at
    offset 32 of the block) one with the name B that starts in block 17/1;
    the other six slots are empty. *)
Definition d64_two_files : cbmimage_fileimage :=
  cbmimage_image_open
    (poke [(91648 + 1, 255);
           (91648 + 2, 130); (91648 + 3, 17); (91648 + 4, 0);
           (91648 + 5, 65); (91648 + 6, 160); (91648 + 30, 1);
           (91648 + 32 + 2, 130); (91648 + 32 + 3, 17); (91648 + 32 + 4, 1);
           (91648 + 32 + 5, 66); (91648 + 32 + 6, 160); (91648 + 32 + 30, 1)]
          zero_buffer)
    174848 TYPE_D64.

(** ** The state of a directory enumeration

    What [cbmimage_i_dir_get] keeps between successful calls: the map of the
    loop detector has its recorded size, the accessor points at a block
    (with an LBA that is not negative), and the offset of the next slot is
    one of 0, 32, ..., 256. *)
Definition dir_state (dei : cbmimage_i_dir_entry_internal) : Prop :=
  loop_sized (dei_loop_detector dei)
  /\ 0 <= lba (acc_block (dir_block_accessor dei))
  /\ acc_data (dir_block_accessor dei) <> None
  /\ exists k, 0 <= k <= 8 /\ dir_block_offset dei = 32 * k.

(** * Properties *)

Section MachineIntegers.

Lemma u8_small x : 0 <= x < 256 -> u8 x = x.
Proof. intros H. unfold u8. apply Z.mod_small. exact H. Qed.

Lemma u16_small x : 0 <= x < 65536 -> u16 x = x.
Proof. intros H. unfold u16. apply Z.mod_small. exact H. Qed.

Lemma u8_range x : 0 <= u8 x < 256.
Proof. unfold u8. apply Z.mod_pos_bound. lia. Qed.

Lemma u16_range x : 0 <= u16 x < 65536.
Proof. unfold u16. apply Z.mod_pos_bound. lia. Qed.

Lemma truthy_Z_of_bool b : truthy (Z_of_bool b) = b.
Proof. destruct b; reflexivity. Qed.

End MachineIntegers.

Create Rewrite HintDb zbool.
#[local] Hint Rewrite Z.eqb_eq Z.eqb_neq Z.ltb_lt Z.ltb_ge Z.leb_le Z.leb_gt
andb_true_iff andb_false_iff orb_true_iff orb_false_iff negb_true_iff negb_false_iff
: zbool.

(** Turn boolean comparisons in the context and goal into propositions. *)
Ltac zbool := autorewrite with zbool in *.

(** ** Block addresses (lib/blockaddress.c) *)

Section BlockAddress.

Lemma lba_CBMIMAGE_TS_SET b t s : lba (CBMIMAGE_TS_SET b t s) = lba b.
Proof. reflexivity. Qed.

Lemma lba_init_from_lba image b :
  lba (snd (cbmimage_blockaddress_init_from_lba image b)) = lba b.
Proof.
  unfold cbmimage_blockaddress_init_from_lba.
  destruct (lba_to_blockaddress (fct (settings image))) as [[]|].
  - unfold d40_d64_d71_lba_to_blockaddress.
    destruct (_ <? _); reflexivity.
  - unfold cbmimage_i_generic_lba_to_blockaddress.
    destruct (lba b =? 0); [reflexivity|].
    destruct (_ || _); reflexivity.
Qed.

Lemma lba_CBMIMAGE_BLOCK_SET_FROM_LBA image b l :
  lba (CBMIMAGE_BLOCK_SET_FROM_LBA image b l) = u16 l.
Proof. unfold CBMIMAGE_BLOCK_SET_FROM_LBA. rewrite lba_init_from_lba. reflexivity. Qed.

End BlockAddress.

(** C10. [cbmimage_blockaddress_add] has no error return: the value it
  returns is 0.  Its result is the result operand unchanged when the
  adder's LBA is 0, the adder itself when the result operand's LBA is 0,
  and otherwise the block address that [CBMIMAGE_BLOCK_SET_FROM_LBA] builds
  for [result.lba + adder.lba - 1].  The LBA member is a [uint16_t]: what
  is stored is the sum modulo 65536, which is the sum itself exactly when
  the sum is at most 65535.
  (The third case runs through [cbmimage_blockaddress_init_from_lba], whose
  [assert(cbmimage_blockaddress_lba_exists(image, block->lba))] stops a
  build with assertions when the stored LBA is not one of the image; the
  function then does not return at all.) *)
Theorem cbmimage_blockaddress_add_result
  (image : cbmimage_fileimage) (blockresult block_adder : cbmimage_blockaddress) :
let out := cbmimage_blockaddress_add image blockresult block_adder in
fst out = 0
/\ (lba block_adder = 0 -> snd out = blockresult)
/\ (lba block_adder <> 0 -> lba blockresult = 0 -> snd out = block_adder)
/\ (lba block_adder <> 0 -> lba blockresult <> 0 ->
      snd out = CBMIMAGE_BLOCK_SET_FROM_LBA image cbmimage_block_unused
                  (lba blockresult + lba block_adder - 1)
      /\ lba (snd out) = (lba blockresult + lba block_adder - 1) mod 65536
      /\ (0 <= lba blockresult + lba block_adder - 1 < 65536 ->
            lba (snd out) = lba blockresult + lba block_adder - 1)).
Proof.
unfold cbmimage_blockaddress_add. cbn zeta.
destruct (lba block_adder =? 0) eqn:Ha; zbool.
- repeat split; try tauto.
- destruct (lba blockresult =? 0) eqn:Hr; zbool.
  + repeat split; try tauto.
  + cbn [fst snd]. split; [reflexivity|]. split; [tauto|]. split; [tauto|].
    intros _ _. split; [reflexivity|].
    rewrite lba_CBMIMAGE_BLOCK_SET_FROM_LBA. split; [reflexivity|].
    intros Hsmall. apply u16_small. exact Hsmall.
Qed.

(** The rebase of block 3/0 of a 1581 image by block 2/0 is block 4/0. *)
Lemma cbmimage_blockaddress_add_result_witness :
let r := CBMIMAGE_BLOCK_INIT 3 0 81 in
let a := CBMIMAGE_BLOCK_INIT 2 0 41 in
fst (cbmimage_blockaddress_add d81_blank r a) = 0
/\ snd (cbmimage_blockaddress_add d81_blank r a) = CBMIMAGE_BLOCK_INIT 4 0 121.
Proof.
pose proof (cbmimage_blockaddress_add_result d81_blank
              (CBMIMAGE_BLOCK_INIT 3 0 81) (CBMIMAGE_BLOCK_INIT 2 0 41)) as H.
cbn zeta in H. destruct H as (H0 & _ & _ & H3).
split; [exact H0|].
destruct H3 as (H3 & _); [cbn; lia | cbn; lia |].
rewrite H3. vm_compute. reflexivity.
Defined.

(** C10, the equation [lba = result.lba + adder.lba - 1] of the third case
  does not hold beyond 16 bits.  On the 1581 image the operands with LBA
  65535 and 3 give the address of block 1/0, LBA 1, where the sum is 65537;
  the operands with LBA 40000 and 30000 give LBA 4463, where the sum is
  69999. *)
Lemma cbmimage_blockaddress_add_wraps :
let r := CBMIMAGE_BLOCK_INIT 0 0 65535 in
let a := CBMIMAGE_BLOCK_INIT 1 2 3 in
let r' := CBMIMAGE_BLOCK_INIT 0 0 40000 in
let a' := CBMIMAGE_BLOCK_INIT 0 0 30000 in
cbmimage_blockaddress_add d81_blank r a = (0, CBMIMAGE_BLOCK_INIT 1 0 1)
/\ lba (snd (cbmimage_blockaddress_add d81_blank r a)) <> lba r + lba a - 1
/\ lba (snd (cbmimage_blockaddress_add d81_blank r' a')) = 4463
/\ lba (snd (cbmimage_blockaddress_add d81_blank r' a')) <> lba r' + lba a' - 1.
Proof.
cbn zeta.
split; [vm_compute; reflexivity|]. split; [vm_compute; discriminate|].
split; [vm_compute; reflexivity|]. vm_compute; discriminate.
Qed.

(** ** Address round trip *)

Section UniformFrame.

Variable image : cbmimage_fileimage.
Hypothesis Hgeo : uniform_geometry (settings image) = true.

Lemma uniform_pointers :
  get_sectors_in_track (fct (settings image)) = None
  /\ ts_to_blockaddress (fct (settings image)) = None
  /\ lba_to_blockaddress (fct (settings image)) = None.
Proof.
  unfold uniform_geometry in Hgeo.
  destruct (get_sectors_in_track (fct (settings image))); [discriminate|].
  destruct (ts_to_blockaddress (fct (settings image))); [discriminate|].
  destruct (lba_to_blockaddress (fct (settings image))); [discriminate|].
  auto.
Qed.

Lemma uniform_bounds :
  1 <= maxtracks (settings image) <= 255
  /\ 1 <= maxsectors (settings image) <= 256
  /\ maxtracks (settings image) * maxsectors (settings image) <= 65535.
Proof.
  unfold uniform_geometry in Hgeo.
  destruct (get_sectors_in_track (fct (settings image))); [discriminate|].
  destruct (ts_to_blockaddress (fct (settings image))); [discriminate|].
  destruct (lba_to_blockaddress (fct (settings image))); [discriminate|].
  zbool. lia.
Qed.

Lemma uniform_sectors_in_track t :
  cbmimage_get_sectors_in_track image t = maxsectors (settings image).
Proof.
  unfold cbmimage_get_sectors_in_track.
  destruct uniform_pointers as (-> & _). reflexivity.
Qed.

Lemma uniform_ts_exists t s :
  cbmimage_blockaddress_ts_exists image t s = true ->
  0 < t <= maxtracks (settings image) /\ s < maxsectors (settings image).
Proof.
  unfold cbmimage_blockaddress_ts_exists, cbmimage_get_max_track, cbmimage_get_max_sectors.
  intros H. zbool. lia.
Qed.

Lemma uniform_from_ts b t s :
  0 <= s ->
  cbmimage_blockaddress_ts_exists image t s = true ->
  cbmimage_blockaddress_init_from_ts_value image b t s
  = (0, CBMIMAGE_BLOCK_INIT t s ((t - 1) * maxsectors (settings image) + s + 1)).
Proof.
  intros Hs Hex.
  pose proof (uniform_ts_exists _ _ Hex) as (Ht & Hs').
  destruct uniform_bounds as (Hmt & Hms & Hprod).
  unfold cbmimage_blockaddress_init_from_ts_value, cbmimage_blockaddress_init_from_ts.
  destruct uniform_pointers as (_ & -> & _).
  unfold cbmimage_i_generic_ts_to_blockaddress, CBMIMAGE_TS_SET. cbn [ts track sector lba].
  rewrite !u8_small by lia. rewrite Hex. cbn [negb].
  unfold set_lba, CBMIMAGE_BLOCK_INIT. cbn [ts lba].
  set (ms := maxsectors (settings image)) in *.
  assert (Hnn : 0 <= (t - 1) * ms) by (apply Z.mul_nonneg_nonneg; lia).
  assert (Hle : (t - 1) * ms <= (maxtracks (settings image) - 1) * ms)
    by (apply Z.mul_le_mono_nonneg_r; lia).
  rewrite u16_small by lia. reflexivity.
Qed.

Lemma uniform_from_lba b t s :
  0 <= s ->
  cbmimage_blockaddress_ts_exists image t s = true ->
  cbmimage_blockaddress_init_from_lba_value image b
    ((t - 1) * maxsectors (settings image) + s + 1)
  = (0, CBMIMAGE_BLOCK_INIT t s ((t - 1) * maxsectors (settings image) + s + 1)).
Proof.
  intros Hs Hex.
  pose proof (uniform_ts_exists _ _ Hex) as (Ht & Hs').
  destruct uniform_bounds as (Hmt & Hms & Hprod).
  unfold cbmimage_blockaddress_init_from_lba_value, cbmimage_blockaddress_init_from_lba.
  destruct uniform_pointers as (_ & _ & ->).
  unfold cbmimage_i_generic_lba_to_blockaddress, set_lba. cbn [ts lba].
  set (ms := maxsectors (settings image)) in *.
  assert (Hnn : 0 <= (t - 1) * ms) by (apply Z.mul_nonneg_nonneg; lia).
  assert (Hle : (t - 1) * ms <= (maxtracks (settings image) - 1) * ms)
    by (apply Z.mul_le_mono_nonneg_r; lia).
  assert (Hl : 0 <= (t - 1) * ms + s + 1 < 65536) by lia.
  rewrite (u16_small _ Hl).
  destruct (_ =? 0) eqn:E; zbool; [lia|].
  replace ((t - 1) * ms + s + 1 - 1) with (s + (t - 1) * ms) by lia.
  rewrite Z.quot_div_nonneg by lia.
  rewrite Z.div_add by lia. rewrite (Z.div_small s ms) by lia.
  replace (0 + (t - 1) + 1) with t by lia.
  rewrite (u16_small t) by lia.
  replace (s + (t - 1) * ms - (t - 1) * ms) with s by lia.
  rewrite (u16_small s) by lia.
  destruct (_ || _) eqn:E2; zbool; [lia|].
  unfold CBMIMAGE_TS_SET, CBMIMAGE_BLOCK_INIT. cbn [lba].
  rewrite !u8_small by lia. reflexivity.
Qed.

End UniformFrame.

Section TableFrame.

Variable image : cbmimage_fileimage.
Hypothesis Hgeo : table_geometry (settings image) = true.

Let start (t : Z) : Z := zidx (track_lba_start (settings image)) t.
Let sit (t : Z) : Z := zidx (sectors_in_track (settings image)) t.
Let mt : Z := maxtracks (settings image).

Lemma table_pointers :
  get_sectors_in_track (fct (settings image))
    = Some cbmimage_i_d40_d64_d71_get_sectors_in_track
  /\ ts_to_blockaddress (fct (settings image))
    = Some cbmimage_i_d40_d64_d71_ts_to_blockaddress
  /\ lba_to_blockaddress (fct (settings image))
    = Some cbmimage_i_d40_d64_d71_lba_to_blockaddress.
Proof.
  unfold table_geometry in Hgeo.
  destruct (get_sectors_in_track (fct (settings image))) as [[]|]; [|discriminate].
  destruct (ts_to_blockaddress (fct (settings image))) as [[]|]; [|discriminate].
  destruct (lba_to_blockaddress (fct (settings image))) as [[]|]; [|discriminate].
  auto.
Qed.

Lemma table_bounds :
  1 <= mt <= 70 /\ start 0 = 0 /\ sit 0 = 0 /\ start 1 = 1
  /\ maxsectors (settings image) <= 255
  /\ forall t, 1 <= t <= mt ->
       1 <= sit t <= maxsectors (settings image)
       /\ start t + sit t <= 65535
       /\ (t = mt \/ start (t + 1) = start t + sit t).
Proof.
  unfold table_geometry in Hgeo.
  destruct (get_sectors_in_track (fct (settings image))); [|discriminate].
  destruct (ts_to_blockaddress (fct (settings image))); [|discriminate].
  destruct (lba_to_blockaddress (fct (settings image))); [|discriminate].
  rewrite !andb_true_iff in Hgeo.
  destruct Hgeo as ((((((H1 & H2) & H3) & H4) & H5) & Hall) & H6).
  rewrite forallb_forall in Hall.
  subst start sit mt. zbool.
  repeat split; try lia.
  all: specialize (Hall (Z.to_nat t));
       rewrite Z2Nat.id in Hall by lia;
       assert (Hin : In (Z.to_nat t) (seq 1 (Z.to_nat (maxtracks (settings image)))))
         by (apply in_seq; lia);
       specialize (Hall Hin); zbool; lia.
Qed.

Lemma table_start_step t :
  1 <= t < mt -> start (t + 1) = start t + sit t.
Proof.
  intros Ht. destruct table_bounds as (_ & _ & _ & _ & _ & Hall).
  destruct (Hall t) as (_ & _ & [E|E]); lia.
Qed.

Lemma table_start_mono_nat (n : nat) k :
  1 <= k -> k + Z.of_nat n <= mt -> start k <= start (k + Z.of_nat n).
Proof.
  induction n as [|n IH]; intros Hk Hle.
  - replace (k + Z.of_nat 0) with k by lia. lia.
  - replace (k + Z.of_nat (S n)) with (k + Z.of_nat n + 1) by lia.
    rewrite table_start_step by lia.
    destruct table_bounds as (_ & _ & _ & _ & _ & Hall).
    destruct (Hall (k + Z.of_nat n)) as (Hsit & _); [lia|].
    specialize (IH Hk). lia.
Qed.

Lemma table_start_mono k t : 1 <= k <= t -> t <= mt -> start k <= start t.
Proof.
  intros Hk Ht.
  replace t with (k + Z.of_nat (Z.to_nat (t - k))) by lia.
  apply table_start_mono_nat; lia.
Qed.

Lemma table_start_pos t : 1 <= t <= mt -> 1 <= start t.
Proof.
  intros Ht. destruct table_bounds as (_ & _ & _ & H1 & _).
  pose proof (table_start_mono 1 t ltac:(lia) ltac:(lia)). lia.
Qed.

(** The scan stops right behind the track that holds [l]. *)
Lemma lba_scan_finds l t (fuel : nat) :
  forall t0,
    1 <= t0 <= t + 1 -> t <= mt ->
    start t <= l ->
    (t = mt \/ l < start (t + 1)) ->
    (Z.to_nat (mt - t0 + 1) <= fuel)%nat ->
    lba_scan (track_lba_start (settings image)) mt l fuel t0 = t + 1.
Proof.
  induction fuel as [|fuel IH]; intros t0 Ht0 Ht Hl Hnext Hfuel.
  - cbn. lia.
  - cbn [lba_scan].
    destruct (t0 <=? mt) eqn:E; zbool; [|lia].
    destruct (l <? _) eqn:E2; zbool.
    + fold (start t0) in E2.
      destruct (Z.eq_dec t0 (t + 1)) as [->|Hne]; [reflexivity|].
      pose proof (table_start_mono t0 t ltac:(lia) ltac:(lia)). lia.
    + fold (start t0) in E2.
      destruct table_bounds as (Hmt & _).
      rewrite u16_small by lia.
      destruct (Z.eq_dec t0 (t + 1)) as [->|Hne]; [lia|].
      apply IH; lia.
Qed.

Lemma table_sectors_in_track t :
  cbmimage_get_sectors_in_track image t = if t <=? mt then sit t else 0.
Proof.
  unfold cbmimage_get_sectors_in_track.
  destruct table_pointers as (-> & _). reflexivity.
Qed.

Lemma table_ts_exists t s :
  cbmimage_blockaddress_ts_exists image t s = true ->
  1 <= t <= mt /\ s < sit t.
Proof.
  unfold cbmimage_blockaddress_ts_exists. rewrite table_sectors_in_track.
  unfold cbmimage_get_max_track, cbmimage_get_max_sectors. fold mt.
  intros H. zbool. destruct H as (((H1 & H2) & H3) & H4).
  destruct (t <=? mt) eqn:E; zbool; lia.
Qed.

Lemma table_from_ts b t s :
  0 <= s ->
  cbmimage_blockaddress_ts_exists image t s = true ->
  cbmimage_blockaddress_init_from_ts_value image b t s
  = (0, CBMIMAGE_BLOCK_INIT t s (start t + s)).
Proof.
  intros Hs Hex.
  pose proof (table_ts_exists _ _ Hex) as (Ht & Hs').
  destruct table_bounds as (Hmt & _ & _ & _ & Hms & Hall).
  destruct (Hall t Ht) as (Hsit & Hsum & _).
  pose proof (table_start_pos t Ht) as Hpos.
  unfold cbmimage_blockaddress_init_from_ts_value, cbmimage_blockaddress_init_from_ts.
  destruct table_pointers as (_ & -> & _).
  unfold d40_d64_d71_ts_to_blockaddress, CBMIMAGE_TS_SET. cbn [ts track sector lba].
  rewrite !u8_small by lia. fold mt.
  destruct (_ || _) eqn:E; zbool; [lia|].
  unfold set_lba, CBMIMAGE_BLOCK_INIT. cbn [ts lba]. fold (start t).
  rewrite u16_small by lia. reflexivity.
Qed.

Lemma table_from_lba b t s :
  0 <= s ->
  cbmimage_blockaddress_ts_exists image t s = true ->
  cbmimage_blockaddress_init_from_lba_value image b (start t + s)
  = (0, CBMIMAGE_BLOCK_INIT t s (start t + s)).
Proof.
  intros Hs Hex.
  pose proof (table_ts_exists _ _ Hex) as (Ht & Hs').
  destruct table_bounds as (Hmt & _ & _ & _ & Hms & Hall).
  destruct (Hall t Ht) as (Hsit & Hsum & Hstep).
  pose proof (table_start_pos t Ht) as Hpos.
  unfold cbmimage_blockaddress_init_from_lba_value, cbmimage_blockaddress_init_from_lba.
  destruct table_pointers as (_ & _ & ->).
  unfold d40_d64_d71_lba_to_blockaddress, set_lba. cbn [ts lba]. fold mt.
  rewrite (u16_small (start t + s)) by lia.
  rewrite (lba_scan_finds (start t + s) t); try lia.
  replace (t + 1 - 1) with t by lia.
  rewrite (u16_small t) by lia. fold (start t) (sit t).
  replace (start t + s - start t) with s by lia.
  rewrite (u16_small s) by lia.
  destruct (sit t <? s) eqn:E; zbool; [lia|].
  unfold CBMIMAGE_TS_SET, CBMIMAGE_BLOCK_INIT. cbn [lba].
  rewrite !u8_small by lia. reflexivity.
Qed.

End TableFrame.

(** C7. On every frame with a well-formed geometry - uniform (generic
    conversion) or with a per-track start table (D40/D64/D71) - and for every
    track/sector pair that exists on the frame, the T/S-to-LBA conversion
    succeeds, keeps the pair, and converting the LBA it computed back
    succeeds and yields the very same block address: the two maps are
    inverse to each other on valid blocks. *)
Theorem address_round_trip (image : cbmimage_fileimage) (t s : Z) :
  geometry_ok (settings image) = true ->
  0 <= s ->
  cbmimage_blockaddress_ts_exists image t s = true ->
  let b := snd (cbmimage_blockaddress_init_from_ts_value image cbmimage_block_unused t s) in
  fst (cbmimage_blockaddress_init_from_ts_value image cbmimage_block_unused t s) = 0
  /\ ts b = {| track := t; sector := s |}
  /\ cbmimage_blockaddress_init_from_lba_value image cbmimage_block_unused (lba b) = (0, b).
Proof.
  intros Hgeo Hs Hex. unfold geometry_ok in Hgeo.
  apply orb_true_iff in Hgeo. destruct Hgeo as [Hu|Ht].
  - cbn zeta. rewrite (uniform_from_ts image Hu _ t s Hs Hex). cbn [fst snd].
    repeat split. cbn [lba CBMIMAGE_BLOCK_INIT].
    apply (uniform_from_lba image Hu _ t s Hs Hex).
  - cbn zeta. rewrite (table_from_ts image Ht _ t s Hs Hex). cbn [fst snd].
    repeat split. cbn [lba CBMIMAGE_BLOCK_INIT].
    apply (table_from_lba image Ht _ t s Hs Hex).
Qed.

(** Every image that [cbmimage_image_open] initialises has a well-formed
    geometry, whatever the buffer holds. *)
Lemma image_open_geometry_ok (buf : Z -> Z) (sz : Z) (ty : cbmimage_imagetype) :
  ty <> TYPE_UNKNOWN ->
  opens_with_geometry ty = true ->
  geometry_ok (settings (cbmimage_image_open buf sz ty)) = true.
Proof.
  intros Hne Hty. destruct ty; try discriminate; try congruence; reflexivity.
Qed.

(** Block 18/1 of a D64 image (the first directory block) and block 40/3 of
    a D81 image. *)
Lemma address_round_trip_witness :
  cbmimage_blockaddress_init_from_lba_value d64_blank cbmimage_block_unused 359
  = (0, CBMIMAGE_BLOCK_INIT 18 1 359)
  /\ cbmimage_blockaddress_init_from_lba_value d81_blank cbmimage_block_unused 1564
  = (0, CBMIMAGE_BLOCK_INIT 40 3 1564).
Proof.
  split.
  - exact (proj2 (proj2 (address_round_trip d64_blank 18 1
             (image_open_geometry_ok zero_buffer 174848 TYPE_D64
                ltac:(discriminate) eq_refl)
             ltac:(lia) eq_refl))).
  - exact (proj2 (proj2 (address_round_trip d81_blank 40 3
             (image_open_geometry_ok zero_buffer 819200 TYPE_D81
                ltac:(discriminate) eq_refl)
             ltac:(lia) eq_refl))).
Defined.

(** ** Which LBAs convert *)

Section UniformStatus.

Variable image : cbmimage_fileimage.
Hypothesis Hgeo : uniform_geometry (settings image) = true.

(** On a uniform frame the conversion fails exactly for 0 and for the LBAs
    behind the last block. *)
Lemma uniform_from_lba_status b l :
  0 <= l < 65536 ->
  (fst (cbmimage_blockaddress_init_from_lba_value image b l) <> 0
   <-> l = 0 \/ maxtracks (settings image) * maxsectors (settings image) < l).
Proof.
  intros Hl.
  destruct (uniform_bounds image Hgeo) as (Hmt & Hms & Hprod).
  unfold cbmimage_blockaddress_init_from_lba_value, cbmimage_blockaddress_init_from_lba.
  destruct (uniform_pointers image Hgeo) as (_ & _ & ->).
  unfold cbmimage_i_generic_lba_to_blockaddress, set_lba. cbn [ts lba].
  rewrite (u16_small l) by lia.
  set (ms := maxsectors (settings image)) in *.
  set (mt := maxtracks (settings image)) in *.
  destruct (l =? 0) eqn:E0; zbool; [cbn; split; [auto|discriminate] |].
  rewrite Z.quot_div_nonneg by lia.
  pose proof (Z.div_mod (l - 1) ms ltac:(lia)) as Hdm.
  pose proof (Z.mod_pos_bound (l - 1) ms ltac:(lia)) as Hmod.
  pose proof (Z.div_pos (l - 1) ms ltac:(lia) ltac:(lia)) as Hq0.
  assert (Hq : (l - 1) / ms <= l - 1) by (apply Z.div_le_upper_bound; nia).
  rewrite (u16_small ((l - 1) / ms + 1)) by lia.
  replace ((l - 1) / ms + 1 - 1) with ((l - 1) / ms) by lia.
  replace (l - 1 - (l - 1) / ms * ms) with ((l - 1) mod ms) by lia.
  rewrite (u16_small ((l - 1) mod ms)) by lia.
  destruct (_ || _) eqn:E; zbool; cbn [fst].
  - split; [intros _|discriminate]. right.
    destruct E as [E|E]; [|lia]. nia.
  - split; [congruence|]. intros [H|H]; [lia|]. exfalso.
    destruct E as (E1 & E2). nia.
Qed.

End UniformStatus.

Section TableStatus.

Variable image : cbmimage_fileimage.
Hypothesis Hgeo : table_geometry (settings image) = true.

Let start (t : Z) : Z := zidx (track_lba_start (settings image)) t.
Let sit (t : Z) : Z := zidx (sectors_in_track (settings image)) t.
Let mt : Z := maxtracks (settings image).

(** The facts of the table frame, in the local abbreviations. *)
Lemma table_status_bounds :
  1 <= mt <= 70 /\ start 0 = 0 /\ sit 0 = 0 /\ start 1 = 1
  /\ forall t, 1 <= t <= mt ->
       1 <= sit t /\ sit t <= 255 /\ start t + sit t <= 65535
       /\ 1 <= start t
       /\ (t < mt -> start (t + 1) = start t + sit t).
Proof.
  destruct (table_bounds image Hgeo) as (Hmt & H0 & Hs0 & H1 & Hms & Hall).
  unfold start, sit, mt.
  split; [exact Hmt|]. split; [exact H0|]. split; [exact Hs0|]. split; [exact H1|].
  intros t Ht. destruct (Hall t Ht) as (Hsit & Hsum & Hstep).
  pose proof (table_start_pos image Hgeo t Ht) as Hpos.
  repeat split; lia.
Qed.

(** Every LBA from the first block of track 1 up to the end of track [n + 1]
    lies on one of the tracks [1 .. n + 1]. *)
Lemma table_track_of_lba_nat l (n : nat) :
  Z.of_nat n + 1 <= mt ->
  1 <= l < start (Z.of_nat n + 1) + sit (Z.of_nat n + 1) ->
  exists t, 1 <= t <= Z.of_nat n + 1 /\ start t <= l < start t + sit t.
Proof.
  destruct table_status_bounds as (Hmt & _ & _ & H1 & Hall).
  induction n as [|n IH]; intros Hn Hl.
  - exists 1. change (Z.of_nat 0 + 1) with 1 in Hl. lia.
  - destruct (Z_lt_le_dec l (start (Z.of_nat (S n) + 1))) as [Hlt|Hge].
    + destruct IH as (t & Ht & Hin); [lia| |exists t; lia].
      replace (Z.of_nat (S n) + 1) with (Z.of_nat n + 1 + 1) in Hlt by lia.
      destruct (Hall (Z.of_nat n + 1) ltac:(lia)) as (_ & _ & _ & _ & Hs).
      specialize (Hs ltac:(lia)). lia.
    + exists (Z.of_nat (S n) + 1). lia.
Qed.

Lemma table_track_of_lba l :
  1 <= l < start mt + sit mt ->
  exists t, 1 <= t <= mt /\ start t <= l < start t + sit t.
Proof.
  intros Hl. destruct table_status_bounds as (Hmt & _).
  destruct (table_track_of_lba_nat l (Z.to_nat (mt - 1))) as (t & Ht & Hin).
  - lia.
  - replace (Z.of_nat (Z.to_nat (mt - 1)) + 1) with mt by lia. exact Hl.
  - exists t. lia.
Qed.

Lemma table_scan l t :
  1 <= t <= mt -> start t <= l -> (t = mt \/ l < start (t + 1)) ->
  lba_scan (track_lba_start (settings image)) mt l (Z.to_nat mt) 1 = t + 1.
Proof.
  intros Ht Hl Hn. apply (lba_scan_finds image Hgeo l t); try assumption; lia.
Qed.

(** On a frame with a start table the conversion reports success for 0, for
    every LBA of the image, and for the LBA right behind the last block; it
    fails from the second LBA behind the last block on. *)
Lemma table_from_lba_status b l :
  0 <= l < 65536 ->
  (fst (cbmimage_blockaddress_init_from_lba_value image b l) <> 0
   <-> start mt + sit mt < l).
Proof.
  intros Hl.
  destruct table_status_bounds as (Hmt & H0 & Hs0 & H1 & Hall).
  unfold cbmimage_blockaddress_init_from_lba_value, cbmimage_blockaddress_init_from_lba.
  destruct (table_pointers image Hgeo) as (_ & _ & ->).
  unfold d40_d64_d71_lba_to_blockaddress, set_lba. cbn [ts lba].
  change (maxtracks (settings image)) with mt.
  rewrite (u16_small l) by lia.
  destruct (Hall mt ltac:(lia)) as (Hsitm & Hsitm' & Hsumm & Hposm & _).
  destruct (Z.eq_dec l 0) as [->|Hl0].
  - (* the scan stops at track 1 at once *)
    assert (Hscan : lba_scan (track_lba_start (settings image)) mt 0 (Z.to_nat mt) 1 = 1).
    { destruct (Z.to_nat mt) eqn:E; [lia|]. cbn [lba_scan].
      destruct (1 <=? mt) eqn:E1; zbool; [|lia].
      change (zidx (track_lba_start (settings image)) 1) with (start 1).
      rewrite H1. reflexivity. }
    rewrite Hscan. change (1 - 1) with 0. rewrite (u16_small 0) by lia.
    change (zidx (track_lba_start (settings image)) 0) with (start 0).
    change (zidx (sectors_in_track (settings image)) 0) with (sit 0).
    rewrite H0, Hs0. change (0 <? u16 (0 - 0)) with false. cbn [fst].
    split; [congruence|lia].
  - destruct (Z_lt_le_dec l (start mt + sit mt)) as [Hin|Hout].
    + destruct (table_track_of_lba l ltac:(lia)) as (t & Ht & Hlt).
      destruct (Hall t Ht) as (Hsit & Hsit' & Hsum & Hpos & Hstep).
      rewrite (table_scan l t) by lia.
      replace (t + 1 - 1) with t by lia.
      rewrite (u16_small t) by lia.
      change (zidx (track_lba_start (settings image)) t) with (start t).
      change (zidx (sectors_in_track (settings image)) t) with (sit t).
      rewrite (u16_small (l - start t)) by lia.
      destruct (sit t <? l - start t) eqn:E; zbool; cbn [fst]; [lia|].
      split; [congruence|lia].
    + rewrite (table_scan l mt) by lia.
      replace (mt + 1 - 1) with mt by lia.
      rewrite (u16_small mt) by lia.
      change (zidx (track_lba_start (settings image)) mt) with (start mt).
      change (zidx (sectors_in_track (settings image)) mt) with (sit mt).
      rewrite (u16_small (l - start mt)) by lia.
      destruct (sit mt <? l - start mt) eqn:E; zbool; cbn [fst].
      * split; [lia|congruence].
      * split; [congruence|lia].
Qed.

End TableStatus.

(** C4 (defect of the code).  On a D64 image, whose last block is LBA 683,
    initialising a block address from LBA 684 = max_lba + 1 reports success
    and delivers track 35, sector 17, a sector that does not exist; LBA 0 is
    reported as a success as well.  The start-table conversion compares the
    sector with [>] where [>=] is needed, and has no test for 0. *)
Theorem init_from_lba_value_d64_behind_last_block (buf : Z -> Z) :
  let image := cbmimage_image_open buf 174848 TYPE_D64 in
  cbmimage_get_max_lba image = 683
  /\ cbmimage_blockaddress_lba_exists image 684 = false
  /\ cbmimage_blockaddress_init_from_lba_value image cbmimage_block_unused 684
     = (0, CBMIMAGE_BLOCK_INIT 35 17 684)
  /\ cbmimage_blockaddress_ts_exists image 35 17 = false
  /\ cbmimage_blockaddress_init_from_lba_value image cbmimage_block_unused 0
     = (0, cbmimage_block_unused).
Proof. cbn zeta. repeat split; reflexivity. Qed.

(** ** Reconstructed FAT (lib/fat.c) *)

Section Fat.

Variable image : cbmimage_fileimage.

(** Whatever the table holds, [cbmimage_fat_get] hands back the unused
    block address. *)
Lemma cbmimage_fat_get_always_unused (f : cbmimage_fat) (b : cbmimage_blockaddress) :
  cbmimage_fat_get image f b = cbmimage_block_unused.
Proof.
  unfold cbmimage_fat_get.
  destruct (cbmimage_i_fat_get_target_lba f b =? CBMIMAGE_FAT_UNUSED); reflexivity.
Qed.

(** The store itself works: the entry of [b] holds the target LBA, or the
    terminal sentinel for an unused target. *)
Lemma cbmimage_fat_set_stores (f : cbmimage_fat) (b target : cbmimage_blockaddress) :
  (Z.to_nat (lba b) < length (fat_entry f))%nat ->
  0 <= lba target < 65536 ->
  cbmimage_i_fat_get_target_lba (snd (cbmimage_fat_set f b target)) b
  = if lba target =? 0 then CBMIMAGE_FAT_LASTBLOCK else lba target.
Proof.
  intros Hb Ht.
  unfold cbmimage_fat_set, cbmimage_i_fat_set, cbmimage_i_fat_get_target_lba, zidx.
  cbn [snd fat_entry].
  rewrite nth_lookup. rewrite list_lookup_insert_eq by exact Hb. cbn [default from_option].
  destruct (lba target =? 0) eqn:E; zbool.
  - reflexivity.
  - apply u16_small. lia.
Qed.

End Fat.

(** C3 (defect of the code).  After [cbmimage_fat_set] has stored the link
    1/0 -> 1/1 (LBA 2) and the terminal entry for 1/1 in the FAT of a D64
    image, the entries hold 2 and 0xFFFF and both blocks count as used, yet
    [cbmimage_fat_get] returns the unused block address (LBA 0) for both:
    neither the target nor the terminal sentinel is ever returned. *)
Theorem cbmimage_fat_get_after_set :
  let b := CBMIMAGE_BLOCK_INIT 1 0 1 in
  let target := CBMIMAGE_BLOCK_INIT 1 1 2 in
  let f1 := snd (cbmimage_fat_set (cbmimage_fat_create d64_blank) b target) in
  let f2 := snd (cbmimage_fat_set f1 target cbmimage_block_unused) in
  cbmimage_i_fat_get_target_lba f2 b = 2
  /\ cbmimage_i_fat_get_target_lba f2 target = 65535
  /\ cbmimage_fat_is_used f2 b = true
  /\ cbmimage_fat_is_used f2 target = true
  /\ cbmimage_fat_get d64_blank f2 b = cbmimage_block_unused
  /\ cbmimage_fat_get d64_blank f2 target = cbmimage_block_unused.
Proof. cbn zeta. repeat split; vm_compute; reflexivity. Qed.

(** ** Block access (lib/readwriteblock.c, lib/blockaccessor.c) *)

Section BlockAccess.

Variable image : cbmimage_fileimage.

Lemma rd_range p i : 0 <= rd image p i < 256.
Proof. unfold rd. destruct p; [apply u8_range | lia]. Qed.

Lemma image_ok_facts :
  image_ok image = true ->
  geometry_ok (settings image) = true
  /\ subdir_relative_addressing (settings image) = false
  /\ subdir_data_offset (settings image) = 0
  /\ bytes_in_block (settings image) = 256
  /\ 1 <= cbmimage_get_max_lba image < 65536
  /\ cbmimage_get_max_lba image * 256 <= size (parameter image) < 18446744073709551616.
Proof.
  unfold image_ok. intros H. rewrite !andb_true_iff in H.
  destruct H as ((((((((H1 & H2) & H3) & H4) & H5) & H5') & H6) & H7) & _).
  zbool. repeat split; try assumption; lia.
Qed.

(** On a well-formed image every existing LBA resolves to its block. *)
Lemma cbmimage_i_get_address_of_block_ok (b : cbmimage_blockaddress) :
  image_ok image = true ->
  1 <= lba b <= cbmimage_get_max_lba image ->
  cbmimage_i_get_address_of_block image b = Some ((lba b - 1) * 256).
Proof.
  intros Hok Hl.
  destruct (image_ok_facts Hok) as (_ & Hrel & Hoff & Hbib & Hmax & Hsz).
  unfold cbmimage_i_get_address_of_block, cbmimage_i_adjust_relative_address,
    cbmimage_get_bytes_in_block.
  rewrite Hrel, Hbib, Hoff. cbn [truthy Z.eqb negb].
  destruct (_ && _) eqn:E; zbool; [|lia].
  unfold size_t. rewrite !Z.mod_small by lia.
  destruct (_ <=? _) eqn:E2; zbool; [|lia].
  f_equal. lia.
Qed.

(** What the link header of the accessor's block decides. *)
Lemma get_next_block_terminal (a : cbmimage_blockaccessor) bn :
  rd image (acc_data a) 0 = 0 ->
  cbmimage_blockaccessor_get_next_block image a bn
  = ((if rd image (acc_data a) 1 =? 0 then 256 else rd image (acc_data a) 1), bn).
Proof.
  intros Ht. unfold cbmimage_blockaccessor_get_next_block. rewrite Ht. reflexivity.
Qed.

Lemma get_next_block_link (a : cbmimage_blockaccessor) bn :
  geometry_ok (settings image) = true ->
  cbmimage_blockaddress_ts_exists image (rd image (acc_data a) 0) (rd image (acc_data a) 1)
    = true ->
  fst (cbmimage_blockaccessor_get_next_block image a bn) = 0.
Proof.
  intros Hgeo Hex.
  pose proof (rd_range (acc_data a) 1) as Hs.
  unfold cbmimage_blockaccessor_get_next_block.
  set (t := rd image (acc_data a) 0) in *. set (s := rd image (acc_data a) 1) in *.
  pose proof Hex as Hex'.
  unfold cbmimage_blockaddress_ts_exists in Hex'. zbool.
  destruct Hex' as (((H1 & H2) & H3) & H4).
  destruct (t =? 0) eqn:E; zbool; [lia|].
  destruct (t <=? _) eqn:E1; zbool; [|lia].
  destruct (s <? _) eqn:E2; zbool; [|lia].
  destruct bn as [b|]; [|reflexivity].
  unfold geometry_ok in Hgeo. apply orb_true_iff in Hgeo. destruct Hgeo as [Hu|Htab].
  - rewrite (uniform_from_ts image Hu b t s ltac:(lia) Hex). reflexivity.
  - rewrite (table_from_ts image Htab b t s ltac:(lia) Hex). reflexivity.
Qed.

End BlockAccess.

(** C6. For a chain that stands on a block (the data pointer of its
    accessor is not NULL, so that the two link bytes read are bytes of the
    image): the block is the chain's terminator when the link-track byte is
    zero, and the follower's result for it - from
    [cbmimage_blockaccessor_get_next_block] as from
    [cbmimage_chain_last_result] - is the link-sector byte, with 256 for a
    link-sector of 0, and advancing marks the chain done with that same
    result.  When the link names an existing block the result is 0. *)
Theorem chain_result_of_current_block
    (image : cbmimage_fileimage) (chain : cbmimage_chain)
    (bn : option cbmimage_blockaddress) :
  geometry_ok (settings image) = true ->
  acc_data (block_accessor chain) <> None ->
  let a := block_accessor chain in
  let t := rd image (acc_data a) 0 in
  let s := rd image (acc_data a) 1 in
  (t = 0 ->
     fst (cbmimage_blockaccessor_get_next_block image a bn) = (if s =? 0 then 256 else s)
     /\ cbmimage_chain_last_result image chain = (if s =? 0 then 256 else s)
     /\ fst (fst (cbmimage_chain_advance image chain)) = (if s =? 0 then 256 else s)
     /\ is_done (snd (fst (cbmimage_chain_advance image chain))) = true)
  /\ (cbmimage_blockaddress_ts_exists image t s = true ->
        fst (cbmimage_blockaccessor_get_next_block image a bn) = 0
        /\ cbmimage_chain_last_result image chain = 0).
Proof.
  intros Hgeo _ a t s. split.
  - intros Ht. unfold cbmimage_chain_last_result, cbmimage_chain_advance.
    fold a. rewrite !(get_next_block_terminal image a _ Ht). fold s. cbn [fst snd].
    assert (Hnz : ((if s =? 0 then 256 else s) =? 0) = false).
    { pose proof (rd_range image (acc_data a) 1) as Hs. fold s in Hs.
      destruct (s =? 0) eqn:E; zbool; lia. }
    rewrite Hnz. cbn. auto.
  - intros Hex. unfold cbmimage_chain_last_result. fold a.
    split; apply get_next_block_link; assumption.
Qed.

(** The chain started on block 18/0 of [d64_short_info]: its accessor
    points at offset 91392 of the buffer, where the link (0, 10) stands. *)
Lemma chain_result_of_current_block_witness :
  let chain := fst (cbmimage_chain_start d64_short_info (CBMIMAGE_BLOCK_INIT 18 0 358)) in
  acc_data (block_accessor chain) = Some 91392
  /\ cbmimage_chain_last_result d64_short_info chain = 10
  /\ is_done (snd (fst (cbmimage_chain_advance d64_short_info chain))) = true.
Proof.
  cbn zeta.
  assert (Hdata : acc_data (block_accessor
                    (fst (cbmimage_chain_start d64_short_info
                            (CBMIMAGE_BLOCK_INIT 18 0 358)))) = Some 91392)
    by (vm_compute; reflexivity).
  pose proof (chain_result_of_current_block d64_short_info
                (fst (cbmimage_chain_start d64_short_info (CBMIMAGE_BLOCK_INIT 18 0 358)))
                None eq_refl ltac:(rewrite Hdata; discriminate)) as H.
  cbn zeta in H. destruct H as (H & _).
  destruct (H eq_refl) as (_ & H2 & _ & H4).
  split; [exact Hdata|]. split; [exact H2 | exact H4].
Defined.

(** C9. For a block that resolves on the image and whose link-track byte is
    zero, [cbmimage_read_block] returns the link-sector byte as it stands:
    0 for the link (0,0), where the chain follower reports 256 for the same
    block. *)
Theorem read_block_terminal_count
    (image : cbmimage_fileimage) (block : cbmimage_blockaddress) (p buffersize : Z) :
  cbmimage_i_get_address_of_block image block = Some p ->
  cbmimage_get_bytes_in_block image <= buffersize ->
  rd image (Some p) 0 = 0 ->
  fst (cbmimage_read_block image block true buffersize) = rd image (Some p) 1
  /\ (rd image (Some p) 1 = 0 ->
        fst (cbmimage_read_block image block true buffersize) = 0
        /\ forall a bn, acc_data a = Some p ->
             fst (cbmimage_blockaccessor_get_next_block image a bn) = 256).
Proof.
  intros Hp Hsz Ht.
  assert (Hrb : fst (cbmimage_read_block image block true buffersize) = rd image (Some p) 1).
  { unfold cbmimage_read_block. rewrite Hp.
    destruct (_ && _) eqn:E; zbool.
    - rewrite Ht. reflexivity.
    - destruct E as [E|E]; [discriminate | lia]. }
  split; [exact Hrb|].
  intros Hs. split; [rewrite Hrb; exact Hs|].
  intros a bn Ha.
  rewrite get_next_block_terminal by (rewrite Ha; exact Ht).
  rewrite Ha, Hs. reflexivity.
Qed.

(** Block 18/0 of the blank D64 image has the link (0,0). *)
Lemma read_block_terminal_count_witness :
  fst (cbmimage_read_block d64_blank (CBMIMAGE_BLOCK_INIT 18 0 358) true 256) = 0
  /\ cbmimage_chain_last_result d64_blank
       (fst (cbmimage_chain_start d64_blank (CBMIMAGE_BLOCK_INIT 18 0 358))) = 256.
Proof.
  pose proof (read_block_terminal_count d64_blank (CBMIMAGE_BLOCK_INIT 18 0 358)
                91392 256 eq_refl ltac:(vm_compute; discriminate) eq_refl) as (_ & H).
  destruct (H eq_refl) as (H1 & H2).
  split; [exact H1|].
  exact (H2 (block_accessor
               (fst (cbmimage_chain_start d64_blank (CBMIMAGE_BLOCK_INIT 18 0 358))))
            None eq_refl).
Defined.

(** ** Loop detector (lib/loop.c) *)

Section LoopDetector.

Lemma land_bit_truthy x k :
  0 <= k -> truthy (Z.land x (Z.shiftl 1 k)) = Z.testbit x k.
Proof.
  intros Hk. rewrite Z.shiftl_1_l.
  assert (E : Z.land x (2 ^ k) = if Z.testbit x k then 2 ^ k else 0).
  { apply Z.bits_inj'. intros n Hn. rewrite Z.land_spec, Z.pow2_bits_eqb by lia.
    destruct (Z.eqb_spec k n) as [->|Hne].
    - destruct (Z.testbit x n); [rewrite Z.pow2_bits_eqb by lia; rewrite Z.eqb_refl|];
        cbn; rewrite ?Z.bits_0; reflexivity.
    - rewrite andb_false_r.
      destruct (Z.testbit x k); [rewrite Z.pow2_bits_eqb by lia|rewrite Z.bits_0];
        [apply eq_sym, Z.eqb_neq; exact Hne | reflexivity]. }
  rewrite E. unfold truthy.
  destruct (Z.testbit x k); [|reflexivity].
  pose proof (Z.pow_pos_nonneg 2 k ltac:(lia) Hk).
  destruct (2 ^ k =? 0) eqn:E0; zbool; [lia | reflexivity].
Qed.

Lemma u8_lor_bit_testbit old k j :
  0 <= k < 8 -> 0 <= j < 8 ->
  Z.testbit (u8 (Z.lor old (Z.shiftl 1 k))) j = Z.testbit old j || (k =? j).
Proof.
  intros Hk Hj. unfold u8. change 256 with (2 ^ 8).
  rewrite Z.mod_pow2_bits_low by lia.
  rewrite Z.lor_spec, Z.shiftl_1_l, Z.pow2_bits_eqb by lia. reflexivity.
Qed.

Lemma lba_byte_bit_eq l l' :
  0 <= l -> 0 <= l' -> l' / 8 = l / 8 -> l' mod 8 = l mod 8 -> l' = l.
Proof.
  intros Hl Hl' Hd Hm.
  rewrite (Z.div_mod l 8), (Z.div_mod l' 8) by lia. lia.
Qed.

Variable image : cbmimage_fileimage.
Hypothesis Hmax : cbmimage_get_max_lba image < 65536.

(** What a mark that reports "not seen before" does to the map. *)
Lemma cbmimage_loop_mark_fresh loop b loop' log :
  loop_sized loop ->
  0 <= lba b ->
  cbmimage_loop_mark image loop b = (0, loop', log) ->
  loop_sized loop'
  /\ 1 <= lba b <= cbmimage_get_max_lba image
  /\ loop_marked loop (lba b) = false
  /\ forall l', 0 <= l' -> loop_marked loop' l' = loop_marked loop l' || (l' =? lba b).
Proof.
  unfold loop_sized, cbmimage_loop_mark. intros Hsz Hnn.
  destruct (_ || _) eqn:E; [intros [=]|]. zbool. destruct E as (E1 & E2).
  assert (Hl : 1 <= lba b <= cbmimage_get_max_lba image) by lia.
  assert (Hdiv : 0 <= lba b / 8 < 65536).
  { split; [apply Z.div_pos; lia|]. apply Z.div_lt_upper_bound; lia. }
  pose proof (Z.mod_pos_bound (lba b) 8 ltac:(lia)) as Hmod.
  rewrite (u16_small (lba b / 8)) by lia.
  rewrite (u8_small (lba b mod 8)) by lia.
  destruct (_ <=? _) eqn:E3; [intros [=]|]. zbool.
  rewrite truthy_Z_of_bool, land_bit_truthy by lia.
  intros [= Hm <- _].
  assert (Hunm : loop_marked loop (lba b) = false).
  { unfold loop_marked. destruct (Z.testbit _ _); [discriminate|reflexivity]. }
  cbn [loop_map loop_map_size]. rewrite length_insert.
  split; [exact Hsz|]. split; [exact Hl|]. split; [exact Hunm|].
  intros l' Hl'. unfold loop_marked, zidx. cbn [loop_map].
  pose proof (Z.mod_pos_bound l' 8 ltac:(lia)) as Hmod'.
  destruct (Z.eq_dec (l' / 8) (lba b / 8)) as [Hd|Hd].
  - rewrite Hd, nth_lookup, list_lookup_insert_eq by lia. cbn [default from_option].
    unfold id. rewrite u8_lor_bit_testbit by lia. f_equal.
    destruct (Z.eqb_spec (lba b mod 8) (l' mod 8)) as [Hm'|Hm'].
    + symmetry. apply Z.eqb_eq. apply lba_byte_bit_eq; lia.
    + symmetry. apply Z.eqb_neq. intros ->. lia.
  - rewrite !nth_lookup, list_lookup_insert_ne.
    + destruct (Z.eqb_spec l' (lba b)) as [->|Hne]; [lia|]. rewrite orb_false_r. reflexivity.
    + assert (0 <= l' / 8) by (apply Z.div_pos; lia). lia.
Qed.

(** Any other outcome of a mark keeps the size of the map. *)
Lemma cbmimage_loop_mark_sized loop b :
  loop_sized loop -> loop_sized (snd (fst (cbmimage_loop_mark image loop b))).
Proof.
  unfold loop_sized, cbmimage_loop_mark. intros Hsz.
  destruct (_ || _); [exact Hsz|].
  destruct (_ <=? _); [exact Hsz|].
  cbn [fst snd loop_map loop_map_size]. rewrite length_insert. exact Hsz.
Qed.

Lemma cbmimage_loop_create_sized : loop_sized (cbmimage_loop_create image).
Proof. unfold loop_sized, cbmimage_loop_create. cbn. apply length_replicate. Qed.

End LoopDetector.

Section UnmarkedCount.

Variables loop loop' : cbmimage_loop.

Lemma count_unmarked_le_n n : (count_unmarked loop n <= n)%nat.
Proof. induction n as [|n IH]; cbn [count_unmarked]; [lia|]. destruct (loop_marked _ _); lia. Qed.

Hypothesis Hkeep : forall l, 0 <= l -> loop_marked loop l = true -> loop_marked loop' l = true.

Lemma count_unmarked_mono n : (count_unmarked loop' n <= count_unmarked loop n)%nat.
Proof.
  induction n as [|n IH]; cbn [count_unmarked]; [lia|].
  destruct (loop_marked loop (Z.of_nat (S n))) eqn:E.
  - rewrite (Hkeep (Z.of_nat (S n)) ltac:(lia) E). lia.
  - destruct (loop_marked loop' (Z.of_nat (S n))); lia.
Qed.

Lemma count_unmarked_decreases n l :
  1 <= l <= Z.of_nat n ->
  loop_marked loop l = false -> loop_marked loop' l = true ->
  (count_unmarked loop' n < count_unmarked loop n)%nat.
Proof.
  induction n as [|n IH]; intros Hl Hu Hm; [lia|].
  cbn [count_unmarked].
  destruct (Z.eq_dec l (Z.of_nat (S n))) as [->|Hne].
  - rewrite Hu, Hm. pose proof (count_unmarked_mono n). lia.
  - specialize (IH ltac:(lia) Hu Hm).
    destruct (loop_marked loop (Z.of_nat (S n))) eqn:E.
    + rewrite (Hkeep (Z.of_nat (S n)) ltac:(lia) E). lia.
    + destruct (loop_marked loop' (Z.of_nat (S n))); lia.
Qed.

End UnmarkedCount.

(** ** Chain follower (lib/chain.c) *)

Section ChainTermination.

Variable image : cbmimage_fileimage.
Hypothesis Hok : image_ok image = true.

Let N : nat := Z.to_nat (cbmimage_get_max_lba image).

Lemma init_from_ts_success b :
  fst (cbmimage_blockaddress_init_from_ts image b) = 0 ->
  ts (snd (cbmimage_blockaddress_init_from_ts image b)) = ts b
  /\ 0 <= lba (snd (cbmimage_blockaddress_init_from_ts image b)) < 65536.
Proof.
  unfold cbmimage_blockaddress_init_from_ts.
  destruct (ts_to_blockaddress (fct (settings image))) as [[]|].
  - unfold d40_d64_d71_ts_to_blockaddress.
    destruct (_ || _); cbn [fst snd]; [discriminate|].
    intros _. split; [reflexivity|]. apply u16_range.
  - unfold cbmimage_i_generic_ts_to_blockaddress.
    destruct (negb _); cbn [fst snd]; [discriminate|].
    intros _. split; [reflexivity|]. apply u16_range.
Qed.

(** A link that [cbmimage_blockaccessor_get_next_block] accepts names a
    track and a sector of the frame, and the block address it delivers
    carries them. *)
Lemma get_next_block_success a b0 :
  fst (cbmimage_blockaccessor_get_next_block image a (Some b0)) = 0 ->
  exists b,
    snd (cbmimage_blockaccessor_get_next_block image a (Some b0)) = Some b
    /\ 0 < track (ts b) <= cbmimage_get_max_track image
    /\ sector (ts b) < cbmimage_get_sectors_in_track image (track (ts b))
    /\ 0 <= lba b < 65536.
Proof.
  unfold cbmimage_blockaccessor_get_next_block.
  pose proof (rd_range image (acc_data a) 0) as Ht.
  pose proof (rd_range image (acc_data a) 1) as Hs.
  set (t := rd image (acc_data a) 0) in *. set (s := rd image (acc_data a) 1) in *.
  destruct (t =? 0) eqn:E0; zbool.
  { cbn [fst]. destruct (s =? 0) eqn:E; zbool; lia. }
  destruct (t <=? _) eqn:E1; zbool; [|cbn; lia].
  destruct (s <? _) eqn:E2; zbool; [|cbn; lia].
  unfold cbmimage_blockaddress_init_from_ts_value.
  destruct (cbmimage_blockaddress_init_from_ts image (CBMIMAGE_TS_SET b0 t s))
    as [r b] eqn:Econv.
  cbn [fst snd]. intros ->.
  destruct (init_from_ts_success (CBMIMAGE_TS_SET b0 t s)) as (Hts & Hlba);
    [rewrite Econv; reflexivity|].
  rewrite Econv in Hts, Hlba. cbn [snd] in Hts, Hlba.
  exists b. split; [reflexivity|].
  rewrite Hts. unfold CBMIMAGE_TS_SET. cbn [ts track sector].
  rewrite !u8_small by lia. repeat split; lia.
Qed.

Lemma set_to_existing a b :
  0 < track (ts b) <= cbmimage_get_max_track image ->
  sector (ts b) < cbmimage_get_sectors_in_track image (track (ts b)) ->
  1 <= lba b <= cbmimage_get_max_lba image ->
  cbmimage_blockaccessor_set_to image a b
  = (0, {| acc_block := b; acc_data := Some ((lba b - 1) * 256) |}).
Proof.
  intros Ht Hs Hl. unfold cbmimage_blockaccessor_set_to.
  destruct (_ && _) eqn:E; zbool; [|lia].
  rewrite (cbmimage_i_get_address_of_block_ok image b Hok Hl). reflexivity.
Qed.

Lemma max_lba_small : cbmimage_get_max_lba image < 65536.
Proof. destruct (image_ok_facts image Hok) as (_ & _ & _ & _ & H & _). lia. Qed.

(** One call of [cbmimage_i_chain_readblock] on a block that names an
    existing track and sector. *)
Lemma chain_readblock_step c b :
  chain_inv c ->
  0 < track (ts b) <= cbmimage_get_max_track image ->
  sector (ts b) < cbmimage_get_sectors_in_track image (track (ts b)) ->
  0 <= lba b ->
  let c' := snd (fst (cbmimage_i_chain_readblock image c b)) in
  chain_inv c'
  /\ (is_done c = true -> is_done c' = true)
  /\ (is_done c' = false ->
        (count_unmarked (loop_detector c') N < count_unmarked (loop_detector c) N)%nat).
Proof.
  intros (Hsz & Hacc) Ht Hs Hl. unfold cbmimage_i_chain_readblock.
  destruct (cbmimage_loop_mark image (loop_detector c) b) as [[m loop'] log] eqn:Em.
  pose proof (cbmimage_loop_mark_sized image (loop_detector c) b Hsz) as Hsz'.
  rewrite Em in Hsz'. cbn [fst snd] in Hsz'.
  destruct (truthy m) eqn:Etr.
  - cbn. repeat split; try assumption; try discriminate.
  - unfold truthy in Etr. zbool. subst m.
    destruct (cbmimage_loop_mark_fresh image max_lba_small _ _ _ _ Hsz Hl Em)
      as (_ & Hrange & Hunm & Hbits).
    rewrite (set_to_existing (block_accessor c) b Ht Hs Hrange).
    cbn [Z.eqb fst snd is_done loop_detector block_accessor acc_data].
    split; [split; [exact Hsz'|discriminate]|]. split; [auto|].
    intros _. apply (count_unmarked_decreases _ _) with (l := lba b).
    + intros l Hl0 Hm. rewrite (Hbits l Hl0), Hm. reflexivity.
    + subst N. lia.
    + exact Hunm.
    + rewrite (Hbits _ Hl), Z.eqb_refl. apply orb_true_r.
Qed.

(** One call of [cbmimage_chain_advance]: the chain is done afterwards, or
    one more LBA of the image is marked. *)
Lemma chain_advance_step c :
  chain_inv c ->
  let c' := snd (fst (cbmimage_chain_advance image c)) in
  chain_inv c'
  /\ (is_done c = true -> is_done c' = true)
  /\ (is_done c' = false ->
        (count_unmarked (loop_detector c') N < count_unmarked (loop_detector c) N)%nat).
Proof.
  intros Hinv. unfold cbmimage_chain_advance.
  destruct (cbmimage_blockaccessor_get_next_block image (block_accessor c)
              (Some cbmimage_block_unused)) as [ret bn] eqn:Enext.
  destruct (ret =? 0) eqn:Eret; zbool.
  - subst ret.
    destruct (get_next_block_success (block_accessor c) cbmimage_block_unused)
      as (b & Hb & Ht & Hs & Hl); [rewrite Enext; reflexivity|].
    rewrite Enext in Hb. cbn [snd] in Hb. subst bn.
    apply chain_readblock_step; try assumption; lia.
  - cbn. destruct Hinv as (Hsz & Hacc). repeat split; try assumption; try discriminate.
Qed.

(** [cbmimage_chain_start] on an existing block establishes the state. *)
Lemma chain_start_inv start :
  block_exists image start = true ->
  chain_inv (fst (cbmimage_chain_start image start)).
Proof.
  unfold block_exists, cbmimage_blockaddress_ts_exists, cbmimage_blockaddress_lba_exists.
  intros H. zbool. destruct H as ((((H1 & H2) & H3) & H4) & (H5 & H6)).
  unfold cbmimage_chain_start, cbmimage_blockaccessor_create.
  rewrite (set_to_existing _ start) by lia. cbn [snd].
  match goal with
  | |- context [cbmimage_i_chain_readblock image ?c start] =>
      pose proof (chain_readblock_step c start) as Hstep;
      destruct (cbmimage_i_chain_readblock image c start) as [[r c'] log] eqn:E
  end.
  cbn [fst snd] in *. apply Hstep; try lia.
  split; [apply cbmimage_loop_create_sized | discriminate].
Qed.

Lemma chain_run_inv n : forall c, chain_inv c -> chain_inv (chain_run image n c).
Proof.
  induction n as [|n IH]; intros c Hinv; [exact Hinv|].
  cbn [chain_run]. apply IH. apply chain_advance_step. exact Hinv.
Qed.

(** Advancing a chain that is done leaves it done. *)
Lemma chain_run_done n :
  forall c, chain_inv c -> is_done c = true -> is_done (chain_run image n c) = true.
Proof.
  induction n as [|n IH]; intros c Hinv Hd; [exact Hd|].
  cbn [chain_run]. destruct (chain_advance_step c Hinv) as (Hinv' & Hkeep & _).
  apply IH; auto.
Qed.

(** After [n] advances the chain is done, or [n] more LBAs are marked. *)
Lemma chain_run_progress n :
  forall c, chain_inv c ->
    is_done (chain_run image n c) = true
    \/ (count_unmarked (loop_detector (chain_run image n c)) N + n
          <= count_unmarked (loop_detector c) N)%nat.
Proof.
  induction n as [|n IH]; intros c Hinv; [right; cbn; lia|].
  cbn [chain_run]. destruct (chain_advance_step c Hinv) as (Hinv' & _ & Hdec).
  set (c1 := snd (fst (cbmimage_chain_advance image c))) in *.
  destruct (is_done c1) eqn:Ed.
  - left. apply chain_run_done; assumption.
  - destruct (IH c1 Hinv') as [Hdone|Hcnt]; [left; exact Hdone|].
    right. specialize (Hdec eq_refl). lia.
Qed.

End ChainTermination.

(** The images [cbmimage_image_open] makes of a D64, D71 or D81 buffer of
    the nominal size (with or without error map, by hint or by size) are
    well formed, whatever the buffer holds. *)
Lemma image_open_ok (buf : Z -> Z) :
  image_ok (cbmimage_image_open buf 174848 TYPE_D64) = true
  /\ image_ok (cbmimage_image_open buf 175531 TYPE_D64) = true
  /\ image_ok (cbmimage_image_open buf 349696 TYPE_D71) = true
  /\ image_ok (cbmimage_image_open buf 819200 TYPE_D81) = true
  /\ image_ok (cbmimage_image_open buf 174848 TYPE_UNKNOWN) = true.
Proof. repeat split; reflexivity. Qed.




(** ** File reader (lib/file.c) *)

(** Once the chain of a file is done, [cbmimage_file_read_next_block]
    returns -1 and stores nothing, for every image and buffer size. *)
Lemma file_read_next_block_done
    (image : cbmimage_fileimage) (fuel : nat) (file : cbmimage_file) (buffer_size : Z) :
  cbmimage_chain_is_done (file_chain file) = true ->
  cbmimage_file_read_next_block image fuel file buffer_size = Some (-1, file, [], []).
Proof. intros Hd. unfold cbmimage_file_read_next_block. rewrite Hd. reflexivity. Qed.

(** C5. The one-block file of [d64_one_block_file] is opened with its chain
    not done; the first read with a 256-byte buffer returns 9, the number of
    bytes copied, and leaves the chain done; every further read, at end of
    file with no error having occurred, returns -1 and not 0. *)
Theorem file_read_next_block_at_eof (fuel : nat) (buffer_size : Z) :
  cbmimage_chain_is_done (file_chain one_block_file) = false
  /\ cbmimage_file_read_next_block d64_one_block_file (S fuel) one_block_file 256
     = Some (9, one_block_file_after_read, [65; 0; 0; 0; 0; 0; 0; 0; 66], [])
  /\ cbmimage_file_read_next_block d64_one_block_file fuel one_block_file_after_read buffer_size
     = Some (-1, one_block_file_after_read, [], []).
Proof.
  split; [reflexivity|]. split; [|reflexivity].
  destruct fuel; vm_compute; reflexivity.
Qed.

(** ** BAM consistency check (lib/bam.c) *)

(** The check returns 0 whenever the BAM of every track can be fetched:
    what it finds in the bitmaps and counters goes to the diagnostics only. *)
Lemma bam_check_consistency_loop_result (image : cbmimage_fileimage) (n : nat) :
  forall t,
    (forall k, (k < n)%nat ->
       0 <= fst (cbmimage_i_get_bam_of_track image (t + Z.of_nat k))) ->
    fst (bam_check_consistency_loop image n t) = 0.
Proof.
  induction n as [|n IH]; intros t Hsel; [reflexivity|].
  cbn [bam_check_consistency_loop]. unfold bam_check_consistency_track.
  pose proof (Hsel O ltac:(lia)) as H0. rewrite Z.add_0_r in H0.
  destruct (cbmimage_i_get_bam_of_track image t) as [r mask]. cbn [fst] in H0.
  destruct (r <? 0) eqn:E; zbool; [lia|].
  destruct (cbmimage_i_check_max_bam_of_track image t mask) as [r1 log1].
  specialize (IH (t + 1)).
  destruct (bam_check_consistency_loop image n (t + 1)) as [r' log'].
  cbn [fst] in *. apply IH. intros k Hk.
  replace (t + 1 + Z.of_nat k) with (t + Z.of_nat (S k)) by lia.
  apply Hsel. lia.
Qed.

(** C2. On [d64_bad_bam] the check finds all three kinds of violation (a
    counter that differs from the popcount of the bitmap, a bit set for a
    sector beyond the track, a counter above the sectors of the track),
    prints a diagnostic for each, and returns 0. *)
Theorem bam_check_consistency_returns_zero_on_violations :
  cbmimage_bam_check_consistency d64_bad_bam
  = (0, [Diag_free_blocks_mismatch 1 5 0;
         Diag_bits_not_allowed 2 21;
         Diag_free_blocks_exceed_sectors 3 30 21;
         Diag_free_blocks_mismatch 3 30 0]).
Proof. vm_compute. reflexivity. Qed.

(** ** Validator (lib/validate.c) *)

(** The comparison of the FAT with the BAM leaves the image as it is and
    delivers 0, whatever it finds and prints. *)
Lemma bam_check_equality_loop_result (fuel : nat) :
  forall block image log r image' log',
    bam_check_equality_loop fuel block image log = Some (r, image', log') -> image' = image.
Proof.
  induction fuel as [|fuel IH]; intros block image log r image' log' H; [discriminate|].
  cbn [bam_check_equality_loop] in H.
  unfold mbind, V_bind, the_image, print in H.
  destruct (cbmimage_blockaddress_advance image block) as [a b].
  destruct (truthy a).
  - unfold mret, V_ret in H. congruence.
  - eapply IH. exact H.
Qed.

Lemma cbmimage_i_bam_check_equality_result (fuel : nat) image log r image' log' :
  cbmimage_i_bam_check_equality fuel image log = Some (r, image', log') -> r = 0.
Proof.
  unfold cbmimage_i_bam_check_equality, mbind, V_bind, the_image, mret, V_ret.
  destruct (bam_check_equality_loop fuel _ image log) as [[[u i] l]|]; congruence.
Qed.

(** C1. On the D64 image of 174848 zero bytes, which is not a partition
    table, the validator finds the FAT and the BAM to differ for 682 of the
    683 blocks (the BAM has them in use, no chain reaches them), prints a
    diagnostic for each, and returns 0.  The only block marked in the FAT is
    the info block 18/0.  This holds wherever the offsets of the GEOS and
    partition-table members of a directory slot are placed. *)
Theorem validate_returns_zero_on_divergence
    (geos_filetype geos_filestructure : Z)
    (partition_start_low partition_start_high : Z)
    (partition_block_count_low partition_block_count_high : Z) :
  run_validate
    (cbm_dir_entry_layout geos_filetype geos_filestructure
       partition_start_low partition_start_high
       partition_block_count_low partition_block_count_high)
    1000 d64_blank
  = Some (Det 0,
          with_settings d64_blank
            (set_fat (settings d64_blank)
               (Some (snd (cbmimage_fat_set (cbmimage_fat_create d64_blank)
                             (CBMIMAGE_BLOCK_INIT 18 0 358) cbmimage_block_unused)))),
          map Diag_not_used_but_bam_used (blocks_but d64_blank 358)).
Proof. vm_compute. reflexivity. Qed.

(** * Further properties of the embedded code *)

(** ** The last block and the geometry (lib/fileimage.c, lib/blockaddress.c) *)

Section LastBlock.

Variable image : cbmimage_fileimage.
Hypothesis Hok : image_ok image = true.

Lemma image_ok_last_block :
  lba (snd (cbmimage_blockaddress_init_from_ts_value image cbmimage_block_unused
              (maxtracks (settings image))
              (cbmimage_get_sectors_in_track image (maxtracks (settings image)) - 1)))
  = cbmimage_get_max_lba image.
Proof.
  unfold image_ok in Hok. rewrite !andb_true_iff in Hok.
  destruct Hok as (_ & H). zbool. exact H.
Qed.

(** On a uniform frame the image has maxtracks * maxsectors blocks. *)
Lemma uniform_max_lba :
  uniform_geometry (settings image) = true ->
  cbmimage_get_max_lba image = maxtracks (settings image) * maxsectors (settings image).
Proof.
  intros Hu. rewrite <- image_ok_last_block.
  destruct (uniform_bounds image Hu) as (Hmt & Hms & Hprod).
  rewrite (uniform_sectors_in_track image Hu).
  rewrite (uniform_from_ts image Hu).
  - cbn [snd lba CBMIMAGE_BLOCK_INIT]. ring.
  - lia.
  - unfold cbmimage_blockaddress_ts_exists.
    rewrite (uniform_sectors_in_track image Hu).
    unfold cbmimage_get_max_track, cbmimage_get_max_sectors. zbool. lia.
Qed.

(** On a frame with a start table the last block is the last sector of the
    last track. *)
Lemma table_max_lba :
  table_geometry (settings image) = true ->
  cbmimage_get_max_lba image
  = zidx (track_lba_start (settings image)) (maxtracks (settings image))
    + zidx (sectors_in_track (settings image)) (maxtracks (settings image)) - 1.
Proof.
  intros Ht. rewrite <- image_ok_last_block.
  destruct (table_bounds image Ht) as (Hmt & _ & _ & _ & Hms & Hall).
  destruct (Hall (maxtracks (settings image)) ltac:(lia)) as (Hsit & Hsum & _).
  rewrite (table_sectors_in_track image Ht).
  destruct (_ <=? _) eqn:E; zbool; [|lia].
  rewrite (table_from_ts image Ht).
  - cbn [snd lba CBMIMAGE_BLOCK_INIT]. lia.
  - lia.
  - unfold cbmimage_blockaddress_ts_exists.
    rewrite (table_sectors_in_track image Ht).
    unfold cbmimage_get_max_track, cbmimage_get_max_sectors.
    destruct (_ <=? _) eqn:E'; zbool; lia.
Qed.

(** Every LBA of the image belongs to exactly the track/sector pair that
    the conversion from LBAs delivers, and that pair exists. *)
Lemma from_lba_existing l :
  1 <= l <= cbmimage_get_max_lba image ->
  exists t s,
    0 <= s
    /\ cbmimage_blockaddress_ts_exists image t s = true
    /\ cbmimage_blockaddress_init_from_lba_value image cbmimage_block_unused l
       = (0, CBMIMAGE_BLOCK_INIT t s l)
    /\ cbmimage_blockaddress_init_from_ts_value image cbmimage_block_unused t s
       = (0, CBMIMAGE_BLOCK_INIT t s l).
Proof.
  intros Hl.
  destruct (image_ok_facts image Hok) as (Hgeo & _).
  unfold geometry_ok in Hgeo. apply orb_true_iff in Hgeo. destruct Hgeo as [Hu|Ht].
  - destruct (uniform_bounds image Hu) as (Hmt & Hms & Hprod).
    rewrite (uniform_max_lba Hu) in Hl.
    set (ms := maxsectors (settings image)) in *.
    set (mt := maxtracks (settings image)) in *.
    pose proof (Z.div_mod (l - 1) ms ltac:(lia)) as Hdm.
    pose proof (Z.mod_pos_bound (l - 1) ms ltac:(lia)) as Hmod.
    pose proof (Z.div_pos (l - 1) ms ltac:(lia) ltac:(lia)) as Hq0.
    assert (Hq : (l - 1) / ms < mt) by (apply Z.div_lt_upper_bound; nia).
    exists ((l - 1) / ms + 1), ((l - 1) mod ms).
    assert (Hex : cbmimage_blockaddress_ts_exists image ((l - 1) / ms + 1) ((l - 1) mod ms)
                  = true).
    { unfold cbmimage_blockaddress_ts_exists.
      rewrite (uniform_sectors_in_track image Hu).
      unfold cbmimage_get_max_track, cbmimage_get_max_sectors. zbool.
      fold ms mt. lia. }
    assert (El : ((l - 1) / ms + 1 - 1) * ms + (l - 1) mod ms + 1 = l) by lia.
    assert (Hs : 0 <= (l - 1) mod ms) by lia.
    split; [lia|]. split; [exact Hex|]. split.
    + pose proof (uniform_from_lba image Hu cbmimage_block_unused _ _ Hs Hex) as H.
      fold ms in H. rewrite El in H. exact H.
    + pose proof (uniform_from_ts image Hu cbmimage_block_unused _ _ Hs Hex) as H.
      fold ms in H. rewrite El in H. exact H.
  - destruct (table_status_bounds image Ht) as (Hmt & _ & _ & _ & Hall).
    destruct (table_bounds image Ht) as (_ & _ & _ & _ & Hms & Hall').
    rewrite (table_max_lba Ht) in Hl.
    destruct (table_track_of_lba image Ht l ltac:(lia)) as (t & Htr & Hin).
    destruct (Hall' t Htr) as (Hsit & _).
    exists t, (l - zidx (track_lba_start (settings image)) t).
    assert (Hex : cbmimage_blockaddress_ts_exists image t
                    (l - zidx (track_lba_start (settings image)) t) = true).
    { unfold cbmimage_blockaddress_ts_exists.
      rewrite (table_sectors_in_track image Ht).
      unfold cbmimage_get_max_track, cbmimage_get_max_sectors.
      destruct (_ <=? _) eqn:E; zbool; lia. }
    assert (El : zidx (track_lba_start (settings image)) t
                 + (l - zidx (track_lba_start (settings image)) t) = l) by lia.
    assert (Hs : 0 <= l - zidx (track_lba_start (settings image)) t) by lia.
    split; [lia|]. split; [exact Hex|]. split.
    + pose proof (table_from_lba image Ht cbmimage_block_unused _ _ Hs Hex) as H.
      cbv beta zeta in H. rewrite El in H. exact H.
    + pose proof (table_from_ts image Ht cbmimage_block_unused _ _ Hs Hex) as H.
      cbv beta zeta in H. rewrite El in H. exact H.
Qed.

End LastBlock.

(** X1. On a well-formed image, every LBA from 1 to max_lba converts to a
    track/sector pair that exists on the image, and converting that pair
    back yields the same block address: LBA -> T/S -> LBA is the identity on
    the blocks of the image. *)
Theorem lba_round_trip (image : cbmimage_fileimage) (l : Z) :
  image_ok image = true ->
  1 <= l <= cbmimage_get_max_lba image ->
  let r := cbmimage_blockaddress_init_from_lba_value image cbmimage_block_unused l in
  let b := snd r in
  fst r = 0
  /\ lba b = l
  /\ cbmimage_blockaddress_ts_exists image (track (ts b)) (sector (ts b)) = true
  /\ cbmimage_blockaddress_init_from_ts_value image cbmimage_block_unused
       (track (ts b)) (sector (ts b)) = (0, b).
Proof.
  intros Hok Hl. cbn zeta.
  destruct (from_lba_existing image Hok l Hl) as (t & s & Hs & Hex & Hlba & Hts).
  rewrite Hlba. cbn [fst snd CBMIMAGE_BLOCK_INIT lba ts track sector].
  repeat split; assumption.
Qed.

Lemma lba_round_trip_witness :
  cbmimage_blockaddress_init_from_lba_value d64_blank cbmimage_block_unused 683
  = (0, CBMIMAGE_BLOCK_INIT 35 16 683)
  /\ cbmimage_blockaddress_init_from_ts_value d64_blank cbmimage_block_unused 35 16
  = (0, CBMIMAGE_BLOCK_INIT 35 16 683).
Proof.
  pose proof (lba_round_trip d64_blank 683 eq_refl ltac:(vm_compute; split; discriminate))
    as H.
  cbn zeta in H. destruct H as (_ & _ & _ & H). split; [reflexivity | exact H].
Defined.

(** ** The layout of the blocks on a well-formed frame *)

Section Frame.

Variable image : cbmimage_fileimage.
Hypothesis Hok : image_ok image = true.

Let mt : Z := cbmimage_get_max_track image.
Let sit (t : Z) : Z := cbmimage_get_sectors_in_track image t.

(** Tracks follow each other without gaps in the LBA space, sectors within a
    track likewise, and both conversions agree with this layout. *)
Lemma frame_layout :
  1 <= mt <= 255
  /\ first_lba image 1 = 1
  /\ first_lba image mt + sit mt - 1 = cbmimage_get_max_lba image
  /\ (forall t, 1 <= t <= mt ->
        1 <= sit t <= 256 /\ 1 <= first_lba image t /\ first_lba image t + sit t <= 65536
        /\ (t < mt -> first_lba image (t + 1) = first_lba image t + sit t))
  /\ (forall t s, 0 <= s ->
        (cbmimage_blockaddress_ts_exists image t s = true <-> 1 <= t <= mt /\ s < sit t))
  /\ (forall b t s, 0 <= s -> cbmimage_blockaddress_ts_exists image t s = true ->
        cbmimage_blockaddress_init_from_ts_value image b t s
        = (0, CBMIMAGE_BLOCK_INIT t s (first_lba image t + s))
        /\ cbmimage_blockaddress_init_from_lba_value image b (first_lba image t + s)
           = (0, CBMIMAGE_BLOCK_INIT t s (first_lba image t + s))).
Proof.
  destruct (image_ok_facts image Hok) as (Hgeo & _ & _ & _ & Hmax & _).
  unfold geometry_ok in Hgeo. apply orb_true_iff in Hgeo. destruct Hgeo as [Hu|Ht].
  - (* uniform frame *)
    destruct (uniform_bounds image Hu) as (Hmt & Hms & Hprod).
    pose proof (uniform_max_lba image Hok Hu) as Hlast.
    assert (Hex : forall t s, 0 <= s ->
              (cbmimage_blockaddress_ts_exists image t s = true
               <-> 1 <= t <= mt /\ s < sit t)).
    { intros t s Hs. unfold cbmimage_blockaddress_ts_exists, sit, mt.
      rewrite (uniform_sectors_in_track image Hu).
      unfold cbmimage_get_max_track, cbmimage_get_max_sectors. zbool. lia. }
    assert (Hfirst : forall t, 1 <= t <= mt ->
              first_lba image t = (t - 1) * maxsectors (settings image) + 1).
    { intros t Htr. unfold first_lba.
      rewrite (uniform_from_ts image Hu cbmimage_block_unused t 0 ltac:(lia)).
      - cbn [snd lba CBMIMAGE_BLOCK_INIT]. lia.
      - apply Hex; [lia|]. unfold sit. rewrite (uniform_sectors_in_track image Hu). lia. }
    assert (Hsit : forall t, sit t = maxsectors (settings image))
      by (intros t; apply (uniform_sectors_in_track image Hu)).
    unfold mt in *. unfold cbmimage_get_max_track in *.
    set (ms := maxsectors (settings image)) in *.
    set (m := maxtracks (settings image)) in *.
    split; [lia|]. split; [rewrite Hfirst by lia; lia|].
    split; [rewrite Hfirst, Hsit by lia; lia|].
    split; [|split; [exact Hex|]].
    + intros t Htr. rewrite Hsit, Hfirst by lia.
      assert (0 <= (t - 1) * ms) by (apply Z.mul_nonneg_nonneg; lia).
      assert ((t - 1) * ms <= (m - 1) * ms) by (apply Z.mul_le_mono_nonneg_r; lia).
      repeat split; try lia. intros Hlt. rewrite Hfirst by lia. lia.
    + intros b t s Hs He. pose proof (proj1 (Hex t s Hs) He) as (Htr & _).
      rewrite Hfirst by lia.
      replace ((t - 1) * ms + 1 + s) with ((t - 1) * ms + s + 1) by lia.
      split; [apply (uniform_from_ts image Hu); assumption
             |apply (uniform_from_lba image Hu); assumption].
  - (* frame with a start table *)
    destruct (table_status_bounds image Ht) as (Hmt & H0 & Hs0 & H1 & Hall).
    destruct (table_bounds image Ht) as (_ & _ & _ & _ & Hms & Hall').
    pose proof (table_max_lba image Hok Ht) as Hlast.
    assert (Hsit : forall t, 1 <= t <= mt ->
              sit t = zidx (sectors_in_track (settings image)) t).
    { intros t Htr. unfold sit. rewrite (table_sectors_in_track image Ht).
      unfold mt, cbmimage_get_max_track in Htr.
      destruct (_ <=? _) eqn:E; zbool; [reflexivity|lia]. }
    assert (Hex : forall t s, 0 <= s ->
              (cbmimage_blockaddress_ts_exists image t s = true
               <-> 1 <= t <= mt /\ s < sit t)).
    { intros t s Hs. split.
      - intros He. destruct (table_ts_exists image Ht t s He) as (Htr & Hlt).
        split; [exact Htr|]. rewrite Hsit by exact Htr. exact Hlt.
      - intros (Htr & Hlt). rewrite Hsit in Hlt by exact Htr.
        unfold cbmimage_blockaddress_ts_exists.
        rewrite (table_sectors_in_track image Ht).
        unfold cbmimage_get_max_track, cbmimage_get_max_sectors.
        unfold mt, cbmimage_get_max_track in Htr.
        destruct (Hall' t Htr) as (Hb & _).
        destruct (_ <=? _) eqn:E; zbool; lia. }
    assert (Hfirst : forall t, 1 <= t <= mt ->
              first_lba image t = zidx (track_lba_start (settings image)) t).
    { intros t Htr. unfold first_lba.
      rewrite (table_from_ts image Ht cbmimage_block_unused t 0 ltac:(lia)).
      - cbn [snd lba CBMIMAGE_BLOCK_INIT]. lia.
      - apply Hex; [lia|]. split; [exact Htr|]. rewrite Hsit by exact Htr.
        unfold mt, cbmimage_get_max_track in Htr.
        destruct (Hall t Htr) as (Hb & _). lia. }
    unfold mt in *. unfold cbmimage_get_max_track in *.
    set (m := maxtracks (settings image)) in *.
    split; [lia|]. split; [rewrite Hfirst by lia; exact H1|].
    split; [rewrite Hfirst, Hsit by lia; lia|].
    split; [|split; [exact Hex|]].
    + intros t Htr. rewrite Hsit, Hfirst by lia.
      destruct (Hall t Htr) as (Ha & Hb & Hc & Hd & He).
      repeat split; try lia. intros Hlt. rewrite Hfirst by lia. apply He. exact Hlt.
    + intros b t s Hs He. pose proof (proj1 (Hex t s Hs) He) as (Htr & _).
      rewrite Hfirst by lia.
      split; [apply (table_from_ts image Ht); assumption
             |apply (table_from_lba image Ht); assumption].
Qed.

End Frame.

(** ** Which LBAs and which T/S pairs convert *)

(** X2. With assertions compiled out (NDEBUG): on a well-formed frame
    without a start table (the generic conversion, as for D81),
    initialising a block address from a 16-bit LBA returns an error exactly
    when the LBA does not exist on the image, that is for 0 and for every
    LBA behind the last block.  These are the LBAs on which
    [assert(cbmimage_blockaddress_lba_exists(image, lba))] at the head of
    the function fails: a build with assertions stops there, so that it
    never returns an error from this function. *)
Theorem generic_from_lba_fails_iff_missing
    (image : cbmimage_fileimage) (b : cbmimage_blockaddress) (l : Z) :
  image_ok image = true ->
  uniform_geometry (settings image) = true ->
  0 <= l < 65536 ->
  (fst (cbmimage_blockaddress_init_from_lba_value image b l) <> 0
   <-> cbmimage_blockaddress_lba_exists image l = false).
Proof.
  intros Hok Hu Hl.
  rewrite (uniform_from_lba_status image Hu b l Hl).
  rewrite <- (uniform_max_lba image Hok Hu).
  unfold cbmimage_blockaddress_lba_exists.
  destruct (_ && _) eqn:E; zbool; split; intros H; try lia; try discriminate.
Qed.

Lemma generic_from_lba_fails_iff_missing_witness :
  fst (cbmimage_blockaddress_init_from_lba_value d81_blank cbmimage_block_unused 3201) <> 0
  /\ fst (cbmimage_blockaddress_init_from_lba_value d81_blank cbmimage_block_unused 0) <> 0.
Proof.
  split.
  - apply (generic_from_lba_fails_iff_missing d81_blank cbmimage_block_unused 3201
             eq_refl eq_refl ltac:(lia)). reflexivity.
  - apply (generic_from_lba_fails_iff_missing d81_blank cbmimage_block_unused 0
             eq_refl eq_refl ltac:(lia)). reflexivity.
Defined.

(** X3. With assertions compiled out (NDEBUG): on a well-formed frame with
    a per-track start table (D40, D64, D71), initialising a block address
    from a 16-bit LBA returns an error exactly for the LBAs from
    max_lba + 2 on; LBA 0 and LBA max_lba + 1, which do not exist, are
    reported as converted.  Every LBA with an error return is one on which
    [assert(cbmimage_blockaddress_lba_exists(image, lba))] at the head of
    the function fails (as it does on 0 and on max_lba + 1): a build with
    assertions stops there, so that it never returns an error from this
    function. *)
Theorem table_from_lba_fails_iff_two_behind
    (image : cbmimage_fileimage) (b : cbmimage_blockaddress) (l : Z) :
  image_ok image = true ->
  table_geometry (settings image) = true ->
  0 <= l < 65536 ->
  (fst (cbmimage_blockaddress_init_from_lba_value image b l) <> 0
   <-> cbmimage_get_max_lba image + 1 < l)
  /\ (fst (cbmimage_blockaddress_init_from_lba_value image b l) <> 0 ->
      cbmimage_blockaddress_lba_exists image l = false).
Proof.
  intros Hok Ht Hl.
  pose proof (table_from_lba_status image Ht b l Hl) as H. cbv beta zeta in H.
  assert (Hiff : fst (cbmimage_blockaddress_init_from_lba_value image b l) <> 0
                 <-> cbmimage_get_max_lba image + 1 < l).
  { rewrite H. rewrite (table_max_lba image Hok Ht). lia. }
  split; [exact Hiff|].
  intros Hbehind. apply Hiff in Hbehind. unfold cbmimage_blockaddress_lba_exists.
  destruct (_ && _) eqn:E; zbool; [lia | reflexivity].
Qed.

Lemma table_from_lba_fails_iff_two_behind_witness :
  fst (cbmimage_blockaddress_init_from_lba_value d64_blank cbmimage_block_unused 685) <> 0
  /\ ~ fst (cbmimage_blockaddress_init_from_lba_value d64_blank cbmimage_block_unused 684) <> 0.
Proof.
  split.
  - apply (proj1 (table_from_lba_fails_iff_two_behind d64_blank cbmimage_block_unused 685
                    eq_refl eq_refl ltac:(lia))). vm_compute. reflexivity.
  - intros H.
    apply (proj1 (table_from_lba_fails_iff_two_behind d64_blank cbmimage_block_unused 684
                    eq_refl eq_refl ltac:(lia))) in H. vm_compute in H. discriminate.
Defined.

(** X4. With assertions compiled out (NDEBUG): on a frame with a start
    table the conversion from T/S looks at the track only: it succeeds
    exactly for the tracks 1 .. maxtracks, whatever the sector is.  The
    sector right behind the end of a track, which does not exist, is given
    the LBA of sector 0 of the next track.  (A pair that does not exist
    fails [assert(cbmimage_blockaddress_ts_exists(image, track, sector))]
    at the head of [cbmimage_blockaddress_init_from_ts_value]: a build with
    assertions stops there.) *)
Theorem table_from_ts_checks_track_only
    (image : cbmimage_fileimage) (b : cbmimage_blockaddress) (t s : Z) :
  image_ok image = true ->
  table_geometry (settings image) = true ->
  0 <= t < 256 -> 0 <= s < 256 ->
  (fst (cbmimage_blockaddress_init_from_ts_value image b t s) = 0
   <-> 1 <= t <= cbmimage_get_max_track image)
  /\ (1 <= t < cbmimage_get_max_track image ->
      s = cbmimage_get_sectors_in_track image t ->
      cbmimage_blockaddress_ts_exists image t s = false
      /\ cbmimage_blockaddress_init_from_ts_value image b t s
         = (0, CBMIMAGE_BLOCK_INIT t s (first_lba image (t + 1)))).
Proof.
  intros Hok Htab Ht Hs.
  destruct (frame_layout image Hok) as (Hmt & _ & _ & Hall & Hex & _).
  assert (Hconv : cbmimage_blockaddress_init_from_ts_value image b t s
                  = if (t =? 0) || (cbmimage_get_max_track image <? t)
                    then (1, CBMIMAGE_TS_SET b t s)
                    else (0, CBMIMAGE_BLOCK_INIT t s
                               (u16 (zidx (track_lba_start (settings image)) t + s)))).
  { unfold cbmimage_blockaddress_init_from_ts_value, cbmimage_blockaddress_init_from_ts.
    destruct (table_pointers image Htab) as (_ & -> & _).
    unfold d40_d64_d71_ts_to_blockaddress, CBMIMAGE_TS_SET, cbmimage_get_max_track.
    cbn [ts track sector]. rewrite !u8_small by lia.
    destruct (_ || _); reflexivity. }
  split.
  - rewrite Hconv. destruct (_ || _) eqn:E; zbool; cbn [fst]; split; intros; lia.
  - intros Htr ->.
    destruct (Hall t ltac:(lia)) as (Hsit & Hpos & Hsum & Hstep).
    split.
    + destruct (cbmimage_blockaddress_ts_exists image t _) eqn:E; [|reflexivity].
      apply Hex in E; lia.
    + rewrite Hconv. destruct (_ || _) eqn:E; zbool; [lia|].
      rewrite (Hstep ltac:(lia)).
      assert (Hf : first_lba image t = zidx (track_lba_start (settings image)) t).
      { unfold first_lba.
        rewrite (table_from_ts image Htab cbmimage_block_unused t 0 ltac:(lia)).
        - cbn [snd lba CBMIMAGE_BLOCK_INIT]. lia.
        - apply Hex; lia. }
      destruct (Hall (t + 1) ltac:(lia)) as (Hsit' & _ & Hsum' & _).
      rewrite <- Hf. rewrite u16_small by lia. reflexivity.
Qed.

Lemma table_from_ts_checks_track_only_witness :
  cbmimage_blockaddress_ts_exists d64_blank 17 21 = false
  /\ cbmimage_blockaddress_init_from_ts_value d64_blank cbmimage_block_unused 17 21
     = (0, CBMIMAGE_BLOCK_INIT 17 21 358)
  /\ cbmimage_blockaddress_init_from_ts_value d64_blank cbmimage_block_unused 18 0
     = (0, CBMIMAGE_BLOCK_INIT 18 0 358).
Proof.
  destruct (table_from_ts_checks_track_only d64_blank cbmimage_block_unused 17 21
              eq_refl eq_refl ltac:(lia) ltac:(lia)) as (_ & H).
  destruct (H ltac:(vm_compute; split; [discriminate|reflexivity]) eq_refl) as (H1 & H2).
  split; [exact H1|]. split; [exact H2 | reflexivity].
Defined.

(** ** Stepping through the blocks (lib/blockaddress.c) *)

Section Advance.

Variable image : cbmimage_fileimage.
Hypothesis Hok : image_ok image = true.

(** The block address of an LBA of the image, with its place on its track. *)
Lemma block_of_lba_existing l :
  1 <= l <= cbmimage_get_max_lba image ->
  exists t s,
    0 <= s /\ 1 <= t <= cbmimage_get_max_track image
    /\ s < cbmimage_get_sectors_in_track image t
    /\ l = first_lba image t + s
    /\ block_of_lba image l = CBMIMAGE_BLOCK_INIT t s l.
Proof.
  intros Hl.
  destruct (from_lba_existing image Hok l Hl) as (t & s & Hs & Hex & Hlba & Hts).
  destruct (frame_layout image Hok) as (_ & _ & _ & _ & Hexi & Hconv).
  destruct (Hconv cbmimage_block_unused t s Hs Hex) as (Hts' & _).
  rewrite Hts in Hts'. injection Hts' as El.
  apply Hexi in Hex; [|exact Hs].
  exists t, s. unfold block_of_lba. rewrite Hlba.
  repeat split; try lia; reflexivity.
Qed.

Lemma block_of_lba_at t s :
  0 <= s -> 1 <= t <= cbmimage_get_max_track image ->
  s < cbmimage_get_sectors_in_track image t ->
  block_of_lba image (first_lba image t + s)
  = CBMIMAGE_BLOCK_INIT t s (first_lba image t + s).
Proof.
  intros Hs Ht Hlt.
  destruct (frame_layout image Hok) as (_ & _ & _ & _ & Hexi & Hconv).
  unfold block_of_lba.
  destruct (Hconv cbmimage_block_unused t s Hs) as (_ & ->); [|reflexivity].
  apply Hexi; [exact Hs|]. split; assumption.
Qed.

(** No track reaches behind the last block. *)
Lemma track_end_le_max_lba t :
  1 <= t <= cbmimage_get_max_track image ->
  first_lba image t + cbmimage_get_sectors_in_track image t - 1
  <= cbmimage_get_max_lba image.
Proof.
  intros Ht.
  destruct (frame_layout image Hok) as (Hmt & _ & Hlast & Hall & _ & _).
  assert (Hmono : forall n : nat,
            t + Z.of_nat n <= cbmimage_get_max_track image ->
            first_lba image t + cbmimage_get_sectors_in_track image t
            <= first_lba image (t + Z.of_nat n)
               + cbmimage_get_sectors_in_track image (t + Z.of_nat n)).
  { induction n as [|n IH]; intros Hn.
    - replace (t + Z.of_nat 0) with t by lia. lia.
    - destruct (Hall (t + Z.of_nat n) ltac:(lia)) as (Hs1 & _ & _ & Hst).
      destruct (Hall (t + Z.of_nat (S n)) ltac:(lia)) as (Hs2 & _).
      replace (t + Z.of_nat (S n)) with (t + Z.of_nat n + 1) in * by lia.
      rewrite Hst by lia. specialize (IH ltac:(lia)). lia. }
  specialize (Hmono (Z.to_nat (cbmimage_get_max_track image - t)) ltac:(lia)).
  replace (t + Z.of_nat (Z.to_nat (cbmimage_get_max_track image - t)))
    with (cbmimage_get_max_track image) in Hmono by lia.
  lia.
Qed.

(** One step from an existing block: to the next sector of the track, or -
    unless the step has to stay on the track - to sector 0 of the next
    track; the block is left alone when there is no such block. *)
Lemma blockaddress_advance_existing l t s (in_track : bool) :
  0 <= s -> 1 <= t <= cbmimage_get_max_track image ->
  s < cbmimage_get_sectors_in_track image t ->
  l = first_lba image t + s ->
  cbmimage_i_blockaddress_advance image (CBMIMAGE_BLOCK_INIT t s l) in_track
  = if s + 1 <? cbmimage_get_sectors_in_track image t
    then (0, block_of_lba image (l + 1))
    else if in_track || (t =? cbmimage_get_max_track image)
         then (-1, CBMIMAGE_BLOCK_INIT t s l)
         else (0, block_of_lba image (l + 1)).
Proof.
  intros Hs Ht Hlt ->.
  destruct (image_ok_facts image Hok) as (_ & Hrel & _ & _ & Hmax & _).
  destruct (frame_layout image Hok) as (Hmt & _ & Hlast & Hall & _ & _).
  destruct (Hall t Ht) as (Hsit & Hpos & Hsum & Hstep).
  pose proof (track_end_le_max_lba t Ht) as Hle.
  unfold cbmimage_i_blockaddress_advance, cbmimage_blockaddress_lba_exists.
  cbn [CBMIMAGE_BLOCK_INIT ts track sector lba]. rewrite Hrel. cbn [andb].
  destruct (_ && _) eqn:E; zbool; [|lia]. cbn [negb].
  rewrite (u16_small (s + 1)) by lia.
  rewrite (u16_small (cbmimage_get_sectors_in_track image t)) by lia.
  destruct (s + 1 <? _) eqn:E1; zbool.
  - destruct (_ <=? s + 1) eqn:E2; zbool; [lia|].
    replace (first_lba image t + s + 1) with (first_lba image t + (s + 1)) by lia.
    rewrite block_of_lba_at by lia.
    unfold set_lba, CBMIMAGE_TS_SET, CBMIMAGE_BLOCK_INIT. cbn [ts lba].
    rewrite !u8_small, u16_small by lia. reflexivity.
  - destruct (_ <=? s + 1) eqn:E2; zbool; [|lia].
    destruct in_track; [reflexivity|]. cbn [orb].
    rewrite (u16_small (t + 1)) by lia.
    destruct (t =? _) eqn:E3; zbool.
    + destruct (_ <? t + 1) eqn:E4; zbool; [reflexivity|lia].
    + destruct (_ <? t + 1) eqn:E4; zbool; [lia|].
      destruct (Hall (t + 1) ltac:(lia)) as (Hsit' & _ & Hsum' & _).
      replace (first_lba image t + s + 1) with (first_lba image (t + 1) + 0)
        by (rewrite (Hstep ltac:(lia)); lia).
      rewrite block_of_lba_at by lia.
      unfold set_lba, CBMIMAGE_TS_SET, CBMIMAGE_BLOCK_INIT. cbn [ts lba].
      rewrite !u8_small, u16_small by lia. reflexivity.
Qed.

End Advance.

(** One step of [cbmimage_blockaddress_advance] in terms of LBAs. *)
Lemma blockaddress_advance_lba (image : cbmimage_fileimage) (l : Z) :
  image_ok image = true ->
  1 <= l <= cbmimage_get_max_lba image ->
  cbmimage_blockaddress_advance image (block_of_lba image l)
  = if l <? cbmimage_get_max_lba image
    then (0, block_of_lba image (l + 1))
    else (-1, block_of_lba image l).
Proof.
  intros Hok Hl.
  destruct (block_of_lba_existing image Hok l Hl) as (t & s & Hs & Ht & Hlt & El & ->).
  unfold cbmimage_blockaddress_advance.
  rewrite (blockaddress_advance_existing image Hok l t s false Hs Ht Hlt El).
  destruct (frame_layout image Hok) as (Hmt & _ & Hlast & Hall & _ & _).
  destruct (Hall t Ht) as (Hsit & Hpos & Hsum & Hstep).
  pose proof (track_end_le_max_lba image Hok t Ht) as Hend.
  cbn [orb].
  destruct (s + 1 <? _) eqn:E1; zbool.
  - destruct (l <? _) eqn:E2; zbool; [reflexivity|lia].
  - destruct (t =? _) eqn:E3; zbool.
    + subst t. destruct (l <? _) eqn:E2; zbool; [lia|reflexivity].
    + destruct (l <? _) eqn:E2; zbool; [reflexivity|].
      pose proof (track_end_le_max_lba image Hok (t + 1) ltac:(lia)) as Hend'.
      destruct (Hall (t + 1) ltac:(lia)) as (Hsit' & _).
      rewrite (Hstep ltac:(lia)) in Hend'. lia.
Qed.

(** X5. On a well-formed image [cbmimage_blockaddress_advance] walks the
    blocks in LBA order: from the block of LBA [l] it steps to the block of
    LBA [l + 1], with track and sector as the conversion from LBAs gives
    them; on the last block it fails with -1 and leaves the block address
    as it is. *)
Theorem blockaddress_advance_next (image : cbmimage_fileimage) (l : Z) :
  image_ok image = true ->
  1 <= l <= cbmimage_get_max_lba image ->
  cbmimage_blockaddress_advance image (block_of_lba image l)
  = if l <? cbmimage_get_max_lba image
    then (0, block_of_lba image (l + 1))
    else (-1, block_of_lba image l).
Proof. exact (blockaddress_advance_lba image l). Qed.

Lemma blockaddress_advance_next_witness :
  cbmimage_blockaddress_advance d64_blank (CBMIMAGE_BLOCK_INIT 17 20 357)
  = (0, CBMIMAGE_BLOCK_INIT 18 0 358)
  /\ cbmimage_blockaddress_advance d64_blank (CBMIMAGE_BLOCK_INIT 35 16 683)
  = (-1, CBMIMAGE_BLOCK_INIT 35 16 683).
Proof.
  split.
  - exact (blockaddress_advance_next d64_blank 357 eq_refl
             ltac:(vm_compute; split; discriminate)).
  - exact (blockaddress_advance_next d64_blank 683 eq_refl
             ltac:(vm_compute; split; discriminate)).
Defined.

(** X6. On a well-formed image [cbmimage_blockaddress_advance_in_track]
    steps to the block of the next LBA as long as that block is on the same
    track, and then the track member is unchanged; from the last sector of
    a track it fails with -1 and leaves the block address as it is. *)
Theorem blockaddress_advance_in_track_stays (image : cbmimage_fileimage) (l : Z) :
  image_ok image = true ->
  1 <= l <= cbmimage_get_max_lba image ->
  let b := block_of_lba image l in
  cbmimage_blockaddress_advance_in_track image b
  = (if sector (ts b) + 1 <? cbmimage_get_sectors_in_track image (track (ts b))
     then (0, block_of_lba image (l + 1))
     else (-1, b))
  /\ (fst (cbmimage_blockaddress_advance_in_track image b) = 0 ->
      track (ts (snd (cbmimage_blockaddress_advance_in_track image b))) = track (ts b)).
Proof.
  intros Hok Hl. cbn zeta.
  destruct (block_of_lba_existing image Hok l Hl) as (t & s & Hs & Ht & Hlt & El & Hb).
  rewrite Hb. unfold cbmimage_blockaddress_advance_in_track.
  rewrite (blockaddress_advance_existing image Hok l t s true Hs Ht Hlt El).
  cbn [CBMIMAGE_BLOCK_INIT ts track sector orb].
  destruct (s + 1 <? _) eqn:E1; zbool; cbn [fst snd].
  - split; [reflexivity|]. intros _.
    replace (l + 1) with (first_lba image t + (s + 1)) by lia.
    rewrite (block_of_lba_at image Hok) by lia. reflexivity.
  - split; [reflexivity|]. discriminate.
Qed.

Lemma blockaddress_advance_in_track_stays_witness :
  cbmimage_blockaddress_advance_in_track d64_blank (CBMIMAGE_BLOCK_INIT 17 20 357)
  = (-1, CBMIMAGE_BLOCK_INIT 17 20 357)
  /\ cbmimage_blockaddress_advance_in_track d64_blank (CBMIMAGE_BLOCK_INIT 17 19 356)
  = (0, CBMIMAGE_BLOCK_INIT 17 20 357).
Proof.
  split.
  - exact (proj1 (blockaddress_advance_in_track_stays d64_blank 357 eq_refl
                    ltac:(vm_compute; split; discriminate))).
  - exact (proj1 (blockaddress_advance_in_track_stays d64_blank 356 eq_refl
                    ltac:(vm_compute; split; discriminate))).
Defined.

(** ** Reading and writing blocks (lib/readwriteblock.c) *)

(** Copying [n] bytes out of a list that holds at least [n]. *)
Lemma map_seq_firstn (data : list Z) :
  forall (n : nat) (f : nat -> Z),
    (n <= length data)%nat ->
    (forall i, (i < n)%nat -> f i = nth i data 0) ->
    map f (seq 0 n) = firstn n data.
Proof.
  induction data as [|x data IH]; intros n f Hn Hf.
  - cbn in Hn. replace n with 0%nat by lia. reflexivity.
  - destruct n as [|n]; [reflexivity|].
    cbn [seq map firstn]. f_equal; [apply (Hf 0%nat); lia|].
    rewrite <- seq_shift, map_map. apply IH; [cbn in Hn; lia|].
    intros i Hi. apply (Hf (S i)). lia.
Qed.

Section ReadWrite.

Variable image : cbmimage_fileimage.
Hypothesis Hok : image_ok image = true.

(** The pointer to a block depends on the LBA member only: it is NULL when
    the LBA does not exist, and points 256 * (LBA - 1) bytes into the buffer
    otherwise. *)
Lemma get_address_of_block_by_lba (b : cbmimage_blockaddress) :
  0 <= lba b < 65536 ->
  cbmimage_i_get_address_of_block image b
  = if cbmimage_blockaddress_lba_exists image (lba b)
    then Some ((lba b - 1) * 256) else None.
Proof.
  intros Hl. unfold cbmimage_blockaddress_lba_exists.
  destruct (_ && _) eqn:E; zbool.
  - apply (cbmimage_i_get_address_of_block_ok image b Hok). lia.
  - destruct (image_ok_facts image Hok) as (_ & Hrel & _).
    unfold cbmimage_i_get_address_of_block, cbmimage_i_adjust_relative_address.
    rewrite Hrel. cbn [truthy Z.eqb negb].
    destruct (_ && _) eqn:E'; zbool; [lia|reflexivity].
Qed.

Lemma get_address_of_block_with_buffer buf (b : cbmimage_blockaddress) :
  cbmimage_i_get_address_of_block (with_buffer image buf) b
  = cbmimage_i_get_address_of_block image b.
Proof. reflexivity. Qed.

Lemma rd_store_bytes_inside buf p data i :
  0 <= i < 256 ->
  rd (with_buffer image (store_bytes buf p 256 data)) (Some p) i = u8 (zidx data i).
Proof.
  intros Hi. unfold rd, with_buffer, store_bytes. cbn [parameter buffer].
  destruct (_ && _) eqn:E; zbool; [|lia].
  replace (p + i - p) with i by lia. reflexivity.
Qed.

Lemma rd_store_bytes_outside buf p data q i :
  q + i < p \/ p + 256 <= q + i ->
  rd (with_buffer image (store_bytes buf p 256 data)) (Some q) i
  = u8 (buf (q + i)).
Proof.
  intros Hi. unfold rd, with_buffer, store_bytes. cbn [parameter buffer].
  destruct (_ && _) eqn:E; zbool; [lia|reflexivity].
Qed.

End ReadWrite.

(** X7. On a well-formed image, for a block address that passes the two
    assertions of [cbmimage_i_get_address_of_block] ([block.lba > 0] and
    [block.ts.track > 0]), the address of the block is decided by the LBA
    member: NULL when the LBA lies behind the last block of the image, the
    offset 256 * (LBA - 1) otherwise, and then the whole block lies inside
    the buffer (which is what [assert(buffer_offset <= size -
    bytes_in_block)] asks for). *)
Theorem get_address_of_block_in_bounds
    (image : cbmimage_fileimage) (b : cbmimage_blockaddress) :
  image_ok image = true ->
  1 <= lba b < 65536 ->
  1 <= track (ts b) ->
  cbmimage_i_get_address_of_block image b
  = (if lba b <=? cbmimage_get_max_lba image
     then Some ((lba b - 1) * 256) else None)
  /\ forall p, cbmimage_i_get_address_of_block image b = Some p ->
       0 <= p /\ p + cbmimage_get_bytes_in_block image <= size (parameter image).
Proof.
  intros Hok Hl _.
  assert (Hl' : 0 <= lba b < 65536) by lia.
  assert (Hex : cbmimage_blockaddress_lba_exists image (lba b)
                = (lba b <=? cbmimage_get_max_lba image)).
  { unfold cbmimage_blockaddress_lba_exists.
    destruct (0 <? lba b) eqn:E; zbool; [reflexivity | lia]. }
  rewrite (get_address_of_block_by_lba image Hok b Hl'), Hex.
  split; [reflexivity|].
  intros p.
  destruct (image_ok_facts image Hok) as (_ & _ & _ & Hbib & Hmax & Hsz).
  unfold cbmimage_get_bytes_in_block. rewrite Hbib.
  destruct (_ <=? _) eqn:E; zbool; [|discriminate].
  intros [= <-]. lia.
Qed.

(** Block 18/0 of the D64 image, and the address 35/17 with LBA 684, one
    behind the last block. *)
Lemma get_address_of_block_in_bounds_witness :
  cbmimage_i_get_address_of_block d64_blank (CBMIMAGE_BLOCK_INIT 18 0 358) = Some 91392
  /\ cbmimage_i_get_address_of_block d64_blank (CBMIMAGE_BLOCK_INIT 35 17 684) = None.
Proof.
  split.
  - exact (proj1 (get_address_of_block_in_bounds d64_blank (CBMIMAGE_BLOCK_INIT 18 0 358)
                    eq_refl ltac:(cbn; lia) ltac:(cbn; lia))).
  - exact (proj1 (get_address_of_block_in_bounds d64_blank (CBMIMAGE_BLOCK_INIT 35 17 684)
                    eq_refl ltac:(cbn; lia) ltac:(cbn; lia))).
Defined.

(** X8. Write, then read: on a well-formed image, writing 256 bytes to a
    block whose LBA exists succeeds, and reading that block afterwards
    delivers exactly these bytes; the status of the read is the second byte
    written when the first one is zero, and 0 otherwise. *)
Theorem write_block_then_read
    (image : cbmimage_fileimage) (b : cbmimage_blockaddress)
    (data : list Z) (buffersize buffersize' : Z) :
  image_ok image = true ->
  1 <= lba b <= cbmimage_get_max_lba image ->
  256 <= buffersize -> 256 <= buffersize' ->
  (256 <= length data)%nat ->
  Forall (fun x => 0 <= x < 256) data ->
  let w := cbmimage_write_block image b (Some data) buffersize in
  fst w = 0
  /\ settings (snd w) = settings image
  /\ cbmimage_read_block (snd w) b true buffersize'
     = (if zidx data 0 =? 0 then zidx data 1 else 0, Some (firstn 256 data)).
Proof.
  intros Hok Hl Hsz Hsz' Hlen Hbytes. cbn zeta.
  destruct (image_ok_facts image Hok) as (_ & _ & _ & Hbib & _).
  assert (Hbyte : forall i, 0 <= i < 256 -> u8 (zidx data i) = zidx data i).
  { intros i Hi. apply u8_small. unfold zidx.
    rewrite Forall_forall in Hbytes. apply Hbytes.
    apply list_elem_of_In, nth_In. lia. }
  unfold cbmimage_write_block.
  rewrite (cbmimage_i_get_address_of_block_ok image b Hok Hl).
  unfold cbmimage_get_bytes_in_block. rewrite Hbib.
  destruct (256 <=? buffersize) eqn:E; zbool; [|lia]. cbn [fst snd].
  split; [reflexivity|]. split; [reflexivity|].
  unfold cbmimage_read_block. rewrite get_address_of_block_with_buffer.
  rewrite (cbmimage_i_get_address_of_block_ok image b Hok Hl).
  unfold cbmimage_get_bytes_in_block. cbn [with_buffer settings]. rewrite Hbib.
  destruct (256 <=? buffersize') eqn:E'; zbool; [|lia]. cbn [andb].
  rewrite !rd_store_bytes_inside by lia. rewrite !Hbyte by lia.
  assert (Hcopy : map (fun i : nat =>
                    rd (with_buffer image
                          (store_bytes (buffer (parameter image)) ((lba b - 1) * 256) 256 data))
                       (Some ((lba b - 1) * 256)) (Z.of_nat i))
                    (seq 0 (Z.to_nat 256))
                  = firstn 256 data).
  { apply map_seq_firstn; [exact Hlen|].
    intros i Hi. rewrite rd_store_bytes_inside by lia. rewrite Hbyte by lia.
    unfold zidx. rewrite Nat2Z.id. reflexivity. }
  rewrite Hcopy. destruct (zidx data 0 =? 0); reflexivity.
Qed.

Lemma write_block_then_read_witness :
  cbmimage_read_block
    (snd (cbmimage_write_block d64_blank (CBMIMAGE_BLOCK_INIT 1 0 1)
            (Some (0 :: 3 :: replicate 254 7)) 256))
    (CBMIMAGE_BLOCK_INIT 1 0 1) true 256
  = (3, Some (0 :: 3 :: replicate 254 7)).
Proof.
  pose proof (write_block_then_read d64_blank (CBMIMAGE_BLOCK_INIT 1 0 1)
                (0 :: 3 :: replicate 254 7) 256 256 eq_refl
                ltac:(vm_compute; split; discriminate) ltac:(lia) ltac:(lia)
                ltac:(cbn; lia)
                ltac:(repeat constructor; lia)) as H.
  cbn zeta in H. exact (proj2 (proj2 H)).
Defined.

(** X9. Writing a block changes nothing else: no byte of the buffer outside
    the 256 bytes of the block, and hence no other block of the image as
    [cbmimage_read_block] delivers it. *)
Theorem write_block_leaves_other_blocks
    (image : cbmimage_fileimage) (b b' : cbmimage_blockaddress)
    (data : list Z) (buffersize buffersize' : Z) :
  image_ok image = true ->
  1 <= lba b <= cbmimage_get_max_lba image ->
  1 <= lba b' <= cbmimage_get_max_lba image ->
  lba b' <> lba b ->
  (256 <= length data)%nat ->
  let image' := snd (cbmimage_write_block image b (Some data) buffersize) in
  (forall i, i < (lba b - 1) * 256 \/ lba b * 256 <= i ->
     buffer (parameter image') i = buffer (parameter image) i)
  /\ cbmimage_read_block image' b' true buffersize'
     = cbmimage_read_block image b' true buffersize'.
Proof.
  intros Hok Hl Hl' Hne _. cbn zeta.
  destruct (image_ok_facts image Hok) as (_ & _ & _ & Hbib & _).
  unfold cbmimage_write_block.
  rewrite (cbmimage_i_get_address_of_block_ok image b Hok Hl).
  unfold cbmimage_get_bytes_in_block. rewrite Hbib.
  destruct (256 <=? buffersize) eqn:E; cbn [snd]; [|split; reflexivity].
  split.
  - intros i Hi. unfold with_buffer, store_bytes. cbn [parameter buffer].
    destruct (_ && _) eqn:E'; zbool; [lia|reflexivity].
  - unfold cbmimage_read_block. rewrite get_address_of_block_with_buffer.
    rewrite (cbmimage_i_get_address_of_block_ok image b' Hok Hl').
    unfold cbmimage_get_bytes_in_block. cbn [with_buffer settings]. rewrite Hbib.
    destruct (true && _); [|reflexivity].
    assert (Hrd : forall i, 0 <= i < 256 ->
              rd (with_buffer image
                    (store_bytes (buffer (parameter image)) ((lba b - 1) * 256) 256 data))
                 (Some ((lba b' - 1) * 256)) i
              = rd image (Some ((lba b' - 1) * 256)) i).
    { intros i Hi. rewrite rd_store_bytes_outside by lia. reflexivity. }
    rewrite !Hrd by lia.
    assert (Hmap : map (fun i : nat =>
                      rd (with_buffer image
                            (store_bytes (buffer (parameter image)) ((lba b - 1) * 256)
                               256 data))
                         (Some ((lba b' - 1) * 256)) (Z.of_nat i))
                     (seq 0 (Z.to_nat 256))
                   = map (fun i : nat => rd image (Some ((lba b' - 1) * 256)) (Z.of_nat i))
                       (seq 0 (Z.to_nat 256))).
    { apply map_ext_in. intros n Hn. apply in_seq in Hn. apply Hrd. lia. }
    rewrite Hmap. reflexivity.
Qed.

Lemma write_block_leaves_other_blocks_witness :
  cbmimage_read_block
    (snd (cbmimage_write_block d64_short_info (CBMIMAGE_BLOCK_INIT 1 0 1)
            (Some (replicate 256 7)) 256))
    (CBMIMAGE_BLOCK_INIT 18 0 358) true 256
  = cbmimage_read_block d64_short_info (CBMIMAGE_BLOCK_INIT 18 0 358) true 256.
Proof.
  exact (proj2 (write_block_leaves_other_blocks d64_short_info
                  (CBMIMAGE_BLOCK_INIT 1 0 1) (CBMIMAGE_BLOCK_INIT 18 0 358)
                  (replicate 256 7) 256 256 eq_refl
                  ltac:(vm_compute; split; discriminate)
                  ltac:(vm_compute; split; discriminate)
                  ltac:(cbn; lia)
                  ltac:(rewrite length_replicate; lia))).
Defined.

(** X10. The error return of the two block functions on a well-formed
    image, for a call that passes their assertions (a buffer that is not
    NULL and has at least the size of a block, a block address with
    [lba > 0] and [ts.track > 0]): when the LBA of the block address lies
    behind the last block of the image, [cbmimage_write_block] returns -1
    and leaves the image as it is, and [cbmimage_read_block] returns -1 and
    copies nothing - not even a part of a block. *)
Theorem read_write_block_reject
    (image : cbmimage_fileimage) (b : cbmimage_blockaddress)
    (data : list Z) (buffersize : Z) :
  image_ok image = true ->
  cbmimage_get_max_lba image < lba b < 65536 ->
  1 <= track (ts b) ->
  cbmimage_get_bytes_in_block image <= buffersize ->
  cbmimage_write_block image b (Some data) buffersize = (-1, image)
  /\ cbmimage_read_block image b true buffersize = (-1, None).
Proof.
  intros Hok Hl _ _.
  destruct (image_ok_facts image Hok) as (_ & _ & _ & _ & Hmax & _).
  unfold cbmimage_write_block, cbmimage_read_block.
  rewrite (get_address_of_block_by_lba image Hok b) by lia.
  unfold cbmimage_blockaddress_lba_exists.
  destruct (_ && _) eqn:E; zbool; [lia|]. split; reflexivity.
Qed.

(** The address 35/17 with LBA 684, one behind the last block of the D64
    image. *)
Lemma read_write_block_reject_witness :
  cbmimage_write_block d64_blank (CBMIMAGE_BLOCK_INIT 35 17 684)
    (Some (replicate 256 7)) 256 = (-1, d64_blank)
  /\ cbmimage_read_block d64_blank (CBMIMAGE_BLOCK_INIT 35 17 684) true 256 = (-1, None).
Proof.
  refine (read_write_block_reject d64_blank (CBMIMAGE_BLOCK_INIT 35 17 684)
            (replicate 256 7) 256 eq_refl _ _ _).
  - vm_compute. split; reflexivity.
  - cbn. lia.
  - vm_compute. discriminate.
Defined.

(** ** Block accessors (lib/blockaccessor.c) *)

Section Accessor.

Variable image : cbmimage_fileimage.
Hypothesis Hok : image_ok image = true.

Lemma ts_init_from_ts (b : cbmimage_blockaddress) :
  ts (snd (cbmimage_blockaddress_init_from_ts image b)) = ts b.
Proof.
  unfold cbmimage_blockaddress_init_from_ts.
  destruct (ts_to_blockaddress (fct (settings image))) as [[]|].
  - unfold d40_d64_d71_ts_to_blockaddress. destruct (_ || _); reflexivity.
  - unfold cbmimage_i_generic_ts_to_blockaddress. destruct (negb _); reflexivity.
Qed.

(** The accessor of an existing track/sector pair. *)
Lemma set_to_existing_ts a t s :
  0 <= s ->
  cbmimage_blockaddress_ts_exists image t s = true ->
  cbmimage_blockaccessor_set_to image a (CBMIMAGE_BLOCK_INIT t s (first_lba image t + s))
  = (0, {| acc_block := CBMIMAGE_BLOCK_INIT t s (first_lba image t + s);
           acc_data := Some ((first_lba image t + s - 1) * 256) |}).
Proof.
  intros Hs Hex.
  destruct (frame_layout image Hok) as (_ & _ & _ & Hall & Hexi & _).
  apply Hexi in Hex; [|exact Hs]. destruct Hex as (Ht & Hlt).
  destruct (Hall t Ht) as (Hsit & Hpos & _).
  pose proof (track_end_le_max_lba image Hok t Ht) as Hend.
  apply (set_to_existing image Hok); cbn [CBMIMAGE_BLOCK_INIT ts track sector lba]; lia.
Qed.

(** A block address whose track and sector do not exist is refused. *)
Lemma set_to_missing_ts a b :
  0 <= sector (ts b) ->
  cbmimage_blockaddress_ts_exists image (track (ts b)) (sector (ts b)) = false ->
  cbmimage_blockaccessor_set_to image a b
  = (0, {| acc_block := cbmimage_block_unused; acc_data := None |}).
Proof.
  intros Hs Hex.
  destruct (frame_layout image Hok) as (_ & _ & _ & _ & Hexi & _).
  unfold cbmimage_blockaccessor_set_to.
  destruct (_ && _) eqn:E; [|reflexivity]. zbool.
  assert (H : cbmimage_blockaddress_ts_exists image (track (ts b)) (sector (ts b)) = true)
    by (apply Hexi; lia).
  congruence.
Qed.

End Accessor.

(** X11. Setting an accessor by a track and sector that exist on the
    image (which is what the assertions of [cbmimage_blockaccessor_set_to]
    ask for) returns 0, whatever the accessor held before: the accessor then
    holds the block address with its LBA and points 256 * (LBA - 1) bytes
    into the buffer. *)
Theorem blockaccessor_set_to_ts_result
    (image : cbmimage_fileimage) (a : cbmimage_blockaccessor) (t s : Z) :
  image_ok image = true ->
  0 <= t < 256 -> 0 <= s < 256 ->
  cbmimage_blockaddress_ts_exists image t s = true ->
  cbmimage_blockaccessor_set_to_ts image a t s
  = (0, {| acc_block := CBMIMAGE_BLOCK_INIT t s (first_lba image t + s);
           acc_data := Some ((first_lba image t + s - 1) * 256) |})
  /\ cbmimage_blockaddress_lba_exists image (first_lba image t + s) = true.
Proof.
  intros Hok Ht Hs Hex. split.
  - unfold cbmimage_blockaccessor_set_to_ts, CBMIMAGE_BLOCK_SET_FROM_TS.
    destruct (frame_layout image Hok) as (_ & _ & _ & _ & _ & Hconv).
    destruct (Hconv cbmimage_block_unused t s ltac:(lia) Hex) as (Hts & _).
    unfold cbmimage_blockaddress_init_from_ts_value in Hts. rewrite Hts. cbn [snd].
    apply set_to_existing_ts; [exact Hok | lia | exact Hex].
  - destruct (frame_layout image Hok) as (_ & _ & _ & Hall & Hexi & _).
    apply Hexi in Hex; [|lia]. destruct Hex as (Htr & Hlt).
    destruct (Hall t Htr) as (Hsit & Hpos & _).
    pose proof (track_end_le_max_lba image Hok t Htr) as Hend.
    unfold cbmimage_blockaddress_lba_exists.
    destruct (_ && _) eqn:E; zbool; [reflexivity | lia].
Qed.

(** Block 18/1 of the D64 image, for an accessor that held block 18/0. *)
Lemma blockaccessor_set_to_ts_result_witness :
  cbmimage_blockaccessor_set_to_ts d64_blank
    {| acc_block := CBMIMAGE_BLOCK_INIT 18 0 358; acc_data := Some 91392 |} 18 1
  = (0, {| acc_block := CBMIMAGE_BLOCK_INIT 18 1 359; acc_data := Some 91648 |}).
Proof.
  exact (proj1 (blockaccessor_set_to_ts_result d64_blank _ 18 1 eq_refl
                  ltac:(lia) ltac:(lia) eq_refl)).
Defined.

(** [cbmimage_blockaccessor_follow] by the two link bytes. *)
Lemma blockaccessor_follow_cases
    (image : cbmimage_fileimage) (a : cbmimage_blockaccessor) :
  image_ok image = true ->
  let t := rd image (acc_data a) 0 in
  let s := rd image (acc_data a) 1 in
  cbmimage_blockaccessor_follow image a
  = if t =? 0
    then (if s =? 0 then 256 else s,
          {| acc_block := cbmimage_block_unused; acc_data := None |})
    else if cbmimage_blockaddress_ts_exists image t s
         then (0, {| acc_block := CBMIMAGE_BLOCK_INIT t s (first_lba image t + s);
                     acc_data := Some ((first_lba image t + s - 1) * 256) |})
         else (-1, {| acc_block := cbmimage_block_unused; acc_data := None |}).
Proof.
  intros Hok. cbn zeta.
  pose proof (rd_range image (acc_data a) 0) as Ht.
  pose proof (rd_range image (acc_data a) 1) as Hs.
  set (t := rd image (acc_data a) 0) in *. set (s := rd image (acc_data a) 1) in *.
  destruct (frame_layout image Hok) as (_ & _ & _ & _ & Hexi & Hconv).
  unfold cbmimage_blockaccessor_follow, cbmimage_blockaccessor_get_next_block.
  fold t s.
  destruct (t =? 0) eqn:E0; zbool.
  - destruct (s =? 0) eqn:Es; zbool; cbn [Z.eqb].
    + reflexivity.
    + destruct (s =? 0) eqn:Es'; zbool; [lia|reflexivity].
  - destruct (cbmimage_blockaddress_ts_exists image t s) eqn:Hex.
    + pose proof (proj1 (Hexi t s ltac:(lia)) Hex) as (Htr & Hlt).
      destruct (t <=? _) eqn:E1; zbool; [|lia].
      destruct (s <? _) eqn:E2; zbool; [|lia].
      destruct (Hconv cbmimage_block_unused t s ltac:(lia) Hex) as (-> & _).
      cbn [Z.eqb]. rewrite (set_to_existing_ts image Hok a t s ltac:(lia) Hex).
      reflexivity.
    + destruct (t <=? _) eqn:E1; zbool; [|reflexivity].
      destruct (s <? _) eqn:E2; zbool; [|reflexivity].
      assert (H : cbmimage_blockaddress_ts_exists image t s = true)
        by (apply Hexi; lia).
      congruence.
Qed.

(** X12. Following the link of the block an accessor points at, on a
    well-formed image: a link with track 0 ends the chain, the call returns
    the number of valid bytes (256 for a link sector of 0) and releases the
    accessor; a link to a track/sector pair that exists moves the accessor
    to that block and returns 0; any other link returns -1 and releases the
    accessor. *)
Theorem blockaccessor_follow_result
    (image : cbmimage_fileimage) (a : cbmimage_blockaccessor) :
  image_ok image = true ->
  acc_data a <> None ->
  let t := rd image (acc_data a) 0 in
  let s := rd image (acc_data a) 1 in
  cbmimage_blockaccessor_follow image a
  = if t =? 0
    then (if s =? 0 then 256 else s,
          {| acc_block := cbmimage_block_unused; acc_data := None |})
    else if cbmimage_blockaddress_ts_exists image t s
         then (0, {| acc_block := CBMIMAGE_BLOCK_INIT t s (first_lba image t + s);
                     acc_data := Some ((first_lba image t + s - 1) * 256) |})
         else (-1, {| acc_block := cbmimage_block_unused; acc_data := None |}).
Proof. intros Hok _. exact (blockaccessor_follow_cases image a Hok). Qed.

Lemma blockaccessor_follow_result_witness :
  cbmimage_blockaccessor_follow d64_self_loop
    {| acc_block := CBMIMAGE_BLOCK_INIT 17 0 337; acc_data := Some 86016 |}
  = (0, {| acc_block := CBMIMAGE_BLOCK_INIT 17 0 337; acc_data := Some 86016 |})
  /\ cbmimage_blockaccessor_follow d64_short_info
       {| acc_block := CBMIMAGE_BLOCK_INIT 18 0 358; acc_data := Some 91392 |}
     = (10, {| acc_block := cbmimage_block_unused; acc_data := None |}).
Proof.
  split.
  - refine (blockaccessor_follow_result d64_self_loop
              {| acc_block := CBMIMAGE_BLOCK_INIT 17 0 337; acc_data := Some 86016 |}
              eq_refl _).
    discriminate.
  - refine (blockaccessor_follow_result d64_short_info
              {| acc_block := CBMIMAGE_BLOCK_INIT 18 0 358; acc_data := Some 91392 |}
              eq_refl _).
    discriminate.
Defined.

(** X13. Advancing an accessor that stands on the block of LBA [l] of a
    well-formed image moves it to the block of LBA [l + 1], with the data
    pointer 256 bytes further; on the last block of the image the call
    returns -1 and releases the accessor. *)
Theorem blockaccessor_advance_result
    (image : cbmimage_fileimage) (a : cbmimage_blockaccessor) (l : Z) :
  image_ok image = true ->
  1 <= l <= cbmimage_get_max_lba image ->
  acc_block a = block_of_lba image l ->
  cbmimage_blockaccessor_advance image a
  = if l <? cbmimage_get_max_lba image
    then (0, {| acc_block := block_of_lba image (l + 1); acc_data := Some (l * 256) |})
    else (-1, {| acc_block := cbmimage_block_unused; acc_data := None |}).
Proof.
  intros Hok Hl Ha. unfold cbmimage_blockaccessor_advance. rewrite Ha.
  rewrite (blockaddress_advance_lba image l Hok Hl).
  destruct (l <? _) eqn:E; zbool; [|reflexivity]. cbn [Z.eqb].
  destruct (block_of_lba_existing image Hok (l + 1) ltac:(lia))
    as (t & s & Hs & Ht & Hlt & El & ->).
  rewrite (set_to_existing image Hok);
    cbn [CBMIMAGE_BLOCK_INIT ts track sector lba snd]; try lia.
  do 3 f_equal. lia.
Qed.

Lemma blockaccessor_advance_result_witness :
  cbmimage_blockaccessor_advance d64_blank
    {| acc_block := CBMIMAGE_BLOCK_INIT 17 20 357; acc_data := Some 91136 |}
  = (0, {| acc_block := CBMIMAGE_BLOCK_INIT 18 0 358; acc_data := Some 91392 |}).
Proof.
  exact (blockaccessor_advance_result d64_blank
           {| acc_block := CBMIMAGE_BLOCK_INIT 17 20 357; acc_data := Some 91136 |} 357
           eq_refl ltac:(vm_compute; split; discriminate) eq_refl).
Defined.

(** X14. [cbmimage_read_next_block] reads along the link in the first two
    bytes of the caller's buffer: with link track 0 it returns -1 and
    touches neither the buffer nor the block address (the end of a chain is
    reported as an error);
    with a link to a track/sector pair that exists it stores the block
    address of that pair and behaves as [cbmimage_read_block] on it. *)
Theorem read_next_block_follows_link
    (image : cbmimage_fileimage) (caller_buffer : list Z) (buffersize : Z) :
  image_ok image = true ->
  (2 <= length caller_buffer)%nat ->
  let t := u8 (zidx caller_buffer 0) in
  let s := u8 (zidx caller_buffer 1) in
  (t = 0 -> cbmimage_read_next_block image caller_buffer buffersize = (-1, None, None))
  /\ (cbmimage_blockaddress_ts_exists image t s = true ->
      let b := CBMIMAGE_BLOCK_INIT t s (first_lba image t + s) in
      cbmimage_read_next_block image caller_buffer buffersize
      = (fst (cbmimage_read_block image b true buffersize), Some b,
         snd (cbmimage_read_block image b true buffersize))).
Proof.
  intros Hok _. cbn zeta.
  pose proof (u8_range (zidx caller_buffer 0)) as Ht.
  pose proof (u8_range (zidx caller_buffer 1)) as Hs.
  unfold cbmimage_read_next_block.
  set (t := u8 (zidx caller_buffer 0)) in *. set (s := u8 (zidx caller_buffer 1)) in *.
  split.
  - intros ->. reflexivity.
  - intros Hex.
    destruct (frame_layout image Hok) as (_ & _ & _ & _ & Hexi & Hconv).
    pose proof (proj1 (Hexi t s ltac:(lia)) Hex) as (Htr & _).
    destruct (t =? 0) eqn:E; zbool; [lia|].
    destruct (Hconv (CBMIMAGE_BLOCK_INIT t s 0) t s ltac:(lia) Hex) as (Hts & _).
    unfold cbmimage_blockaddress_init_from_ts_value, CBMIMAGE_TS_SET in Hts.
    cbn [CBMIMAGE_BLOCK_INIT lba] in Hts. rewrite !u8_small in Hts by lia.
    unfold CBMIMAGE_BLOCK_INIT at 1. rewrite Hts. cbn [truthy Z.eqb negb].
    destruct (cbmimage_read_block image _ true buffersize) as [ret copied].
    reflexivity.
Qed.

Lemma read_next_block_follows_link_witness :
  cbmimage_read_next_block d64_short_info (17 :: 0 :: replicate 254 0) 256
  = (0, Some (CBMIMAGE_BLOCK_INIT 17 0 337), Some (replicate 256 0))
  /\ cbmimage_read_next_block d64_short_info (0 :: 10 :: replicate 254 0) 256
     = (-1, None, None).
Proof.
  assert (Hlen : forall x y : Z, (2 <= length (x :: y :: replicate 254 0%Z))%nat)
    by (intros x y; cbn [length]; lia).
  destruct (read_next_block_follows_link d64_short_info (17 :: 0 :: replicate 254 0) 256
              eq_refl (Hlen 17 0)) as (_ & H).
  destruct (read_next_block_follows_link d64_short_info (0 :: 10 :: replicate 254 0) 256
              eq_refl (Hlen 0 10)) as (H0 & _).
  split; [exact (H eq_refl) | exact (H0 eq_refl)].
Defined.

(** ** The loop detector as a set of LBAs (lib/loop.c) *)

Section LoopSet.

Variable image : cbmimage_fileimage.
Hypothesis Hmax : 0 <= cbmimage_get_max_lba image < 65535.

(** A detector of the image: the map has the size that
    [cbmimage_loop_create] gives it. *)
Let loop_for (loop : cbmimage_loop) : Prop :=
  loop_sized loop /\ loop_map_size loop = (cbmimage_get_max_lba image + 1 + 7) / 8.

Lemma loop_create_for : loop_for (cbmimage_loop_create image).
Proof.
  split; [apply cbmimage_loop_create_sized|].
  unfold cbmimage_loop_create. cbn [loop_map_size]. rewrite u16_small by lia. reflexivity.
Qed.

Lemma loop_byte_in_map loop l :
  loop_for loop -> 0 <= l <= cbmimage_get_max_lba image ->
  0 <= l / 8 < loop_map_size loop
  /\ (Z.to_nat (l / 8) < length (loop_map loop))%nat
  /\ l / 8 < 65536.
Proof.
  intros (Hsz & Hms) Hl. unfold loop_sized in Hsz.
  assert (H0 : 0 <= l / 8) by (apply Z.div_pos; lia).
  assert (H2 : l / 8 <= l) by (apply Z.div_le_upper_bound; lia).
  assert (H1 : l / 8 < (cbmimage_get_max_lba image + 1 + 7) / 8).
  { apply Z.div_lt_upper_bound; [lia|].
    pose proof (Z.mul_div_le (cbmimage_get_max_lba image + 1 + 7) 8 ltac:(lia)).
    pose proof (Z.mod_pos_bound (cbmimage_get_max_lba image + 1 + 7) 8 ltac:(lia)).
    pose proof (Z.div_mod (cbmimage_get_max_lba image + 1 + 7) 8 ltac:(lia)).
    pose proof (Z.div_le_mono (l + 8) (cbmimage_get_max_lba image + 1 + 7) 8
                  ltac:(lia) ltac:(lia)) as Hle.
    replace (l + 8) with (l + 1 * 8) in Hle by lia.
    rewrite Z.div_add in Hle by lia. lia. }
  rewrite Hms, Hsz, Hms. lia.
Qed.

(** A check reads the bit of the LBA; for an LBA that is not one of the
    image it answers -1. *)
Lemma loop_check_bit loop b :
  loop_for loop -> 0 <= lba b ->
  cbmimage_loop_check image loop b
  = if cbmimage_blockaddress_lba_exists image (lba b)
    then Z_of_bool (loop_marked loop (lba b)) else -1.
Proof.
  intros Hfor Hnn. unfold cbmimage_loop_check, cbmimage_blockaddress_lba_exists.
  destruct (_ || _) eqn:E; zbool.
  - destruct (_ && _) eqn:E'; zbool; [lia|reflexivity].
  - destruct (_ && _) eqn:E'; zbool; [|lia].
    destruct (loop_byte_in_map loop (lba b) Hfor ltac:(lia)) as (Hb & _ & Hb').
    pose proof (Z.mod_pos_bound (lba b) 8 ltac:(lia)) as Hmod.
    rewrite (u16_small (lba b / 8)) by lia.
    rewrite (u8_small (lba b mod 8)) by lia.
    destruct (_ <=? _) eqn:E3; zbool; [lia|].
    rewrite land_bit_truthy by lia. reflexivity.
Qed.

(** A mark answers what a check would have answered, and sets the bit of
    the LBA; for an LBA that is not one of the image the detector stays as
    it is. *)
Lemma loop_mark_bit loop b :
  loop_for loop -> 0 <= lba b ->
  fst (fst (cbmimage_loop_mark image loop b)) = cbmimage_loop_check image loop b
  /\ loop_for (snd (fst (cbmimage_loop_mark image loop b)))
  /\ forall l, 0 <= l ->
       loop_marked (snd (fst (cbmimage_loop_mark image loop b))) l
       = loop_marked loop l
         || (cbmimage_blockaddress_lba_exists image (lba b) && (l =? lba b)).
Proof.
  intros Hfor Hnn. unfold cbmimage_loop_mark, cbmimage_loop_check,
    cbmimage_blockaddress_lba_exists.
  destruct (_ || _) eqn:E; zbool.
  - cbn [fst snd]. split; [reflexivity|]. split; [exact Hfor|].
    intros l Hl. destruct (_ && _) eqn:E'; zbool; [lia|]. cbn. rewrite orb_false_r.
    reflexivity.
  - destruct (_ && _) eqn:E'; zbool; [|lia].
    destruct (loop_byte_in_map loop (lba b) Hfor ltac:(lia)) as (Hb & Hlen & Hb').
    pose proof (Z.mod_pos_bound (lba b) 8 ltac:(lia)) as Hmod.
    rewrite (u16_small (lba b / 8)) by lia.
    rewrite (u8_small (lba b mod 8)) by lia.
    destruct (_ <=? _) eqn:E3; zbool; [lia|].
    cbn [fst snd]. split; [reflexivity|]. split.
    + destruct Hfor as (Hsz & Hms). split; [|exact Hms].
      unfold loop_sized in *. cbn [loop_map loop_map_size]. rewrite length_insert. exact Hsz.
    + intros l Hl. cbn [andb]. unfold loop_marked, zidx. cbn [loop_map].
      pose proof (Z.mod_pos_bound l 8 ltac:(lia)) as Hmod'.
      destruct (Z.eq_dec (l / 8) (lba b / 8)) as [Hd|Hd].
      * rewrite Hd, nth_lookup, list_lookup_insert_eq by lia. cbn [default from_option].
        unfold id. rewrite u8_lor_bit_testbit by lia. f_equal.
        destruct (Z.eqb_spec (lba b mod 8) (l mod 8)) as [Hm'|Hm'].
        -- symmetry. apply Z.eqb_eq. apply lba_byte_bit_eq; lia.
        -- symmetry. apply Z.eqb_neq. intros ->. lia.
      * rewrite !nth_lookup, list_lookup_insert_ne.
        -- destruct (Z.eqb_spec l (lba b)) as [->|Hne]; [lia|]. rewrite orb_false_r.
           reflexivity.
        -- assert (0 <= l / 8) by (apply Z.div_pos; lia). lia.
Qed.

Lemma loop_create_unmarked l : loop_marked (cbmimage_loop_create image) l = false.
Proof.
  unfold loop_marked, cbmimage_loop_create, zidx. cbn [loop_map].
  rewrite nth_lookup.
  destruct (replicate _ 0 !! _) eqn:E; cbn [default from_option].
  - apply lookup_replicate in E. destruct E as (-> & _). apply Z.bits_0.
  - apply Z.bits_0.
Qed.

Lemma loop_mark_all_bits blocks :
  forall loop, loop_for loop -> Forall (fun b => 0 <= lba b) blocks ->
    loop_for (loop_mark_all image blocks loop)
    /\ forall l, 0 <= l ->
         loop_marked (loop_mark_all image blocks loop) l
         = loop_marked loop l
           || existsb (fun b => cbmimage_blockaddress_lba_exists image (lba b)
                                && (l =? lba b)) blocks.
Proof.
  induction blocks as [|b blocks IH]; intros loop Hfor Hnn.
  - split; [exact Hfor|]. intros l Hl. cbn. rewrite orb_false_r. reflexivity.
  - inversion Hnn as [|b0 bs0 Hb Hrest]; subst.
    destruct (loop_mark_bit loop b Hfor Hb) as (_ & Hfor' & Hbits).
    destruct (IH _ Hfor' Hrest) as (Hfor'' & Hall).
    unfold loop_mark_all in *. cbn [fold_left]. split; [exact Hfor''|].
    intros l Hl. rewrite (Hall l Hl), (Hbits l Hl). cbn [existsb].
    rewrite orb_assoc. reflexivity.
Qed.

End LoopSet.

Lemma existsb_valid_lba (image : cbmimage_fileimage)
    (blocks : list cbmimage_blockaddress) (b : cbmimage_blockaddress) :
  cbmimage_blockaddress_lba_exists image (lba b) = true ->
  existsb (fun x => cbmimage_blockaddress_lba_exists image (lba x) && (lba b =? lba x))
          blocks
  = existsb (fun x => lba x =? lba b) blocks.
Proof.
  intros Eex. induction blocks as [|x blocks IH]; [reflexivity|].
  cbn [existsb]. rewrite IH. f_equal. rewrite (Z.eqb_sym (lba b) (lba x)).
  destruct (Z.eqb_spec (lba x) (lba b)) as [E|E].
  - rewrite E, Eex. reflexivity.
  - apply andb_false_r.
Qed.

(** X15. A loop detector is the set of the LBAs marked so far.  For blocks
    whose LBA exists on the image (1 .. max_lba, which is what the
    assertions of [cbmimage_loop_mark] and [cbmimage_loop_check] ask for):
    after any sequence of [cbmimage_loop_mark] calls on a fresh detector, a
    check of a block answers 1 exactly when the LBA of that block was among
    the blocks marked, and 0 otherwise; a further mark of the block answers
    the same as the check (so the second mark of a block answers 1). *)
Theorem loop_detector_is_set
    (image : cbmimage_fileimage) (blocks : list cbmimage_blockaddress)
    (b : cbmimage_blockaddress) :
  0 <= cbmimage_get_max_lba image < 65535 ->
  Forall (fun x => cbmimage_blockaddress_lba_exists image (lba x) = true) blocks ->
  cbmimage_blockaddress_lba_exists image (lba b) = true ->
  let loop := loop_mark_all image blocks (cbmimage_loop_create image) in
  cbmimage_loop_check image loop b
  = Z_of_bool (existsb (fun x => lba x =? lba b) blocks)
  /\ fst (fst (cbmimage_loop_mark image loop b)) = cbmimage_loop_check image loop b.
Proof.
  intros Hmax Hex Eex. cbn zeta.
  assert (Hpos : forall l, cbmimage_blockaddress_lba_exists image l = true -> 0 <= l).
  { intros l Hl. unfold cbmimage_blockaddress_lba_exists in Hl. zbool. lia. }
  assert (Hnn : Forall (fun x => 0 <= lba x) blocks).
  { induction Hex as [|x rest Hx _ IH]; constructor; [apply Hpos; exact Hx | exact IH]. }
  pose proof (Hpos _ Eex) as Hb.
  destruct (loop_mark_all_bits image Hmax blocks _ (loop_create_for image Hmax) Hnn)
    as (Hfor & Hbits).
  split; [|apply (loop_mark_bit image Hmax _ b Hfor Hb)].
  rewrite (loop_check_bit image Hmax _ b Hfor Hb), Eex.
  rewrite (Hbits (lba b) Hb), loop_create_unmarked. cbn [orb]. f_equal.
  apply existsb_valid_lba. exact Eex.
Qed.

Lemma loop_detector_is_set_witness :
  let loop := loop_mark_all d64_blank
                [CBMIMAGE_BLOCK_INIT 18 0 358; CBMIMAGE_BLOCK_INIT 18 1 359]
                (cbmimage_loop_create d64_blank) in
  cbmimage_loop_check d64_blank loop (CBMIMAGE_BLOCK_INIT 18 1 359) = 1
  /\ cbmimage_loop_check d64_blank loop (CBMIMAGE_BLOCK_INIT 18 2 360) = 0.
Proof.
  cbn zeta. split.
  - refine (proj1 (loop_detector_is_set d64_blank
                     [CBMIMAGE_BLOCK_INIT 18 0 358; CBMIMAGE_BLOCK_INIT 18 1 359]
                     (CBMIMAGE_BLOCK_INIT 18 1 359) _ _ _)).
    + vm_compute. split; [discriminate|reflexivity].
    + constructor; [vm_compute; reflexivity|].
      constructor; [vm_compute; reflexivity|]. constructor.
    + vm_compute. reflexivity.
  - refine (proj1 (loop_detector_is_set d64_blank
                     [CBMIMAGE_BLOCK_INIT 18 0 358; CBMIMAGE_BLOCK_INIT 18 1 359]
                     (CBMIMAGE_BLOCK_INIT 18 2 360) _ _ _)).
    + vm_compute. split; [discriminate|reflexivity].
    + constructor; [vm_compute; reflexivity|].
      constructor; [vm_compute; reflexivity|]. constructor.
    + vm_compute. reflexivity.
Defined.

(** ** The FAT as the set of used blocks (lib/fat.c) *)

Lemma fat_entry_after_store (f : cbmimage_fat) (b b' : cbmimage_blockaddress) (v : Z) :
  (Z.to_nat (lba b) < length (fat_entry f))%nat ->
  0 <= lba b -> 0 <= lba b' ->
  cbmimage_i_fat_get_target_lba (snd (cbmimage_i_fat_set f b v)) b'
  = if lba b' =? lba b then u16 v else cbmimage_i_fat_get_target_lba f b'.
Proof.
  intros Hlen Hb Hb'.
  unfold cbmimage_i_fat_set, cbmimage_i_fat_get_target_lba, zidx. cbn [snd fat_entry].
  rewrite !nth_lookup.
  destruct (Z.eqb_spec (lba b') (lba b)) as [->|Hne].
  - rewrite list_lookup_insert_eq by exact Hlen. reflexivity.
  - rewrite list_lookup_insert_ne by lia. reflexivity.
Qed.

(** X16. The FAT records which blocks are in use: a fresh FAT of an image
    has an entry for every LBA up to max_lba and none of them is used;
    [cbmimage_fat_set] makes exactly its block used, whether the target is a
    block or the unused address that stands for the end of a chain;
    [cbmimage_fat_clear] makes exactly its block unused again. *)
Theorem fat_records_used_blocks
    (image : cbmimage_fileimage) (f : cbmimage_fat)
    (b target b' : cbmimage_blockaddress) :
  (Z.to_nat (lba b) < length (fat_entry f))%nat ->
  (Z.to_nat (lba b') < length (fat_entry f))%nat ->
  0 <= lba b -> 0 <= lba b' -> 0 <= lba target < 65536 ->
  cbmimage_fat_is_used (snd (cbmimage_fat_set f b target)) b'
  = (if lba b' =? lba b then true else cbmimage_fat_is_used f b')
  /\ cbmimage_fat_is_used (snd (cbmimage_fat_clear f b)) b'
     = (if lba b' =? lba b then false else cbmimage_fat_is_used f b')
  /\ (lba b' <= cbmimage_get_max_lba image ->
      cbmimage_fat_is_used (cbmimage_fat_create image) b' = false)
  /\ length (fat_entry (cbmimage_fat_create image))
     = Z.to_nat (cbmimage_get_max_lba image + 1).
Proof.
  intros Hlen _ Hb Hb' Ht.
  unfold cbmimage_fat_is_used, cbmimage_fat_set, cbmimage_fat_clear.
  rewrite !fat_entry_after_store by assumption.
  split; [|split; [|split]].
  - destruct (lba b' =? lba b); [|reflexivity].
    unfold CBMIMAGE_FAT_LASTBLOCK, CBMIMAGE_FAT_UNUSED.
    destruct (Z.eqb_spec (lba target) 0) as [E|E]; [reflexivity|].
    rewrite u16_small by lia.
    destruct (Z.eqb_spec (lba target) 0) as [E'|E']; [lia|reflexivity].
  - destruct (lba b' =? lba b); reflexivity.
  - intros _. unfold cbmimage_fat_create, cbmimage_i_fat_get_target_lba, zidx.
    cbn [fat_entry].
    rewrite nth_lookup.
    destruct (replicate _ 0 !! _) eqn:E; cbn [default from_option]; [|reflexivity].
    apply lookup_replicate in E. destruct E as (-> & _). reflexivity.
  - unfold cbmimage_fat_create. cbn [fat_entry]. apply length_replicate.
Qed.

Lemma fat_records_used_blocks_witness :
  cbmimage_fat_is_used
    (snd (cbmimage_fat_set (cbmimage_fat_create d64_blank)
            (CBMIMAGE_BLOCK_INIT 18 0 358) cbmimage_block_unused))
    (CBMIMAGE_BLOCK_INIT 18 0 358) = true
  /\ cbmimage_fat_is_used
       (snd (cbmimage_fat_set (cbmimage_fat_create d64_blank)
               (CBMIMAGE_BLOCK_INIT 18 0 358) cbmimage_block_unused))
       (CBMIMAGE_BLOCK_INIT 18 1 359) = false.
Proof.
  split.
  - refine (proj1 (fat_records_used_blocks d64_blank (cbmimage_fat_create d64_blank)
                     (CBMIMAGE_BLOCK_INIT 18 0 358) cbmimage_block_unused
                     (CBMIMAGE_BLOCK_INIT 18 0 358) _ _ _ _ _)).
    + vm_compute. lia.
    + vm_compute. lia.
    + cbn. lia.
    + cbn. lia.
    + cbn. lia.
  - refine (proj1 (fat_records_used_blocks d64_blank (cbmimage_fat_create d64_blank)
                     (CBMIMAGE_BLOCK_INIT 18 0 358) cbmimage_block_unused
                     (CBMIMAGE_BLOCK_INIT 18 1 359) _ _ _ _ _)).
    + vm_compute. lia.
    + vm_compute. lia.
    + cbn. lia.
    + cbn. lia.
    + cbn. lia.
Defined.

(** ** The steps of a chain (lib/chain.c) *)

Section ChainSteps.

Variable image : cbmimage_fileimage.
Hypothesis Hok : image_ok image = true.

(** The state of a chain whose detector was created for the image. *)
Let chain_for (c : cbmimage_chain) : Prop :=
  chain_inv c
  /\ loop_map_size (loop_detector c) = (cbmimage_get_max_lba image + 1 + 7) / 8.

Lemma chain_for_detector c :
  chain_for c ->
  loop_sized (loop_detector c)
  /\ loop_map_size (loop_detector c) = (cbmimage_get_max_lba image + 1 + 7) / 8.
Proof. intros ((Hsz & _) & Hms). split; assumption. Qed.

(** What [cbmimage_i_chain_readblock] does with a block that exists. *)
Lemma chain_readblock_existing c t s :
  cbmimage_get_max_lba image < 65535 ->
  chain_for c -> 0 <= s ->
  cbmimage_blockaddress_ts_exists image t s = true ->
  let b := CBMIMAGE_BLOCK_INIT t s (first_lba image t + s) in
  let r := cbmimage_i_chain_readblock image c b in
  let c' := snd (fst r) in
  chain_for c'
  /\ (cbmimage_loop_check image (loop_detector c) b = 0 ->
      block_accessor c' = {| acc_block := b; acc_data := Some ((lba b - 1) * 256) |}
      /\ is_done c' = is_done c /\ is_loop c' = is_loop c
      /\ fst (fst r) = cbmimage_chain_last_result image c'
      /\ cbmimage_loop_check image (loop_detector c') b = 1)
  /\ (cbmimage_loop_check image (loop_detector c) b = 1 ->
      fst (fst r) = -1 /\ is_done c' = true /\ is_loop c' = true
      /\ block_accessor c' = block_accessor c)
  /\ (cbmimage_loop_check image (loop_detector c) b = 0
      \/ cbmimage_loop_check image (loop_detector c) b = 1).
Proof.
  intros Hmax' Hfor Hs Hex. cbn zeta.
  destruct (image_ok_facts image Hok) as (_ & _ & _ & _ & Hmax & _).
  destruct (frame_layout image Hok) as (_ & _ & _ & Hall & Hexi & _).
  pose proof (proj1 (Hexi t s Hs) Hex) as (Ht & Hlt).
  destruct (Hall t Ht) as (Hsit & Hpos & _).
  pose proof (track_end_le_max_lba image Hok t Ht) as Hend.
  set (b := CBMIMAGE_BLOCK_INIT t s (first_lba image t + s)).
  assert (Hlb : 1 <= lba b <= cbmimage_get_max_lba image) by (cbn; lia).
  destruct (chain_for_detector c Hfor) as (Hsz & Hms).
  destruct Hfor as ((_ & Hacc) & _).
  assert (Hmx : 0 <= cbmimage_get_max_lba image < 65535) by lia.
  destruct (loop_mark_bit image Hmx (loop_detector c) b (conj Hsz Hms) ltac:(lia))
    as (Hret & (Hsz' & Hms') & Hbits).
  pose proof (loop_check_bit image Hmx (loop_detector c) b (conj Hsz Hms) ltac:(lia))
    as Hchk.
  assert (Hexl : cbmimage_blockaddress_lba_exists image (lba b) = true)
    by (unfold cbmimage_blockaddress_lba_exists; zbool; lia).
  rewrite Hexl in Hchk.
  unfold cbmimage_i_chain_readblock.
  destruct (cbmimage_loop_mark image (loop_detector c) b) as [[m loop'] log] eqn:Em.
  cbn [fst snd] in Hret, Hsz', Hms', Hbits.
  rewrite Hret, Hchk.
  destruct (loop_marked (loop_detector c) (lba b)) eqn:Emark; cbn [Z_of_bool truthy Z.eqb negb].
  - cbn [fst snd]. split; [split; [split; [exact Hsz'|exact Hacc]|exact Hms']|].
    split; [intros [=]|]. split; [|right; reflexivity].
    intros _. repeat split.
  - pose proof (set_to_existing_ts image Hok (block_accessor c) t s Hs Hex) as Hset.
    fold b in Hset. rewrite Hset. cbn [Z.eqb fst snd].
    split; [split; [split; [exact Hsz'|discriminate]|exact Hms']|].
    split; [|split; [intros [=]|left; reflexivity]].
    intros _. cbn [block_accessor is_done is_loop loop_detector].
    split; [reflexivity|]. split; [reflexivity|]. split; [reflexivity|].
    split; [reflexivity|].
    rewrite (loop_check_bit image Hmx loop' b (conj Hsz' Hms') ltac:(lia)), Hexl.
    rewrite (Hbits (lba b) ltac:(lia)), Hexl, Z.eqb_refl, orb_true_r. reflexivity.
Qed.

(** What [cbmimage_chain_advance] does, by the link of the current block. *)
Lemma chain_advance_cases c :
  cbmimage_get_max_lba image < 65535 ->
  chain_for c ->
  let t := rd image (cbmimage_chain_get_data c) 0 in
  let s := rd image (cbmimage_chain_get_data c) 1 in
  let r := cbmimage_chain_advance image c in
  let c' := snd (fst r) in
  chain_for c'
  /\ (t = 0 ->
      fst (fst r) = (if s =? 0 then 256 else s)
      /\ is_done c' = true /\ is_loop c' = is_loop c
      /\ block_accessor c' = block_accessor c)
  /\ (t <> 0 -> cbmimage_blockaddress_ts_exists image t s = false ->
      fst (fst r) = -1
      /\ is_done c' = true /\ is_loop c' = is_loop c
      /\ block_accessor c' = block_accessor c)
  /\ (cbmimage_blockaddress_ts_exists image t s = true ->
      let b := CBMIMAGE_BLOCK_INIT t s (first_lba image t + s) in
      (cbmimage_loop_check image (loop_detector c) b = 0 ->
       block_accessor c' = {| acc_block := b; acc_data := Some ((lba b - 1) * 256) |}
       /\ is_done c' = is_done c /\ is_loop c' = is_loop c
       /\ fst (fst r) = cbmimage_chain_last_result image c'
       /\ cbmimage_loop_check image (loop_detector c') b = 1)
      /\ (cbmimage_loop_check image (loop_detector c) b = 1 ->
          fst (fst r) = -1 /\ is_done c' = true /\ is_loop c' = true
          /\ block_accessor c' = block_accessor c)
      /\ (cbmimage_loop_check image (loop_detector c) b = 0
          \/ cbmimage_loop_check image (loop_detector c) b = 1)).
Proof.
  intros Hmax' Hfor. cbn zeta. unfold cbmimage_chain_get_data.
  pose proof (rd_range image (acc_data (block_accessor c)) 0) as Ht.
  pose proof (rd_range image (acc_data (block_accessor c)) 1) as Hs.
  set (t := rd image (acc_data (block_accessor c)) 0) in *.
  set (s := rd image (acc_data (block_accessor c)) 1) in *.
  destruct (frame_layout image Hok) as (_ & _ & _ & _ & Hexi & Hconv).
  unfold cbmimage_chain_advance, cbmimage_blockaccessor_get_next_block. fold t s.
  destruct (t =? 0) eqn:E0; zbool.
  - (* the link ends the chain *)
    assert (Hne : ((if s =? 0 then 256 else s) =? 0) = false)
      by (destruct (Z.eqb_spec s 0); apply Z.eqb_neq; lia).
    rewrite Hne. cbn [fst snd is_done is_loop block_accessor loop_detector].
    split; [exact Hfor|]. split; [intros _; repeat split|].
    split; [intros; lia|].
    intros Hex. apply Hexi in Hex; lia.
  - destruct (cbmimage_blockaddress_ts_exists image t s) eqn:Hex.
    + pose proof (proj1 (Hexi t s ltac:(lia)) Hex) as (Htr & Hlt).
      destruct (t <=? _) eqn:E1; zbool; [|lia].
      destruct (s <? _) eqn:E2; zbool; [|lia].
      destruct (Hconv cbmimage_block_unused t s ltac:(lia) Hex) as (-> & _).
      cbn [Z.eqb].
      destruct (chain_readblock_existing c t s Hmax' Hfor ltac:(lia) Hex)
        as (Hfor' & Hfresh & Hloop & Hcases).
      split; [exact Hfor'|]. split; [intros; lia|]. split; [intros _ [=]|].
      intros _. split; [exact Hfresh|]. split; [exact Hloop|exact Hcases].
    + assert (Hno : (t <=? cbmimage_get_max_track image)
                    && (s <? cbmimage_get_sectors_in_track image t) = false).
      { destruct (_ && _) eqn:E; [|reflexivity]. zbool.
        assert (H : cbmimage_blockaddress_ts_exists image t s = true)
          by (apply Hexi; lia).
        congruence. }
      destruct (t <=? _); [destruct (s <? _); [discriminate Hno|]|].
      all: cbn [Z.eqb fst snd is_done is_loop block_accessor loop_detector].
      all: split; [exact Hfor|]; split; [intros; lia|].
      all: split; [intros _ _; repeat split|]; intros [=].
Qed.

(** Chains that [cbmimage_chain_start] and [cbmimage_chain_advance] make. *)
Lemma chain_start_for start :
  cbmimage_get_max_lba image < 65535 ->
  block_exists image start = true ->
  chain_for (fst (cbmimage_chain_start image start)).
Proof.
  intros Hmax' Hstart. split; [apply (chain_start_inv image Hok); exact Hstart|].
  destruct (image_ok_facts image Hok) as (_ & _ & _ & _ & Hmax & _).
  assert (Hmx : 0 <= cbmimage_get_max_lba image < 65535) by lia.
  unfold cbmimage_chain_start, cbmimage_i_chain_readblock.
  cbn [loop_detector block_accessor].
  assert (Hnn : 0 <= lba start).
  { unfold block_exists, cbmimage_blockaddress_lba_exists in Hstart. zbool. lia. }
  destruct (loop_mark_bit image Hmx (cbmimage_loop_create image) start
              (loop_create_for image Hmx) Hnn) as (_ & (_ & Hms) & _).
  destruct (cbmimage_loop_mark image (cbmimage_loop_create image) start)
    as [[m loop'] log].
  cbn [fst snd] in Hms.
  destruct (truthy m); cbn [fst loop_detector]; [exact Hms|].
  destruct (cbmimage_blockaccessor_set_to image _ start) as [ret a].
  destruct (ret =? 0); cbn [fst loop_detector]; exact Hms.
Qed.

Lemma chain_run_for n :
  cbmimage_get_max_lba image < 65535 ->
  forall c, chain_for c -> chain_for (chain_run image n c).
Proof.
  intros Hmax'. induction n as [|n IH]; intros c Hfor; [exact Hfor|].
  cbn [chain_run]. apply IH. apply (chain_advance_cases c Hmax' Hfor).
Qed.

(** Marks are never taken back. *)
Lemma chain_advance_marks c :
  cbmimage_get_max_lba image < 65535 ->
  chain_for c ->
  forall l, 0 <= l ->
    loop_marked (loop_detector c) l = true ->
    loop_marked (loop_detector (snd (fst (cbmimage_chain_advance image c)))) l = true.
Proof.
  intros Hmax' Hfor l Hl Hm.
  destruct (image_ok_facts image Hok) as (_ & _ & _ & _ & Hmax & _).
  assert (Hmx : 0 <= cbmimage_get_max_lba image < 65535) by lia.
  destruct (chain_for_detector c Hfor) as (Hsz & Hms).
  unfold cbmimage_chain_advance.
  destruct (cbmimage_blockaccessor_get_next_block image (block_accessor c)
              (Some cbmimage_block_unused)) as [ret bn] eqn:Enext.
  destruct (ret =? 0) eqn:Eret; zbool; [|exact Hm].
  subst ret.
  destruct (get_next_block_success image (block_accessor c) cbmimage_block_unused)
    as (b & Hb & _ & _ & Hlb); [rewrite Enext; reflexivity|].
  rewrite Enext in Hb. cbn [snd] in Hb. subst bn.
  destruct (loop_mark_bit image Hmx (loop_detector c) b (conj Hsz Hms) ltac:(lia))
    as (_ & _ & Hbits).
  unfold cbmimage_i_chain_readblock.
  destruct (cbmimage_loop_mark image (loop_detector c) b) as [[m loop'] log].
  cbn [fst snd] in Hbits.
  assert (Hm' : loop_marked loop' l = true) by (rewrite (Hbits l Hl), Hm; reflexivity).
  destruct (truthy m); cbn [fst snd loop_detector]; [exact Hm'|].
  destruct (cbmimage_blockaccessor_set_to image _ b) as [ret a].
  destruct (ret =? 0); cbn [fst snd loop_detector]; exact Hm'.
Qed.

(** A step that leaves the chain going has moved it to a block that was not
    marked before and is marked now. *)
Lemma chain_advance_visit c :
  cbmimage_get_max_lba image < 65535 ->
  chain_for c ->
  let c' := snd (fst (cbmimage_chain_advance image c)) in
  is_done c' = false ->
  1 <= lba (cbmimage_chain_get_current c') <= cbmimage_get_max_lba image
  /\ loop_marked (loop_detector c) (lba (cbmimage_chain_get_current c')) = false
  /\ loop_marked (loop_detector c') (lba (cbmimage_chain_get_current c')) = true.
Proof.
  intros Hmax' Hfor. cbn zeta. intros Hnd.
  destruct (image_ok_facts image Hok) as (_ & _ & _ & _ & Hmax & _).
  assert (Hmx : 0 <= cbmimage_get_max_lba image < 65535) by lia.
  destruct (chain_advance_cases c Hmax' Hfor) as (Hfor' & Hend & Hbad & Hlink).
  pose proof (rd_range image (cbmimage_chain_get_data c) 1) as Hs.
  set (t := rd image (cbmimage_chain_get_data c) 0) in *.
  set (s := rd image (cbmimage_chain_get_data c) 1) in *.
  destruct (Z.eq_dec t 0) as [E0|E0].
  { destruct (Hend E0) as (_ & Hd & _). congruence. }
  destruct (cbmimage_blockaddress_ts_exists image t s) eqn:Hex.
  2:{ destruct (Hbad E0 eq_refl) as (_ & Hd & _). congruence. }
  destruct (Hlink eq_refl) as (Hfresh & Hloop & [Hc|Hc]).
  2:{ destruct (Hloop Hc) as (_ & Hd & _). congruence. }
  destruct (Hfresh Hc) as (Hacc & _ & _ & _ & Hc').
  destruct (frame_layout image Hok) as (_ & _ & _ & Hall & Hexi & _).
  pose proof (proj1 (Hexi t s ltac:(lia)) Hex) as (Ht & Hlt).
  destruct (Hall t Ht) as (Hsit & Hpos & _).
  pose proof (track_end_le_max_lba image Hok t Ht) as Hendt.
  unfold cbmimage_chain_get_current. rewrite Hacc. cbn [acc_block].
  set (b := CBMIMAGE_BLOCK_INIT t s (first_lba image t + s)) in *.
  assert (Hlb : 1 <= lba b <= cbmimage_get_max_lba image) by (cbn; lia).
  assert (Hexl : cbmimage_blockaddress_lba_exists image (lba b) = true)
    by (unfold cbmimage_blockaddress_lba_exists; zbool; lia).
  destruct (chain_for_detector c Hfor) as (Hsz & Hms).
  destruct (chain_for_detector _ Hfor') as (Hsz' & Hms').
  rewrite (loop_check_bit image Hmx _ b (conj Hsz Hms) ltac:(lia)), Hexl in Hc.
  rewrite (loop_check_bit image Hmx _ b (conj Hsz' Hms') ltac:(lia)), Hexl in Hc'.
  split; [lia|]. split.
  - revert Hc. destruct (loop_marked (loop_detector c) (lba b));
      [discriminate|reflexivity].
  - revert Hc'.
    destruct (loop_marked (loop_detector (snd (fst (cbmimage_chain_advance image c))))
                (lba b)); [reflexivity|discriminate].
Qed.

(** [n + 1] steps are [n] steps and one more. *)
Lemma chain_run_S n :
  forall c, chain_run image (S n) c
            = snd (fst (cbmimage_chain_advance image (chain_run image n c))).
Proof.
  induction n as [|n IH]; intros c; [reflexivity|].
  change (chain_run image (S (S n)) c)
    with (chain_run image (S n) (snd (fst (cbmimage_chain_advance image c)))).
  rewrite IH. reflexivity.
Qed.

(** While the chain is going, a marked LBA stays marked and is not visited
    again. *)
Lemma chain_run_visit n :
  cbmimage_get_max_lba image < 65535 ->
  forall c, chain_for c ->
    is_done (chain_run image n c) = false ->
    forall l, 0 <= l -> loop_marked (loop_detector c) l = true ->
      loop_marked (loop_detector (chain_run image n c)) l = true
      /\ ((1 <= n)%nat -> lba (cbmimage_chain_get_current (chain_run image n c)) <> l).
Proof.
  intros Hmax'. induction n as [|n IH]; intros c Hfor Hnd l Hl Hm.
  - split; [exact Hm|lia].
  - rewrite chain_run_S in *.
    set (cn := chain_run image n c) in *.
    assert (Hforn : chain_for cn) by (apply chain_run_for; assumption).
    assert (Hndn : is_done cn = false).
    { destruct (is_done cn) eqn:E; [|reflexivity].
      destruct (chain_advance_step image Hok cn (proj1 Hforn)) as (_ & Hkeep & _).
      rewrite (Hkeep E) in Hnd. discriminate. }
    destruct (IH c Hfor Hndn l Hl Hm) as (Hmn & _).
    split; [apply chain_advance_marks; assumption|].
    intros _.
    destruct (chain_advance_visit cn Hmax' Hforn Hnd) as (_ & Hun & _).
    intros E. rewrite E in Hun. fold cn in Hmn. rewrite Hmn in Hun. discriminate Hun.
Qed.

End ChainSteps.

(** [cbmimage_chain_start] on an existing block of an image with fewer than
    65535 blocks: the chain stands on the start block and is not done. *)
Lemma chain_start_existing (image : cbmimage_fileimage) (start : cbmimage_blockaddress) :
  image_ok image = true ->
  cbmimage_get_max_lba image < 65535 ->
  block_exists image start = true ->
  let c := fst (cbmimage_chain_start image start) in
  block_accessor c = {| acc_block := start; acc_data := Some ((lba start - 1) * 256) |}
  /\ is_done c = false /\ is_loop c = false
  /\ loop_marked (loop_detector c) (lba start) = true
  /\ 1 <= lba start <= cbmimage_get_max_lba image.
Proof.
  intros Hok Hmax' Hstart. cbn zeta.
  pose proof Hstart as Hst.
  unfold block_exists, cbmimage_blockaddress_ts_exists,
    cbmimage_blockaddress_lba_exists in Hst. zbool.
  destruct Hst as ((((H1 & H2) & H3) & H4) & (H5 & H6)).
  destruct (image_ok_facts image Hok) as (_ & _ & _ & _ & Hmax & _).
  assert (Hmx : 0 <= cbmimage_get_max_lba image < 65535) by lia.
  destruct (loop_mark_bit image Hmx (cbmimage_loop_create image) start
              (loop_create_for image Hmx) ltac:(lia)) as (Hret & Hfor0 & Hbits).
  rewrite (loop_check_bit image Hmx _ start (loop_create_for image Hmx) ltac:(lia))
    in Hret.
  rewrite loop_create_unmarked in Hret.
  assert (Hexl : cbmimage_blockaddress_lba_exists image (lba start) = true)
    by (unfold cbmimage_blockaddress_lba_exists; zbool; lia).
  rewrite Hexl in Hret, Hbits. cbn [Z_of_bool] in Hret.
  unfold cbmimage_chain_start, cbmimage_i_chain_readblock.
  cbn [loop_detector block_accessor].
  destruct (cbmimage_loop_mark image (cbmimage_loop_create image) start)
    as [[m loop'] log].
  cbn [fst snd] in Hret, Hbits. subst m. cbn [truthy Z.eqb negb].
  unfold cbmimage_blockaccessor_create.
  rewrite !(set_to_existing image Hok _ start) by lia.
  cbn [fst snd Z.eqb loop_detector block_accessor acc_block is_done is_loop].
  repeat split; try lia.
  rewrite (Hbits (lba start) ltac:(lia)), Z.eqb_refl. apply orb_true_r.
Qed.

(** X17. One step of a chain on a well-formed image, by the link of the
    block the chain stands on.  A link with track 0 ends the chain: the
    step returns the number of valid bytes (256 for a link sector of 0),
    the chain is done and stays on its block.  A link to a block that the
    chain has not visited moves the chain to that block and returns the
    follower's result for it.  A link to a block visited before ends the
    chain as a loop with -1, and a link that names no block of the image
    ends it with -1; in both cases the chain stays on its block. *)
Theorem chain_advance_result
    (image : cbmimage_fileimage) (start : cbmimage_blockaddress) (n : nat) :
  image_ok image = true ->
  cbmimage_get_max_lba image < 65535 ->
  block_exists image start = true ->
  let c := chain_run image n (fst (cbmimage_chain_start image start)) in
  let t := rd image (cbmimage_chain_get_data c) 0 in
  let s := rd image (cbmimage_chain_get_data c) 1 in
  let r := cbmimage_chain_advance image c in
  let c' := snd (fst r) in
  (t = 0 ->
   fst (fst r) = (if s =? 0 then 256 else s)
   /\ is_done c' = true /\ is_loop c' = is_loop c
   /\ block_accessor c' = block_accessor c)
  /\ (t <> 0 -> cbmimage_blockaddress_ts_exists image t s = false ->
      fst (fst r) = -1
      /\ is_done c' = true /\ is_loop c' = is_loop c
      /\ block_accessor c' = block_accessor c)
  /\ (cbmimage_blockaddress_ts_exists image t s = true ->
      let b := CBMIMAGE_BLOCK_INIT t s (first_lba image t + s) in
      (cbmimage_loop_check image (loop_detector c) b = 0 ->
       block_accessor c' = {| acc_block := b; acc_data := Some ((lba b - 1) * 256) |}
       /\ is_done c' = is_done c /\ is_loop c' = is_loop c
       /\ fst (fst r) = cbmimage_chain_last_result image c'
       /\ cbmimage_loop_check image (loop_detector c') b = 1)
      /\ (cbmimage_loop_check image (loop_detector c) b = 1 ->
          fst (fst r) = -1 /\ is_done c' = true /\ is_loop c' = true
          /\ block_accessor c' = block_accessor c)
      /\ (cbmimage_loop_check image (loop_detector c) b = 0
          \/ cbmimage_loop_check image (loop_detector c) b = 1)).
Proof.
  intros Hok Hmax' Hstart. cbn zeta.
  pose proof (chain_start_for image Hok start Hmax' Hstart) as Hfor.
  apply (chain_run_for image Hok n Hmax') in Hfor.
  destruct (chain_advance_cases image Hok _ Hmax' Hfor) as (_ & H). exact H.
Qed.

Lemma chain_advance_result_witness :
  let c := fst (cbmimage_chain_start d64_self_loop (CBMIMAGE_BLOCK_INIT 17 0 337)) in
  fst (fst (cbmimage_chain_advance d64_self_loop c)) = -1
  /\ is_loop (snd (fst (cbmimage_chain_advance d64_self_loop c))) = true.
Proof.
  cbn zeta.
  destruct (chain_advance_result d64_self_loop (CBMIMAGE_BLOCK_INIT 17 0 337) 0
              eq_refl ltac:(vm_compute; reflexivity) eq_refl) as (_ & _ & H).
  destruct (H eq_refl) as (_ & Hloop & _).
  destruct (Hloop eq_refl) as (H1 & _ & H3 & _).
  split; [exact H1 | exact H3].
Defined.

(** The blocks a chain stands on while it is not done are pairwise
    different. *)
Lemma chain_blocks_distinct
    (image : cbmimage_fileimage) (start : cbmimage_blockaddress) (i j : nat) :
  image_ok image = true ->
  cbmimage_get_max_lba image < 65535 ->
  block_exists image start = true ->
  (i < j)%nat ->
  let chain := fst (cbmimage_chain_start image start) in
  is_done (chain_run image j chain) = false ->
  lba (cbmimage_chain_get_current (chain_run image j chain))
  <> lba (cbmimage_chain_get_current (chain_run image i chain)).
Proof.
  intros Hok Hmax' Hstart Hij. cbn zeta. intros Hnd.
  set (chain := fst (cbmimage_chain_start image start)) in *.
  assert (Hfor : forall k, chain_inv (chain_run image k chain)
                           /\ loop_map_size (loop_detector (chain_run image k chain))
                              = (cbmimage_get_max_lba image + 1 + 7) / 8).
  { intros k. apply (chain_run_for image Hok k Hmax').
    apply (chain_start_for image Hok start Hmax' Hstart). }
  assert (Hsplit : forall m k c, chain_run image (k + m) c
                                 = chain_run image m (chain_run image k c)).
  { intros m. induction k as [|k IH]; intros c; [reflexivity|].
    cbn [chain_run Nat.add]. apply IH. }
  replace j with (i + (j - i))%nat in * by lia.
  rewrite Hsplit in *.
  set (ci := chain_run image i chain) in *.
  (* the block of step [i] is marked in the detector of step [i] *)
  assert (Hndi : is_done ci = false).
  { destruct (is_done ci) eqn:E; [|reflexivity].
    rewrite (chain_run_done image Hok (j - i) ci (proj1 (Hfor i)) E) in Hnd.
    discriminate. }
  assert (Hcur : 0 <= lba (cbmimage_chain_get_current ci)
                 /\ loop_marked (loop_detector ci) (lba (cbmimage_chain_get_current ci))
                    = true).
  { subst ci. destruct i as [|i].
    - (* the start block *)
      cbn [chain_run] in *. subst chain.
      destruct (chain_start_existing image start Hok Hmax' Hstart)
        as (Hacc & _ & _ & Hm & Hl).
      unfold cbmimage_chain_get_current. rewrite Hacc. cbn [acc_block].
      split; [lia|exact Hm].
    - rewrite (chain_run_S image) in *.
      destruct (chain_advance_visit image Hok (chain_run image i chain) Hmax' (Hfor i)
                  Hndi) as (H0 & _ & H1).
      split; [lia|exact H1]. }
  destruct Hcur as (Hl & Hm).
  destruct (chain_run_visit image Hok (j - i) Hmax' ci (Hfor i) Hnd _ Hl Hm) as (_ & Hne).
  apply Hne. lia.
Qed.

(** X18. A chain never stands on the same block twice: as long as the chain
    is not done, the block it stands on after [j] steps has an LBA
    different from the one after any smaller number [i] of steps. *)
Theorem chain_visits_each_block_once
    (image : cbmimage_fileimage) (start : cbmimage_blockaddress) (i j : nat) :
  image_ok image = true ->
  cbmimage_get_max_lba image < 65535 ->
  block_exists image start = true ->
  (i < j)%nat ->
  let chain := fst (cbmimage_chain_start image start) in
  is_done (chain_run image j chain) = false ->
  lba (cbmimage_chain_get_current (chain_run image j chain))
  <> lba (cbmimage_chain_get_current (chain_run image i chain)).
Proof. exact (chain_blocks_distinct image start i j). Qed.

Lemma chain_visits_each_block_once_witness :
  let chain := fst (cbmimage_chain_start d64_two_block_file (CBMIMAGE_BLOCK_INIT 17 0 337)) in
  lba (cbmimage_chain_get_current (chain_run d64_two_block_file 1 chain))
  <> lba (cbmimage_chain_get_current (chain_run d64_two_block_file 0 chain)).
Proof.
  refine (chain_visits_each_block_once d64_two_block_file (CBMIMAGE_BLOCK_INIT 17 0 337)
            0 1 _ _ _ _ _).
  - vm_compute; reflexivity.
  - vm_compute; reflexivity.
  - vm_compute; reflexivity.
  - lia.
  - vm_compute; reflexivity.
Defined.

(** ** Opening an image (lib/fileimage.c, lib/d40_d64_d71.c, lib/d81.c) *)

(** What [cbmimage_image_open] installs for a given type does not depend on
    the bytes of the buffer or on its size. *)
Lemma image_open_frame buf sz ty :
  opens_with_geometry ty = true ->
  let image := cbmimage_image_open buf sz ty in
  geometry_ok (settings image) = true
  /\ subdir_relative_addressing (settings image) = false
  /\ subdir_data_offset (settings image) = 0
  /\ bytes_in_block (settings image) = 256
  /\ cbmimage_get_max_lba image = cbmimage_i_get_number_of_blocks ty
  /\ 1 <= cbmimage_i_get_number_of_blocks ty < 65536
  /\ lba (snd (cbmimage_blockaddress_init_from_ts_value image cbmimage_block_unused
                 (maxtracks (settings image))
                 (cbmimage_get_sectors_in_track image (maxtracks (settings image)) - 1)))
     = cbmimage_get_max_lba image
  /\ lastblock (settings image)
     = CBMIMAGE_BLOCK_INIT (maxtracks (settings image))
         (cbmimage_get_sectors_in_track image (maxtracks (settings image)) - 1)
         (cbmimage_get_max_lba image)
  /\ size (parameter image) = sz.
Proof.
  destruct ty; intros H; try discriminate H; cbn zeta.
  all: repeat split; try (vm_compute; reflexivity); try discriminate.
Qed.

Lemma image_open_image_ok (buf : Z -> Z) (sz : Z) (ty : cbmimage_imagetype) :
  opens_with_geometry ty = true ->
  cbmimage_i_get_number_of_blocks ty * 256 <= sz < 18446744073709551616 ->
  image_ok (cbmimage_image_open buf sz ty) = true.
Proof.
  intros Hty Hsz.
  destruct (image_open_frame buf sz ty Hty)
    as (Hgeo & Hrel & Hoff & Hbib & Hmax & Hn & Hlast & Hlb & Hsize).
  unfold image_ok. rewrite Hgeo, Hrel, Hoff, Hbib, Hlast, Hsize, Hmax.
  rewrite !andb_true_iff. repeat split; zbool; lia.
Qed.





(** ** Reading a file (lib/file.c) *)

Lemma c_int_small x : -2147483648 <= x < 2147483648 -> c_int x = x.
Proof. intros H. unfold c_int. rewrite Z.mod_small by lia. lia. Qed.

Lemma size_t_small x : 0 <= x < 18446744073709551616 -> size_t x = x.
Proof. intros H. unfold size_t. apply Z.mod_small. exact H. Qed.

Lemma min_small a b :
  0 <= a < 2147483648 -> 0 <= b < 2147483648 -> min a b = Z.min a b.
Proof.
  intros Ha Hb. unfold min. rewrite !c_int_small by lia.
  destruct (a <? b) eqn:E; zbool; lia.
Qed.

Section FileRead.

Variable image : cbmimage_fileimage.
Hypothesis Hok : image_ok image = true.

Variable B : Z.
Hypothesis HB : 0 <= B < 2147483648.

Variable c0 : cbmimage_chain.
Hypothesis Hc0 : chain_inv c0.

(** What the loop of [cbmimage_file_read_next_block] keeps: the chain is one
    reached from [c0], the unread bytes lie between offset 0 and offset 257
    of the current block, the value to return is the number of bytes
    stored, and it cannot pass the size of the caller's buffer. *)
Let read_inv (st : read_state) : Prop :=
  (exists k, file_chain (rs_file st) = chain_run image k c0)
  /\ (0 <= block_current_remain (rs_file st)
      /\ 0 <= block_current_offset (rs_file st)
      /\ block_current_offset (rs_file st) + block_current_remain (rs_file st) <= 257)
  /\ rs_bytes_return st = Z.of_nat (length (rs_written st))
  /\ 0 <= rs_write_remaining st
  /\ rs_bytes_return st + rs_write_remaining st <= B.

Let N := Z.to_nat (cbmimage_get_max_lba image).

(** The follower never reports more than 256 valid bytes. *)
Lemma get_next_block_le_256 a bn :
  fst (cbmimage_blockaccessor_get_next_block image a bn) <= 256.
Proof.
  unfold cbmimage_blockaccessor_get_next_block.
  pose proof (rd_range image (acc_data a) 0) as Ht.
  pose proof (rd_range image (acc_data a) 1) as Hs.
  set (t := rd image (acc_data a) 0) in *. set (s := rd image (acc_data a) 1) in *.
  destruct (t =? 0) eqn:E0; zbool; [cbn [fst]; destruct (s =? 0); lia|].
  destruct (t <=? _) eqn:E1; zbool; [|cbn; lia].
  destruct (s <? _) eqn:E2; zbool; [|cbn; lia].
  destruct bn as [b|]; [|cbn; lia].
  destruct (frame_layout image Hok) as (_ & _ & _ & _ & Hexi & Hconv).
  assert (Hex : cbmimage_blockaddress_ts_exists image t s = true) by (apply Hexi; lia).
  destruct (Hconv b t s ltac:(lia) Hex) as (-> & _). cbn. lia.
Qed.

Lemma chain_advance_le_256 c :
  fst (fst (cbmimage_chain_advance image c)) <= 256.
Proof.
  unfold cbmimage_chain_advance.
  pose proof (get_next_block_le_256 (block_accessor c) (Some cbmimage_block_unused)) as H.
  destruct (cbmimage_blockaccessor_get_next_block image (block_accessor c)
              (Some cbmimage_block_unused)) as [ret bn].
  cbn [fst] in H.
  destruct (ret =? 0); [|cbn [fst]; exact H].
  unfold cbmimage_i_chain_readblock.
  destruct (cbmimage_loop_mark image (loop_detector c) _) as [[m loop'] log].
  destruct (truthy m); [cbn; lia|].
  destruct (cbmimage_blockaccessor_set_to image (block_accessor c) _) as [r a] eqn:Eset.
  assert (r = 0).
  { unfold cbmimage_blockaccessor_set_to in Eset.
    destruct (_ && _) in Eset; injection Eset as <- _; reflexivity. }
  subst r. cbn [Z.eqb fst]. apply get_next_block_le_256.
Qed.

Lemma read_body_inv st :
  read_inv st ->
  is_done (file_chain (rs_file st)) = false ->
  let st' := read_next_block_body image st in
  read_inv st'
  /\ (rs_write_remaining st' = 0
      \/ is_done (file_chain (rs_file st')) = true
      \/ (count_unmarked (loop_detector (file_chain (rs_file st'))) N
          < count_unmarked (loop_detector (file_chain (rs_file st))) N)%nat).
Proof.
  intros ((k & Hk) & Hrem & Hret & Hwr & Hle) Hnd. cbn zeta.
  assert (Hinv : chain_inv (file_chain (rs_file st)))
    by (rewrite Hk; apply (chain_run_inv image Hok); exact Hc0).
  unfold read_next_block_body.
  assert (Hlen : 0 <= Z.of_nat (length (rs_written st))) by lia.
  rewrite (min_small (rs_write_remaining st) (block_current_remain (rs_file st)))
    by lia.
  set (n := Z.min (rs_write_remaining st) (block_current_remain (rs_file st))).
  assert (Hn : 0 <= n <= rs_write_remaining st /\ n <= block_current_remain (rs_file st))
    by (subst n; lia).
  rewrite (size_t_small n) by lia.
  destruct (0 <? n) eqn:Epos; zbool.
  - (* some bytes are copied *)
    rewrite (size_t_small (rs_write_remaining st - n)) by lia.
    rewrite (c_int_small (rs_bytes_return st + n)) by lia.
    rewrite (u16_small (block_current_remain (rs_file st) - n)) by lia.
    rewrite (u16_small (block_current_offset (rs_file st) + n)) by lia.
    cbn [file_chain block_current_offset block_current_remain].
    destruct (0 <? rs_write_remaining st - n) eqn:Emore; zbool.
    + destruct (chain_advance_step image Hok _ Hinv) as (_ & _ & Hdec).
      destruct (cbmimage_chain_advance image (file_chain (rs_file st)))
        as [[ret chain] log] eqn:Eadv.
      cbn [fst snd] in Hdec.
      assert (Hreach : exists k', chain = chain_run image k' c0).
      { exists (S k). rewrite (chain_run_S image), <- Hk, Eadv. reflexivity. }
      assert (Hprog : is_done chain = true
                      \/ (count_unmarked (loop_detector chain) N
                          < count_unmarked (loop_detector (file_chain (rs_file st))) N)%nat).
      { destruct (is_done chain) eqn:Ed; [left; reflexivity|right; apply Hdec; reflexivity]. }
      pose proof (chain_advance_le_256 (file_chain (rs_file st))) as Hret256.
      rewrite Eadv in Hret256. cbn [fst] in Hret256.
      change (u16 (256 - 2)) with 254.
      destruct (ret =? 0); [|destruct (ret =? 1); [|destruct (Z.ltb_spec 1 ret);
        [rewrite (u16_small (ret - 2 + 1)) by lia|]]];
        unfold read_inv;
        cbn [rs_file rs_written rs_write_remaining rs_bytes_return file_chain
             block_current_remain block_current_offset];
        rewrite ?length_app, ?length_map, ?length_seq;
        (split; [repeat split; try exact Hreach; try lia|]);
        solve [left; reflexivity | right; exact Hprog].
    + unfold read_inv.
      cbn [rs_file rs_written rs_write_remaining rs_bytes_return file_chain
           block_current_remain block_current_offset].
      rewrite ?length_app, ?length_map, ?length_seq.
      split; [repeat split; try (exists k; exact Hk); try lia|].
      left. lia.
  - (* nothing to copy *)
    destruct (0 <? rs_write_remaining st) eqn:Emore; zbool.
    + destruct (chain_advance_step image Hok _ Hinv) as (_ & _ & Hdec).
      destruct (cbmimage_chain_advance image (file_chain (rs_file st)))
        as [[ret chain] log] eqn:Eadv.
      cbn [fst snd] in Hdec.
      assert (Hreach : exists k', chain = chain_run image k' c0).
      { exists (S k). rewrite (chain_run_S image), <- Hk, Eadv. reflexivity. }
      assert (Hprog : is_done chain = true
                      \/ (count_unmarked (loop_detector chain) N
                          < count_unmarked (loop_detector (file_chain (rs_file st))) N)%nat).
      { destruct (is_done chain) eqn:Ed; [left; reflexivity|right; apply Hdec; reflexivity]. }
      pose proof (chain_advance_le_256 (file_chain (rs_file st))) as Hret256.
      rewrite Eadv in Hret256. cbn [fst] in Hret256.
      change (u16 (256 - 2)) with 254.
      destruct (ret =? 0); [|destruct (ret =? 1); [|destruct (Z.ltb_spec 1 ret);
        [rewrite (u16_small (ret - 2 + 1)) by lia|]]];
        unfold read_inv;
        cbn [rs_file rs_written rs_write_remaining rs_bytes_return file_chain
             block_current_remain block_current_offset];
        (split; [repeat split; try exact Hreach; try lia|]);
        solve [left; reflexivity | right; exact Hprog].
    + unfold read_inv.
      cbn [rs_file rs_written rs_write_remaining rs_bytes_return].
      split; [repeat split; try (exists k; exact Hk); try lia|].
      left. lia.
Qed.

(** The loop ends within as many rounds as there are unmarked blocks, plus
    one. *)
Lemma read_loop_ends fuel :
  forall st,
    read_inv st ->
    (count_unmarked (loop_detector (file_chain (rs_file st))) N < fuel)%nat ->
    exists st', read_next_block_loop image fuel st = Some st' /\ read_inv st'.
Proof.
  induction fuel as [|fuel IH]; intros st Hinv Hfuel; [lia|].
  cbn [read_next_block_loop].
  destruct (_ && _) eqn:Econd; [|exists st; split; [reflexivity|exact Hinv]].
  apply andb_true_iff in Econd. destruct Econd as (Hwr & Hnd).
  apply negb_true_iff in Hnd. unfold cbmimage_chain_is_done in Hnd.
  destruct (read_body_inv st Hinv Hnd) as (Hinv' & Hprog).
  set (st1 := read_next_block_body image st) in *.
  destruct Hprog as [H0|[Hd|Hlt]].
  - exists st1. split; [|exact Hinv'].
    destruct fuel; cbn [read_next_block_loop]; rewrite H0; reflexivity.
  - exists st1. split; [|exact Hinv'].
    destruct fuel; cbn [read_next_block_loop]; unfold cbmimage_chain_is_done;
      rewrite Hd, andb_false_r; reflexivity.
  - apply IH; [exact Hinv'|lia].
Qed.

End FileRead.

(** X21. A read from a file returns the number of bytes it has stored in
    the caller's buffer, and that is never more than the size of the buffer;
    the loop of the read ends within max_lba + 1 rounds, whatever the link
    bytes of the image are.  Only on a file whose chain is done the read
    stores nothing and returns -1.  The file is left on a chain reached from
    the same start block, with its unread bytes between the offsets 0 and
    257 of the current block, as the next read needs it. *)
Theorem file_read_returns_bytes_stored
    (image : cbmimage_fileimage) (start : cbmimage_blockaddress) (n fuel : nat)
    (file : cbmimage_file) (buffer_size : Z) :
  image_ok image = true ->
  block_exists image start = true ->
  file_chain file = chain_run image n (fst (cbmimage_chain_start image start)) ->
  0 <= block_current_remain file /\ 0 <= block_current_offset file
  /\ block_current_offset file + block_current_remain file <= 257 ->
  0 <= buffer_size < 2147483648 ->
  (Z.to_nat (cbmimage_get_max_lba image) < fuel)%nat ->
  exists r file' written log,
    cbmimage_file_read_next_block image fuel file buffer_size
    = Some (r, file', written, log)
    /\ (is_done (file_chain file) = true -> r = -1 /\ written = [] /\ file' = file)
    /\ (is_done (file_chain file) = false ->
        r = Z.of_nat (length written) /\ r <= buffer_size)
    /\ (exists m, file_chain file'
                  = chain_run image m (fst (cbmimage_chain_start image start)))
    /\ (0 <= block_current_remain file' /\ 0 <= block_current_offset file'
        /\ block_current_offset file' + block_current_remain file' <= 257).
Proof.
  intros Hok Hstart Hchain Hrem HB Hfuel.
  unfold cbmimage_file_read_next_block, cbmimage_chain_is_done.
  destruct (is_done (file_chain file)) eqn:Hd.
  - exists (-1), file, [], []. split; [reflexivity|].
    split; [auto|]. split; [discriminate|]. split; [exists n; exact Hchain|exact Hrem].
  - pose proof (chain_start_inv image Hok start Hstart) as Hc0.
    rewrite size_t_small by lia.
    destruct (read_loop_ends image Hok buffer_size HB _ Hc0 fuel
                {| rs_file := file; rs_written := []; rs_write_remaining := buffer_size;
                   rs_bytes_return := 0; rs_log := [] |})
      as (st' & Hloop & Hreach & Hrem' & Hret & Hwr & Hle).
    + cbn [rs_file rs_written rs_write_remaining rs_bytes_return length].
      repeat split; try lia. exists n; exact Hchain.
    + cbn [rs_file].
      pose proof (count_unmarked_le_n (loop_detector (file_chain file))
                    (Z.to_nat (cbmimage_get_max_lba image))). lia.
    + rewrite Hloop.
      exists (rs_bytes_return st'), (rs_file st'), (rs_written st'), (rs_log st').
      split; [reflexivity|]. split; [discriminate|].
      split; [intros _; split; [exact Hret|lia]|].
      split; [exact Hreach|exact Hrem'].
Qed.

Lemma file_read_returns_bytes_stored_witness :
  exists r file' written log,
    cbmimage_file_read_next_block d64_two_block_file 684
      (fst (cbmimage_file_open_by_dir_entry d64_two_block_file (CBMIMAGE_BLOCK_INIT 17 0 337)))
      1000
    = Some (r, file', written, log)
    /\ r = Z.of_nat (length written) /\ r <= 1000.
Proof.
  refine (match file_read_returns_bytes_stored d64_two_block_file
                  (CBMIMAGE_BLOCK_INIT 17 0 337) 0 684
                  (fst (cbmimage_file_open_by_dir_entry d64_two_block_file
                          (CBMIMAGE_BLOCK_INIT 17 0 337)))
                  1000 _ _ _ _ _ _ with
          | ex_intro _ r (ex_intro _ file' (ex_intro _ written (ex_intro _ log
              (conj Hread (conj _ (conj Hnd _)))))) =>
              ex_intro _ r (ex_intro _ file' (ex_intro _ written (ex_intro _ log
                (conj Hread (Hnd _)))))
          end).
  - vm_compute; reflexivity.
  - vm_compute; reflexivity.
  - vm_compute; reflexivity.
  - vm_compute. repeat split; discriminate.
  - lia.
  - vm_compute. lia.
  - vm_compute; reflexivity.
Defined.

(** X22. The first read from a file whose start block ends the chain (link
    track 0).  With the link sector [s] the block counts [s] valid bytes,
    256 for [s = 0], and the file holds one byte less than that count, from
    offset 2 of the block on.  A buffer larger than that receives all of
    them and the file is done; for [s = 0] these are the 255 bytes at the
    offsets 2 to 256 from the start of the block, the last of them being
    the first byte of the block that follows in the image.  A buffer that
    is not larger is filled and the file is not done yet.  For [s = 1] the
    read stores nothing, returns 0 and the file is done. *)
Theorem file_read_terminal_block
    (image : cbmimage_fileimage) (start : cbmimage_blockaddress)
    (buffer_size : Z) (fuel : nat) :
  image_ok image = true ->
  cbmimage_get_max_lba image < 65535 ->
  block_exists image start = true ->
  let p := Some ((lba start - 1) * 256) in
  rd image p 0 = 0 ->
  let s := rd image p 1 in
  let count := if s =? 0 then 256 else s in
  let file := fst (cbmimage_file_open_by_dir_entry image start) in
  let bytes (n : Z) := map (fun i => rd image p (2 + Z.of_nat i)) (seq 0 (Z.to_nat n)) in
  0 <= buffer_size < 2147483648 ->
  (s = 0 -> lba start < cbmimage_get_max_lba image) ->
  (s <> 1 -> count - 1 < buffer_size ->
   exists file' log,
     cbmimage_file_read_next_block image (S fuel) file buffer_size
     = Some (count - 1, file', bytes (count - 1), log)
     /\ is_done (file_chain file') = true)
  /\ (s <> 1 -> buffer_size <= count - 1 ->
      exists file' log,
        cbmimage_file_read_next_block image (S fuel) file buffer_size
        = Some (buffer_size, file', bytes buffer_size, log)
        /\ is_done (file_chain file') = false)
  /\ (s = 1 -> 0 < buffer_size ->
      exists file' log,
        cbmimage_file_read_next_block image (S fuel) file buffer_size
        = Some (0, file', [], log)
        /\ is_done (file_chain file') = true).
Proof.
  intros Hok Hmax' Hstart p Ht s count file bytes HB _.
  destruct (chain_start_existing image start Hok Hmax' Hstart)
    as (Hacc & Hnd & _ & _ & Hl).
  pose proof (rd_range image p 1) as Hs. fold s in Hs.
  assert (Hcount : 1 <= count <= 256) by (subst count; destruct (Z.eqb_spec s 0); lia).
  subst file. unfold cbmimage_file_open_by_dir_entry.
  destruct (cbmimage_chain_start image start) as [chain log0].
  cbn [fst] in Hacc, Hnd |- *.
  assert (Hnext : forall bn, cbmimage_blockaccessor_get_next_block image
                               (block_accessor chain) bn = (count, bn)).
  { intros bn. rewrite get_next_block_terminal by (rewrite Hacc; exact Ht).
    rewrite Hacc. reflexivity. }
  assert (Hadv : cbmimage_chain_advance image chain
                 = (count, {| block_start := block_start chain; is_done := true;
                              is_loop := is_loop chain;
                              loop_detector := loop_detector chain;
                              block_accessor := block_accessor chain |}, [])).
  { unfold cbmimage_chain_advance. rewrite Hnext.
    destruct (Z.eqb_spec count 0); [lia|reflexivity]. }
  unfold cbmimage_chain_last_result. rewrite Hnext. cbn [fst].
  destruct (Z.eqb_spec count 0) as [E0|_]; [lia|].
  assert (Hdata : cbmimage_chain_get_data chain = p)
    by (unfold cbmimage_chain_get_data; rewrite Hacc; reflexivity).
  split; [|split].
  - intros Hs1 Hbig.
    assert (H1 : (1 <? count) = true) by (subst count; destruct (Z.eqb_spec s 0); zbool; lia).
    rewrite H1. cbn [fst].
    unfold cbmimage_file_read_next_block, cbmimage_chain_is_done.
    cbn [file_chain]. rewrite Hnd.
    rewrite size_t_small by lia.
    cbn [read_next_block_loop rs_write_remaining rs_file file_chain].
    unfold cbmimage_chain_is_done. rewrite Hnd.
    assert (Hpos : (0 <? buffer_size) = true) by (zbool; lia).
    rewrite Hpos. cbn [andb negb].
    unfold read_next_block_body.
    cbn [rs_file rs_written rs_write_remaining rs_bytes_return rs_log file_chain
         block_current_offset block_current_remain].
    rewrite (u16_small (count - 2 + 1)) by lia.
    rewrite (min_small buffer_size (count - 2 + 1)) by lia.
    replace (Z.min buffer_size (count - 2 + 1)) with (count - 1) by lia.
    rewrite (size_t_small (count - 1)) by lia.
    assert (Hc1 : (0 <? count - 1) = true) by (zbool; lia).
    rewrite Hc1.
    rewrite (size_t_small (buffer_size - (count - 1))) by lia.
    assert (Hmore : (0 <? buffer_size - (count - 1)) = true) by (zbool; lia).
    rewrite Hmore.
    cbn [file_chain block_current_offset block_current_remain].
    rewrite Hadv.
    destruct (Z.eqb_spec count 0) as [E0|_]; [lia|].
    destruct (Z.eqb_spec count 1) as [E1|_]; [lia|].
    rewrite H1.
    rewrite (c_int_small (0 + (count - 1))) by lia.
    rewrite Hdata.
    eexists _, _. split.
    + destruct fuel; cbn [read_next_block_loop rs_file file_chain rs_write_remaining
                           rs_written rs_bytes_return rs_log];
        unfold cbmimage_chain_is_done; cbn [is_done]; rewrite andb_false_r;
        cbn [rs_file rs_written rs_bytes_return rs_log app]; reflexivity.
    + reflexivity.
  - intros Hs1 Hsmall.
    assert (H1 : (1 <? count) = true) by (subst count; destruct (Z.eqb_spec s 0); zbool; lia).
    rewrite H1. cbn [fst].
    unfold cbmimage_file_read_next_block, cbmimage_chain_is_done.
    cbn [file_chain]. rewrite Hnd.
    rewrite size_t_small by lia.
    cbn [read_next_block_loop rs_write_remaining rs_file file_chain].
    unfold cbmimage_chain_is_done. rewrite Hnd.
    destruct (Z.ltb_spec 0 buffer_size) as [Hpos|Hzero].
    + cbn [andb negb].
      unfold read_next_block_body.
      cbn [rs_file rs_written rs_write_remaining rs_bytes_return rs_log file_chain
           block_current_offset block_current_remain].
      rewrite (u16_small (count - 2 + 1)) by lia.
      rewrite (min_small buffer_size (count - 2 + 1)) by lia.
      replace (Z.min buffer_size (count - 2 + 1)) with buffer_size by lia.
      rewrite (size_t_small buffer_size) by lia.
      assert (Hc1 : (0 <? buffer_size) = true) by (zbool; lia).
      rewrite Hc1.
      rewrite Z.sub_diag. change (size_t 0) with 0. change (0 <? 0) with false.
      cbv beta iota.
      rewrite (c_int_small (0 + buffer_size)) by lia.
      rewrite Hdata.
      eexists _, _. split.
      * destruct fuel; cbn [read_next_block_loop rs_file file_chain rs_write_remaining
                             rs_written rs_bytes_return rs_log Z.ltb Z.compare andb];
          reflexivity.
      * cbn [file_chain]. exact Hnd.
    + cbn [andb]. assert (buffer_size = 0) by lia. subst buffer_size.
      eexists _, _. split; [reflexivity|]. cbn [rs_file file_chain]. exact Hnd.
  - intros Hs1 Hpos.
    assert (Hc : count = 1) by (subst count; rewrite Hs1; reflexivity).
    assert (H1 : (1 <? count) = false) by (rewrite Hc; reflexivity).
    rewrite H1. cbn [fst].
    unfold cbmimage_file_read_next_block, cbmimage_chain_is_done.
    cbn [file_chain]. rewrite Hnd.
    rewrite size_t_small by lia.
    cbn [read_next_block_loop rs_write_remaining rs_file file_chain].
    unfold cbmimage_chain_is_done. rewrite Hnd.
    assert (Hp : (0 <? buffer_size) = true) by (zbool; lia).
    rewrite Hp. cbn [andb negb].
    unfold read_next_block_body.
    cbn [rs_file rs_written rs_write_remaining rs_bytes_return rs_log file_chain
         block_current_offset block_current_remain].
    rewrite (min_small buffer_size 0) by lia.
    replace (Z.min buffer_size 0) with 0 by lia.
    change (size_t 0) with 0. change (0 <? 0) with false. cbv beta iota.
    rewrite Hp. cbn [file_chain block_current_offset block_current_remain].
    rewrite Hadv. rewrite Hc. change (1 =? 0) with false. change (1 =? 1) with true.
    cbv beta iota.
    eexists _, _. split.
    + destruct fuel; cbn [read_next_block_loop rs_file file_chain rs_write_remaining
                           rs_written rs_bytes_return rs_log Z.ltb Z.compare andb];
        reflexivity.
    + reflexivity.
Qed.

(** Block 17/0 of the blank D64 image has the link (0,0): a file that starts
    there delivers 255 bytes. *)
Lemma file_read_terminal_block_witness :
  exists file' log,
    cbmimage_file_read_next_block d64_blank 1
      (fst (cbmimage_file_open_by_dir_entry d64_blank (CBMIMAGE_BLOCK_INIT 17 0 337))) 256
    = Some (255, file',
            map (fun i => rd d64_blank (Some 86016) (2 + Z.of_nat i)) (seq 0 255), log)
    /\ is_done (file_chain file') = true.
Proof.
  refine (proj1 (file_read_terminal_block d64_blank (CBMIMAGE_BLOCK_INIT 17 0 337) 256 0
                   _ _ _ _ _ _) _ _).
  - vm_compute; reflexivity.
  - vm_compute; reflexivity.
  - vm_compute; reflexivity.
  - vm_compute; reflexivity.
  - lia.
  - intros _. vm_compute; reflexivity.
  - vm_compute; discriminate.
  - vm_compute; reflexivity.
Defined.

(** ** Bit order of a BAM byte (lib/bam.c) *)

Lemma reverse_bit_order_bytes :
  forallb (fun n =>
             let b := Z.of_nat n in
             (reverse_bit_order (reverse_bit_order b) =? b)
             && (reverse_bit_order b <? 256) && (0 <=? reverse_bit_order b)
             && forallb (fun k =>
                           Bool.eqb (Z.testbit (reverse_bit_order b) (Z.of_nat k))
                                    (Z.testbit b (7 - Z.of_nat k)))
                        (seq 0 8))
          (seq 0 256) = true.
Proof. vm_compute. reflexivity. Qed.

(** X23. [reverse_bit_order] mirrors a byte: bit [i] of the result is bit
    [7 - i] of the input, the result is a byte again, and reversing twice
    gives the byte back. *)
Theorem reverse_bit_order_mirrors (b i : Z) :
  0 <= b < 256 -> 0 <= i < 8 ->
  Z.testbit (reverse_bit_order b) i = Z.testbit b (7 - i)
  /\ 0 <= reverse_bit_order b < 256
  /\ reverse_bit_order (reverse_bit_order b) = b.
Proof.
  intros Hb Hi.
  pose proof reverse_bit_order_bytes as H.
  rewrite forallb_forall in H.
  specialize (H (Z.to_nat b)).
  rewrite in_seq in H. specialize (H ltac:(lia)).
  cbv zeta in H. rewrite Z2Nat.id in H by lia.
  rewrite !andb_true_iff in H. destruct H as (((H1 & H2) & H3) & H4).
  rewrite forallb_forall in H4. specialize (H4 (Z.to_nat i)).
  rewrite in_seq in H4. specialize (H4 ltac:(lia)).
  rewrite Z2Nat.id in H4 by lia. apply Bool.eqb_prop in H4.
  zbool. repeat split; try assumption; lia.
Qed.

Lemma reverse_bit_order_mirrors_witness :
  Z.testbit (reverse_bit_order 1) 7 = Z.testbit 1 (7 - 7)
  /\ 0 <= reverse_bit_order 1 < 256
  /\ reverse_bit_order (reverse_bit_order 1) = 1.
Proof. apply (reverse_bit_order_mirrors 1 7); lia. Defined.

(** ** Enumerating a directory (lib/dir.c) *)

Section DirWalk.

Variable L : dir_entry_layout.
Variable image : cbmimage_fileimage.
Hypothesis Hok : image_ok image = true.
Hypothesis HL : CBMIMAGE_DIR_ENTRY_NEXT_ONE L = 32.

Let N := Z.to_nat (cbmimage_get_max_lba image).

(** The slots left in the current block and nine for each block that the
    detector has not seen. *)
Let rounds_left (dei : cbmimage_i_dir_entry_internal) : nat :=
  (9 * count_unmarked (dei_loop_detector dei) N
   + Z.to_nat ((256 - dir_block_offset dei) / 32))%nat.

(** A successful [cbmimage_blockaccessor_follow] leaves the accessor on a
    block. *)
Lemma follow_success a :
  fst (cbmimage_blockaccessor_follow image a) = 0 ->
  0 <= lba (acc_block (snd (cbmimage_blockaccessor_follow image a)))
  /\ acc_data (snd (cbmimage_blockaccessor_follow image a)) <> None.
Proof.
  rewrite (blockaccessor_follow_cases image a Hok). cbv zeta.
  pose proof (rd_range image (acc_data a) 1) as Hs.
  destruct (rd image (acc_data a) 0 =? 0).
  - cbn [fst]. destruct (Z.eqb_spec (rd image (acc_data a) 1) 0); lia.
  - destruct (cbmimage_blockaddress_ts_exists image _ _) eqn:Hex; [|cbn; lia].
    intros _. cbn [fst snd acc_block acc_data CBMIMAGE_BLOCK_INIT lba].
    split; [|discriminate].
    destruct (frame_layout image Hok) as (_ & _ & _ & Hall & Hexi & _).
    apply Hexi in Hex; [|lia]. destruct Hex as (Ht & _).
    destruct (Hall _ Ht) as (_ & Hpos & _). lia.
Qed.

Lemma dir_get_step dei :
  dir_state dei ->
  let r := cbmimage_i_dir_get L image dei in
  (fst (fst r) = 0 \/ fst (fst r) = -1)
  /\ (fst (fst r) = 0 ->
      dir_state (snd (fst r))
      /\ (rounds_left (snd (fst r)) < rounds_left dei)%nat).
Proof.
  intros (Hsz & Hlba & Hdata & k & Hk & Hoff). cbn zeta.
  destruct (image_ok_facts image Hok) as (_ & _ & _ & Hbib & Hmax & _).
  assert (Hmax' : cbmimage_get_max_lba image < 65536) by lia.
  unfold cbmimage_i_dir_get, cbmimage_get_bytes_in_block. rewrite Hbib, HL.
  (* the round after the block has been chosen *)
  assert (Hround : forall a off loop j,
    loop_sized loop -> 0 <= lba (acc_block a) -> acc_data a <> None ->
    0 <= j < 8 -> off = 32 * j ->
    (off = 0 -> (9 * count_unmarked loop N <= rounds_left dei + 1)%nat) ->
    (off <> 0 -> (9 * count_unmarked loop N + Z.to_nat ((256 - off) / 32)
                  <= rounds_left dei)%nat) ->
    let r :=
      (let '(m, loop0, log) :=
         if off =? 0 then cbmimage_loop_mark image loop (acc_block a)
         else (0, loop, []) in
       if truthy m
       then (-1, {| entry := entry dei; dir_block_accessor := a; dir_block_offset := off;
                    is_empty := is_empty dei; dei_loop_detector := loop0 |}, log)
       else
         let type := rd image (acc_data a) (off + CBMIMAGE_DIR_ENTRY_TYPE_OFFSET L) in
         (0, {| entry := dir_get_entry L image (entry dei) (acc_data a) off;
                dir_block_accessor := a;
                dir_block_offset := u16 (off + 32);
                is_empty := type =? 0;
                dei_loop_detector := loop0 |}, log)) in
    (fst (fst r) = 0 \/ fst (fst r) = -1)
    /\ (fst (fst r) = 0 ->
        dir_state (snd (fst r))
        /\ (rounds_left (snd (fst r)) < rounds_left dei)%nat)).
  { intros a off loop j Hs Hl Hd Hj Ho Hzero Hpos. cbn zeta.
    destruct (Z.eqb_spec off 0) as [E0|E0].
    - destruct (cbmimage_loop_mark image loop (acc_block a)) as [[m loop0] log] eqn:Em.
      pose proof (cbmimage_loop_mark_sized image loop (acc_block a) Hs) as Hs0.
      rewrite Em in Hs0. cbn [fst snd] in Hs0.
      destruct (truthy m) eqn:Etr; cbn [fst snd].
      + split; [right; reflexivity|discriminate].
      + unfold truthy in Etr. zbool. subst m.
        destruct (cbmimage_loop_mark_fresh image Hmax' _ _ _ _ Hs Hl Em)
          as (_ & Hrange & Hun & Hbits).
        split; [left; reflexivity|]. intros _. split.
        * repeat split; cbn [dei_loop_detector dir_block_accessor dir_block_offset];
            try assumption.
          exists 1. rewrite E0. split; [lia|reflexivity].
        * unfold rounds_left at 1.
          cbn [dei_loop_detector dir_block_offset]. rewrite E0.
          change (Z.to_nat ((256 - u16 (0 + 32)) / 32)) with 7%nat.
          assert (Hdec : (count_unmarked loop0 N < count_unmarked loop N)%nat).
          { apply (count_unmarked_decreases loop loop0) with (l := lba (acc_block a)).
            - intros l Hl0 Hm. rewrite (Hbits l Hl0), Hm. reflexivity.
            - subst N. lia.
            - exact Hun.
            - rewrite Hbits by lia. rewrite Z.eqb_refl. apply orb_true_r. }
          specialize (Hzero E0). lia.
    - cbn [truthy Z.eqb negb fst snd].
      split; [left; reflexivity|]. intros _. split.
      + repeat split; cbn [dei_loop_detector dir_block_accessor dir_block_offset];
          try assumption.
        exists (j + 1). rewrite u16_small by lia. lia.
      + unfold rounds_left at 1.
        cbn [dei_loop_detector dir_block_offset].
        rewrite u16_small by lia.
        specialize (Hpos E0).
        assert (Hq : (256 - off) / 32 = 8 - j).
        { subst off. replace (256 - 32 * j) with ((8 - j) * 32) by lia.
          apply Z.div_mul. lia. }
        assert (Hq' : (256 - (off + 32)) / 32 = 7 - j).
        { subst off. replace (256 - (32 * j + 32)) with ((7 - j) * 32) by lia.
          apply Z.div_mul. lia. }
        rewrite Hq in Hpos. rewrite Hq'. lia. }
  assert (Hq : (256 - dir_block_offset dei) / 32 = 8 - k).
  { rewrite Hoff. replace (256 - 32 * k) with ((8 - k) * 32) by lia.
    apply Z.div_mul. lia. }
  destruct (Z.leb_spec 256 (dir_block_offset dei)) as [Hge|Hlt].
  - (* the next block of the directory *)
    assert (k = 8) by lia. subst k.
    pose proof (follow_success (dir_block_accessor dei)) as Hfl.
    destruct (cbmimage_blockaccessor_follow image (dir_block_accessor dei)) as [v a].
    cbn [fst snd] in Hfl.
    destruct (Z.eqb_spec v 0) as [Ev|Ev]; cbn [negb].
    + destruct (Hfl Ev) as (Hl & Hd).
      rewrite Hoff. change (u16 (32 * 8 - 256)) with 0.
      apply (Hround a 0 (dei_loop_detector dei) 0); try assumption; try lia.
      intros _. unfold rounds_left. lia.
    + cbn [fst snd]. split; [right; reflexivity|discriminate].
  - cbn [Z.eqb negb].
    apply (Hround (dir_block_accessor dei) (dir_block_offset dei)
             (dei_loop_detector dei) k); try assumption; try lia.
    + intros _. unfold rounds_left. lia.
    + intros _. unfold rounds_left. lia.
Qed.

Lemma dir_get_nonempty_returns fuel :
  forall dei,
    dir_state dei ->
    (rounds_left dei < fuel)%nat ->
    exists r dei' log,
      cbmimage_i_dir_get_nonempty L image fuel dei = Some (r, dei', log)
      /\ (r = 0 \/ r = -1)
      /\ (r = 0 -> dir_state dei')
      /\ entry_is_valid (entry dei') = (r =? 0).
Proof.
  induction fuel as [|fuel IH]; intros dei Hst Hfuel; [lia|].
  cbn [cbmimage_i_dir_get_nonempty].
  destruct (dir_get_step dei Hst) as (Hret & Hnext).
  destruct (cbmimage_i_dir_get L image dei) as [[ret dei1] log].
  cbn [fst snd] in Hret, Hnext.
  destruct Hret as [->| ->].
  - destruct (Hnext eq_refl) as (Hst' & Hdec).
    cbn [truthy Z.eqb negb].
    destruct (_ && _).
    + destruct (IH dei1 Hst' ltac:(lia)) as (r & dei' & log' & Hrun & Hr & Hs & Hv).
      rewrite Hrun. exists r, dei', (log ++ log'). auto.
    + eexists _, _, _. split; [reflexivity|]. split; [left; reflexivity|].
      split; [intros _; exact Hst'|reflexivity].
  - cbn [truthy Z.eqb negb].
    eexists _, _, _. split; [reflexivity|]. split; [right; reflexivity|].
    split; [discriminate|reflexivity].
Qed.

Lemma rounds_left_bound dei :
  dir_state dei -> (rounds_left dei < 9 * (N + 1))%nat.
Proof.
  intros (_ & _ & _ & k & Hk & Hoff). unfold rounds_left.
  pose proof (count_unmarked_le_n (dei_loop_detector dei) N).
  assert (Hq : (256 - dir_block_offset dei) / 32 = 8 - k).
  { rewrite Hoff. replace (256 - 32 * k) with ((8 - k) * 32) by lia.
    apply Z.div_mul. lia. }
  rewrite Hq. lia.
Qed.

End DirWalk.



(** ** Following a chain for the validator (lib/validate.c) *)

Lemma existsb_seq_S (p : nat -> bool) (k : nat) :
  existsb p (seq 0 (S k)) = existsb p (seq 0 k) || p k.
Proof. rewrite seq_S, existsb_app. cbn [existsb Nat.add]. rewrite orb_false_r. reflexivity. Qed.

Lemma existsb_seq_false (p : nat -> bool) (k : nat) :
  (forall i, (i < k)%nat -> p i = false) -> existsb p (seq 0 k) = false.
Proof.
  intros H. induction k as [|k IH]; [reflexivity|].
  rewrite existsb_seq_S, IH, H by auto. reflexivity.
Qed.

Section ValidateChain.

Variable image : cbmimage_fileimage.
Hypothesis Hok : image_ok image = true.
Hypothesis Hmax' : cbmimage_get_max_lba image < 65535.
Variable start : cbmimage_blockaddress.
Hypothesis Hstart : block_exists image start = true.
Variable f : cbmimage_fat.

Let N := Z.to_nat (cbmimage_get_max_lba image).
Let chain := fst (cbmimage_chain_start image start).
Let cur (k : nat) := cbmimage_chain_get_current (chain_run image k chain).
Let img (g : cbmimage_fat) := with_settings image (set_fat (settings image) (Some g)).
Let visited (k : nat) (l : Z) := existsb (fun i => l =? lba (cur i)) (seq 0 k).
Let shared (k : nat) := existsb (fun i => cbmimage_fat_is_used f (cur i)) (seq 0 k).

(** The block that [cbmimage_chain_get_next] delivers has a 16-bit LBA. *)
Lemma chain_get_next_range c : 0 <= lba (cbmimage_chain_get_next image c) < 65536.
Proof.
  unfold cbmimage_chain_get_next.
  destruct (fst (cbmimage_blockaccessor_get_next_block image (block_accessor c)
                   (Some cbmimage_block_unused)) =? 0) eqn:E.
  - apply Z.eqb_eq in E.
    destruct (get_next_block_success image _ _ E) as (b & -> & _ & _ & Hl). exact Hl.
  - revert E. unfold cbmimage_blockaccessor_get_next_block.
    pose proof (rd_range image (acc_data (block_accessor c)) 1) as Hs.
    set (t := rd image (acc_data (block_accessor c)) 0).
    set (s := rd image (acc_data (block_accessor c)) 1) in *.
    destruct (t =? 0) eqn:E0; [cbn; lia|].
    destruct (t <=? _) eqn:E1; [|cbn; lia].
    destruct (s <? _) eqn:E2; [|cbn; lia].
    destruct (frame_layout image Hok) as (_ & _ & _ & _ & Hexi & Hconv).
    assert (Hex : cbmimage_blockaddress_ts_exists image t s = true).
    { apply Hexi; [lia|]. pose proof (rd_range image (acc_data (block_accessor c)) 0).
      fold t in H. zbool. lia. }
    destruct (Hconv cbmimage_block_unused t s ltac:(lia) Hex) as (-> & _).
    cbn [fst snd]. discriminate.
Qed.

(** The block the chain stands on while it is not done is one of the
    image. *)
Lemma chain_current_exists k :
  is_done (chain_run image k chain) = false ->
  1 <= lba (cur k) <= cbmimage_get_max_lba image.
Proof.
  intros Hnd. destruct k as [|k].
  - destruct (chain_start_existing image start Hok Hmax' Hstart) as (Hacc & _ & _ & _ & Hl).
    unfold cur, cbmimage_chain_get_current. cbn [chain_run]. fold chain in Hacc.
    rewrite Hacc. exact Hl.
  - unfold cur in *. rewrite (chain_run_S image) in *.
    apply (chain_advance_visit image Hok (chain_run image k chain) Hmax');
      [|exact Hnd].
    apply (chain_run_for image Hok k Hmax').
    apply (chain_start_for image Hok start Hmax' Hstart).
Qed.

(** One call of [cbmimage_i_mark_global_and_local] with a detector that has
    not seen the block. *)
Lemma mark_global_and_local_fresh g ld b target log :
  loop_sized ld ->
  loop_map_size ld = (cbmimage_get_max_lba image + 1 + 7) / 8 ->
  1 <= lba b <= cbmimage_get_max_lba image ->
  loop_marked ld (lba b) = false ->
  exists ld' log',
    cbmimage_i_mark_global_and_local (Some ld) start b target (img g) log
    = Some ((if cbmimage_fat_is_used g b then -1 else 0, Some ld'),
            img (snd (cbmimage_fat_set g b target)), log')
    /\ loop_sized ld'
    /\ loop_map_size ld' = (cbmimage_get_max_lba image + 1 + 7) / 8
    /\ forall l, 0 <= l -> loop_marked ld' l = loop_marked ld l || (l =? lba b).
Proof.
  intros Hsz Hms Hb Hun.
  destruct (image_ok_facts image Hok) as (_ & _ & _ & _ & Hmax & _).
  assert (Hmx : 0 <= cbmimage_get_max_lba image < 65535) by lia.
  destruct (loop_mark_bit image Hmx ld b (conj Hsz Hms) ltac:(lia))
    as (Hret & (Hsz' & Hms') & Hbits).
  rewrite (loop_check_bit image Hmx ld b (conj Hsz Hms) ltac:(lia)) in Hret.
  assert (Hexl : cbmimage_blockaddress_lba_exists image (lba b) = true)
    by (unfold cbmimage_blockaddress_lba_exists; zbool; lia).
  rewrite Hexl, Hun in Hret. rewrite Hexl in Hbits. cbn [Z_of_bool] in Hret.
  unfold cbmimage_i_mark_global_and_local, mbind, V_bind, the_image, print, update_fat,
    mret, V_ret.
  change (cbmimage_loop_mark (img g) ld b) with (cbmimage_loop_mark image ld b).
  destruct (cbmimage_loop_mark image ld b) as [[m ld'] lg].
  cbn [fst snd] in Hret, Hsz', Hms', Hbits. subst m. cbn [truthy Z.eqb negb].
  exists ld'. eexists. split; [reflexivity|].
  split; [exact Hsz'|]. split; [exact Hms'|]. intros l Hl. rewrite Hbits by exact Hl.
  reflexivity.
Qed.

Lemma fat_set_is_used (g : cbmimage_fat) (b target b' : cbmimage_blockaddress) :
  (Z.to_nat (lba b) < length (fat_entry g))%nat ->
  0 <= lba b -> 0 <= lba b' -> 0 <= lba target < 65536 ->
  cbmimage_fat_is_used (snd (cbmimage_fat_set g b target)) b'
  = cbmimage_fat_is_used g b' || (lba b' =? lba b).
Proof.
  intros Hlen Hb Hb' Ht. unfold cbmimage_fat_is_used, cbmimage_fat_set.
  rewrite fat_entry_after_store by assumption.
  destruct (lba b' =? lba b); [|rewrite orb_false_r; reflexivity].
  rewrite orb_true_r. unfold CBMIMAGE_FAT_LASTBLOCK, CBMIMAGE_FAT_UNUSED.
  destruct (Z.eqb_spec (lba target) 0) as [E|E]; [reflexivity|].
  rewrite u16_small by lia.
  destruct (Z.eqb_spec (lba target) 0) as [E'|E']; [lia|reflexivity].
Qed.

(** The [for] loop of [cbmimage_i_validate_follow_chain] after [k] rounds:
    it ends with the chain, has marked every block the chain stood on, and
    returns -1 exactly when one of them was in use before. *)
Lemma follow_chain_loop_run fuel :
  forall k g ld log,
    (forall i, (i < k)%nat -> is_done (chain_run image i chain) = false) ->
    loop_sized ld ->
    loop_map_size ld = (cbmimage_get_max_lba image + 1 + 7) / 8 ->
    (forall l, 0 <= l -> loop_marked ld l = visited k l) ->
    length (fat_entry g) = Z.to_nat (cbmimage_get_max_lba image + 1) ->
    (forall b, 0 <= lba b ->
       cbmimage_fat_is_used g b = cbmimage_fat_is_used f b || visited k (lba b)) ->
    (is_done (chain_run image k chain) = true
     \/ (count_unmarked (loop_detector (chain_run image k chain)) N < fuel)%nat) ->
    exists n g' log',
      validate_follow_chain_loop fuel start (chain_run image k chain) ld
        (if shared k then -1 else 0) (Z.of_nat k) (img g) log
      = Some ((if shared n then -1 else 0, Z.of_nat n), img g', log')
      /\ (k <= n)%nat
      /\ is_done (chain_run image n chain) = true
      /\ (forall i, (i < n)%nat -> is_done (chain_run image i chain) = false)
      /\ forall b, 0 <= lba b ->
           cbmimage_fat_is_used g' b = cbmimage_fat_is_used f b || visited n (lba b).
Proof.
  pose proof (chain_start_for image Hok start Hmax' Hstart) as Hfor0. fold chain in Hfor0.
  induction fuel as [|fuel IH]; intros k g ld log Hbefore Hsz Hms Hld Hlen Hfat Hfuel.
  - destruct Hfuel as [Hd|Hlt]; [|lia].
    cbn [validate_follow_chain_loop]. unfold cbmimage_chain_is_done. rewrite Hd.
    exists k, g, log. repeat split; auto.
  - destruct (is_done (chain_run image k chain)) eqn:Hnd.
    { cbn [validate_follow_chain_loop]. unfold cbmimage_chain_is_done. rewrite Hnd.
      exists k, g, log. repeat split; auto. }
    destruct Hfuel as [Hd|Hlt]; [discriminate|].
    pose proof (chain_run_for image Hok k Hmax' chain Hfor0) as Hfork.
    cbv beta zeta in Hfork.
    pose proof (chain_current_exists k Hnd) as Hcur.
    assert (Hk : (k <= N)%nat).
    { destruct (chain_run_progress image Hok k chain (proj1 Hfor0)) as [Hd|Hcnt];
        [congruence|].
      pose proof (count_unmarked_le_n (loop_detector chain)
                    (Z.to_nat (cbmimage_get_max_lba image))). subst N. lia. }
    assert (Hnew : visited k (lba (cur k)) = false).
    { apply existsb_seq_false. intros i Hi. apply Z.eqb_neq.
      apply (chain_blocks_distinct image start i k Hok Hmax' Hstart Hi). exact Hnd. }
    pose proof (chain_get_next_range (chain_run image k chain)) as Hnext.
    destruct (mark_global_and_local_fresh g ld (cur k)
                (cbmimage_chain_get_next image (chain_run image k chain)) log
                Hsz Hms Hcur ltac:(rewrite Hld by lia; exact Hnew))
      as (ld' & log1 & Hmark & Hsz' & Hms' & Hld').
    cbn [validate_follow_chain_loop]. unfold cbmimage_chain_is_done. rewrite Hnd.
    unfold mbind at 1. unfold V_bind at 1. unfold the_image at 1.
    unfold mbind at 1. unfold V_bind at 1.
    change (cbmimage_chain_get_next (img g) (chain_run image k chain))
      with (cbmimage_chain_get_next image (chain_run image k chain)).
    fold (cur k). rewrite Hmark.
    set (g1 := snd (cbmimage_fat_set g (cur k)
                      (cbmimage_chain_get_next image (chain_run image k chain)))).
    change (cbmimage_chain_advance (img g) (chain_run image k chain))
      with (cbmimage_chain_advance image (chain_run image k chain)).
    pose proof (chain_run_S image k chain) as HS.
    destruct (chain_advance_step image Hok _ (proj1 Hfork)) as (_ & _ & Hdec).
    destruct (cbmimage_chain_advance image (chain_run image k chain))
      as [[r c'] lg] eqn:Eadv.
    cbn [fst snd] in HS, Hdec. rewrite <- HS in Hdec. subst c'.
    unfold mbind, V_bind, print.
    assert (Hused : cbmimage_fat_is_used g (cur k) = cbmimage_fat_is_used f (cur k)).
    { rewrite Hfat by lia. rewrite Hnew. apply orb_false_r. }
    assert (Hret : (if truthy (if cbmimage_fat_is_used g (cur k) then -1 else 0)
                    then -1 else if shared k then -1 else 0)
                   = if shared (S k) then -1 else 0).
    { unfold shared. rewrite existsb_seq_S, Hused.
      destruct (existsb _ _); destruct (cbmimage_fat_is_used f (cur k)); reflexivity. }
    rewrite Hret.
    assert (Hcnt : size_t (Z.of_nat k + 1) = Z.of_nat (S k)).
    { rewrite size_t_small; subst N; lia. }
    rewrite Hcnt.
    destruct (IH (S k) g1 ld' (log1 ++ lg)) as (n & g' & log' & Hrun & Hn & Hdone & Hall & Hfat').
    + intros i Hi. destruct (Nat.eq_dec i k) as [->|Hne]; [exact Hnd|apply Hbefore; lia].
    + exact Hsz'.
    + exact Hms'.
    + intros l Hl. rewrite Hld', Hld by exact Hl. unfold visited.
      rewrite existsb_seq_S. reflexivity.
    + subst g1. unfold cbmimage_fat_set, cbmimage_i_fat_set. cbn [snd fat_entry].
      rewrite length_insert. exact Hlen.
    + intros b Hb. subst g1. rewrite fat_set_is_used; try lia.
      rewrite Hfat by exact Hb. unfold visited. rewrite existsb_seq_S, orb_assoc.
      reflexivity.
    + destruct (is_done (chain_run image (S k) chain)) eqn:Hd'; [left; reflexivity|].
      right. specialize (Hdec eq_refl). subst N. lia.
    + exists n, g', log'. rewrite Hrun.
      split; [reflexivity|]. split; [lia|]. auto.
Qed.

End ValidateChain.

(** X25. What [cbmimage_i_validate_follow_chain] does with a chain, on a
    well-formed image and a FAT with an entry for every block: it follows
    the chain to its end, marks every block the chain stood on as used in
    the FAT and counts them; the count is at least 1 and at most max_lba.
    It returns -1 exactly when one of these blocks was in use in the FAT
    before, and 0 otherwise - also when the chain ended in a loop or on a
    link to a block that does not exist. *)
Theorem validate_follow_chain_result
    (image : cbmimage_fileimage) (f : cbmimage_fat) (start : cbmimage_blockaddress)
    (fuel : nat) (log : list diag) :
  image_ok image = true ->
  cbmimage_get_max_lba image < 65535 ->
  block_exists image start = true ->
  length (fat_entry f) = Z.to_nat (cbmimage_get_max_lba image + 1) ->
  (Z.to_nat (cbmimage_get_max_lba image) < fuel)%nat ->
  let chain := fst (cbmimage_chain_start image start) in
  let cur (i : nat) := cbmimage_chain_get_current (chain_run image i chain) in
  exists n f' log',
    cbmimage_i_validate_follow_chain fuel start
      (with_settings image (set_fat (settings image) (Some f))) log
    = Some ((if existsb (fun i => cbmimage_fat_is_used f (cur i)) (seq 0 n) then -1 else 0,
             Z.of_nat n),
            with_settings image (set_fat (settings image) (Some f')), log')
    /\ (1 <= n <= Z.to_nat (cbmimage_get_max_lba image))%nat
    /\ is_done (chain_run image n chain) = true
    /\ (forall i, (i < n)%nat -> is_done (chain_run image i chain) = false)
    /\ forall b, 0 <= lba b <= cbmimage_get_max_lba image ->
         cbmimage_fat_is_used f' b
         = cbmimage_fat_is_used f b || existsb (fun i => lba b =? lba (cur i)) (seq 0 n).
Proof.
  intros Hok Hmax' Hstart Hlen Hfuel chain cur.
  destruct (image_ok_facts image Hok) as (_ & _ & _ & _ & Hmax & _).
  assert (Hmx : 0 <= cbmimage_get_max_lba image < 65535) by lia.
  destruct (chain_start_existing image start Hok Hmax' Hstart)
    as (_ & Hnd0 & _ & Hm0 & Hl0).
  fold chain in Hnd0, Hm0.
  pose proof (chain_start_inv image Hok start Hstart) as Hinv0. fold chain in Hinv0.
  assert (Hcount0 : (count_unmarked (loop_detector chain)
                       (Z.to_nat (cbmimage_get_max_lba image))
                     < Z.to_nat (cbmimage_get_max_lba image))%nat).
  { pose proof (count_unmarked_le_n (cbmimage_loop_create image)
                  (Z.to_nat (cbmimage_get_max_lba image))) as Hle.
    pose proof (count_unmarked_decreases (cbmimage_loop_create image) (loop_detector chain))
      as Hdec.
    specialize (Hdec ltac:(intros l _ Hm; rewrite (loop_create_unmarked image) in Hm;
                           discriminate)
                     (Z.to_nat (cbmimage_get_max_lba image)) (lba start) ltac:(lia)
                     (loop_create_unmarked image _) Hm0).
    lia. }
  unfold cbmimage_i_validate_follow_chain.
  unfold mbind at 1. unfold V_bind at 1. unfold the_image at 1.
  change (cbmimage_chain_start (with_settings image (set_fat (settings image) (Some f)))
            start) with (cbmimage_chain_start image start).
  change (cbmimage_loop_create (with_settings image (set_fat (settings image) (Some f))))
    with (cbmimage_loop_create image).
  rewrite (surjective_pairing (cbmimage_chain_start image start)).
  fold chain. set (log0 := snd (cbmimage_chain_start image start)).
  destruct (loop_create_for image Hmx) as (Hszc & Hmsc).
  destruct (follow_chain_loop_run image Hok Hmax' start Hstart f fuel 0
              f (cbmimage_loop_create image) (log ++ log0))
    as (n & f' & log' & Hrun & _ & Hdone & Hall & Hfat).
  - intros i Hi. lia.
  - exact Hszc.
  - exact Hmsc.
  - intros l Hl. rewrite (loop_create_unmarked image). reflexivity.
  - exact Hlen.
  - intros b Hb. cbn [seq existsb]. rewrite orb_false_r. reflexivity.
  - right. cbn [chain_run]. fold chain. lia.
  - cbn [seq existsb Z.of_nat] in Hrun.
    cbv beta zeta in Hrun, Hdone, Hall, Hfat. fold chain in Hrun, Hdone, Hall, Hfat.
    exists n, f', log'.
    unfold mbind, V_bind, print, mret, V_ret.
    cbn [chain_run] in Hrun. change (Z.of_nat 0) with 0 in Hrun.
    fold cur in Hrun, Hfat. rewrite Hrun.
    split; [|split; [|split; [exact Hdone|split; [exact Hall|]]]];
      [| |intros b Hb; apply Hfat; lia].
    + destruct (existsb _ _); reflexivity.
    + destruct n as [|n]; [cbn [chain_run] in Hdone; congruence|].
      split; [lia|].
      destruct (chain_run_progress image Hok n chain Hinv0) as [Hd|Hcnt].
      * rewrite (Hall n ltac:(lia)) in Hd. discriminate.
      * lia.
Qed.

(** The chain of [d64_self_loop] that starts on block 17/0 runs into a loop
    at once. *)
Lemma validate_follow_chain_result_witness :
  let image := d64_self_loop in
  let f := cbmimage_fat_create image in
  let chain := fst (cbmimage_chain_start image (CBMIMAGE_BLOCK_INIT 17 0 337)) in
  let cur (i : nat) := cbmimage_chain_get_current (chain_run image i chain) in
  exists n f' log',
    cbmimage_i_validate_follow_chain 684 (CBMIMAGE_BLOCK_INIT 17 0 337)
      (with_settings image (set_fat (settings image) (Some f))) []
    = Some ((if existsb (fun i => cbmimage_fat_is_used f (cur i)) (seq 0 n) then -1 else 0,
             Z.of_nat n),
            with_settings image (set_fat (settings image) (Some f')), log')
    /\ (1 <= n <= Z.to_nat (cbmimage_get_max_lba image))%nat
    /\ is_done (chain_run image n chain) = true
    /\ (forall i, (i < n)%nat -> is_done (chain_run image i chain) = false)
    /\ forall b, 0 <= lba b <= cbmimage_get_max_lba image ->
         cbmimage_fat_is_used f' b
         = cbmimage_fat_is_used f b || existsb (fun i => lba b =? lba (cur i)) (seq 0 n).
Proof.
  refine (validate_follow_chain_result d64_self_loop (cbmimage_fat_create d64_self_loop)
            (CBMIMAGE_BLOCK_INIT 17 0 337) 684 [] _ _ _ _ _).
  - vm_compute; reflexivity.
  - vm_compute; reflexivity.
  - vm_compute; reflexivity.
  - vm_compute; reflexivity.
  - vm_compute. lia.
Defined.

(** ** The BAM of a D64 image (lib/bam.c, lib/d40_d64_d71.c) *)

Lemma zidx_map_seq (g : nat -> Z) (n : nat) (i : Z) :
  0 <= i < Z.of_nat n -> zidx (map g (seq 0 n)) i = g (Z.to_nat i).
Proof.
  intros Hi. unfold zidx. rewrite nth_lookup.
  change (map g (seq 0 n)) with (g <$> seq 0 n).
  rewrite list_lookup_fmap, lookup_seq_lt by lia. reflexivity.
Qed.

(** The sizes that [cbmimage_image_guesstype] takes for a D64 image. *)
Lemma guesstype_d64_size (sz : Z) :
  fst (cbmimage_image_guesstype sz) = TYPE_D64 -> sz = 174848 \/ sz = 175531.
Proof.
  unfold cbmimage_image_guesstype, cbmimage_mapping_from_size_to_imagetype.
  cbn [guesstype_loop].
  repeat match goal with
         | |- context [?a =? sz] =>
             destruct (Z.eqb_spec a sz) as [<-|?];
             [intros H; try discriminate H;
              solve [left; reflexivity | right; reflexivity]|]
         end.
  intros H; discriminate H.
Qed.

(** The frame of such an image: one selector for the bitmaps and one for the
    counters, both on block 18/0, which starts at offset 91392. *)
Lemma d64_frame_bam (buf : Z -> Z) (sz : Z) :
  sz = 174848 \/ sz = 175531 ->
  let image := cbmimage_image_open buf sz TYPE_UNKNOWN in
  bam_count (settings image) = 1
  /\ maxtracks (settings image) = 35
  /\ bam (settings image)
     = Some [ {| sel_buffer := Some 91392; starttrack := 1;
                 sel_block := CBMIMAGE_BLOCK_INIT 18 0 358;
                 startoffset := 5; multiplier := 4; data_count := 3;
                 reverse_order := 0 |};
              bam_selector_zero ]
  /\ bam_counter (settings image)
     = Some [ {| sel_buffer := Some 91392; starttrack := 1;
                 sel_block := CBMIMAGE_BLOCK_INIT 18 0 358;
                 startoffset := 4; multiplier := 4; data_count := 0;
                 reverse_order := 0 |};
              bam_selector_zero ]
  /\ buffer (parameter image) = buf.
Proof.
  intros [-> | ->]; cbn zeta; repeat split; vm_compute; reflexivity.
Qed.

(** X26. On an image that [cbmimage_image_open] takes for a D64 image by
    its size, the BAM is read from block 18/0: for a track [t] of 1 .. 35
    the counter of free blocks is the byte at offset 4 * t of that block,
    and [cbmimage_bam_get] reports sector [s] as used exactly when bit
    [s mod 8] of the byte at offset 4 * t + 1 + s / 8 is clear; when the bit
    is set the block is free, and really free when
    [cbmimage_i_bam_check_really_unused] finds it empty.  The block address
    is one with a track of the image and an LBA of the image, as the
    assertions on this path ask for. *)
Theorem bam_get_d64
    (buf : Z -> Z) (sz : Z) (block : cbmimage_blockaddress) :
  fst (cbmimage_image_guesstype sz) = TYPE_D64 ->
  let image := cbmimage_image_open buf sz TYPE_UNKNOWN in
  let t := track (ts block) in
  let s := sector (ts block) in
  1 <= t <= 35 ->
  0 <= s < 24 ->
  cbmimage_blockaddress_lba_exists image (lba block) = true ->
  cbmimage_bam_get image block
  = (if Z.testbit (u8 (buf (91392 + (4 * t + 1 + s / 8)))) (s mod 8)
     then if truthy (cbmimage_i_bam_check_really_unused image block)
          then BAM_state_code BAM_REALLY_FREE
          else BAM_state_code BAM_FREE
     else BAM_state_code BAM_USED)
  /\ cbmimage_i_get_bam_counter_of_track image t = u8 (buf (91392 + 4 * t)).
Proof.
  intros Hg. cbn zeta. intros Htr Hs _.
  destruct (d64_frame_bam buf sz (guesstype_d64_size sz Hg))
    as (Hcount & Hmt & Hbam & Hcnt & Hbuf).
  set (image := cbmimage_image_open buf sz TYPE_UNKNOWN) in *.
  set (t := track (ts block)) in *. set (s := sector (ts block)) in *.
  split.
  - unfold cbmimage_bam_get, cbmimage_i_get_bam_of_track.
    fold t s. rewrite Hcount, Hbam. cbn [Z.eqb].
    rewrite (u8_small t) by lia.
    unfold cbmimage_i_get_right_selector. rewrite Hmt.
    destruct (_ || _) eqn:E; zbool; [lia|]. clear E.
    change (Z.to_nat (1 - 1)) with 0%nat. cbn [right_selector_loop].
    change (0 <? 0) with false. change (Z.to_nat 0) with 0%nat. cbn [nth].
    unfold bam_offset. cbn [starttrack startoffset multiplier data_count sel_buffer
                            reverse_order].
    rewrite (u8_small (5 + (t - 1) * 4)) by lia.
    assert (Hidx : s / 8 = 0 \/ s / 8 = 1 \/ s / 8 = 2).
    { assert (0 <= s / 8) by (apply Z.div_pos; lia).
      assert (s / 8 < 3) by (apply Z.div_lt_upper_bound; lia). lia. }
    pose proof (Z.mod_pos_bound s 8 ltac:(lia)) as Hmod.
    cbn [fst snd Z.ltb Z.compare].
    rewrite zidx_map_seq by (unfold BAM_MASK_COUNT; lia).
    rewrite Z2Nat.id by lia.
    destruct (Z.ltb_spec (s / 8) 3) as [_|Hge]; [|lia].
    change (truthy 0) with false. cbv iota.
    rewrite land_bit_truthy by lia.
    unfold rd. rewrite Hbuf.
    replace (91392 + (5 + (t - 1) * 4 + s / 8)) with (91392 + (4 * t + 1 + s / 8)) by lia.
    reflexivity.
  - unfold cbmimage_i_get_bam_counter_of_track.
    rewrite Hcnt, Hcount. cbn [Z.eqb].
    rewrite (u8_small t) by lia.
    unfold cbmimage_i_get_right_selector. rewrite Hmt.
    destruct (_ || _) eqn:E; zbool; [lia|]. clear E.
    change (Z.to_nat (1 - 1)) with 0%nat. cbn [right_selector_loop].
    change (0 <? 0) with false. change (Z.to_nat 0) with 0%nat. cbn [nth].
    unfold bam_offset. cbn [starttrack startoffset multiplier sel_buffer].
    rewrite (u8_small (4 + (t - 1) * 4)) by lia.
    unfold rd. rewrite Hbuf. f_equal. f_equal. lia.
Qed.

Lemma bam_get_d64_witness :
  cbmimage_bam_get (cbmimage_image_open zero_buffer 174848 TYPE_UNKNOWN)
    (CBMIMAGE_BLOCK_INIT 1 0 1)
  = BAM_state_code BAM_USED
  /\ cbmimage_bam_get
       (cbmimage_image_open (poke [(91392 + 5, 2)] zero_buffer) 174848 TYPE_UNKNOWN)
       (CBMIMAGE_BLOCK_INIT 1 1 2)
     = BAM_state_code BAM_REALLY_FREE.
Proof.
  split.
  - refine (proj1 (bam_get_d64 zero_buffer 174848 (CBMIMAGE_BLOCK_INIT 1 0 1)
                     _ _ _ _)).
    + reflexivity.
    + cbn; lia.
    + cbn; lia.
    + vm_compute; reflexivity.
  - refine (eq_trans
              (proj1 (bam_get_d64 (poke [(91392 + 5, 2)] zero_buffer) 174848
                        (CBMIMAGE_BLOCK_INIT 1 1 2) _ _ _ _)) _).
    + reflexivity.
    + cbn; lia.
    + cbn; lia.
    + vm_compute; reflexivity.
    + vm_compute; reflexivity.
Defined.

(** ** Comparing the FAT with the BAM (lib/validate.c) *)

Section BamEquality.

Variable image : cbmimage_fileimage.
Hypothesis Hok : image_ok image = true.

(** What one round of the loop of [cbmimage_i_bam_check_equality] prints
    for a block. *)
Let round (block : cbmimage_blockaddress) : list diag :=
  let is_marked_in_loop := cbmimage_fat_is_used (settings_fat image) block in
  let is_used_in_bam := cbmimage_bam_get image block =? BAM_state_code BAM_USED in
  if is_marked_in_loop && negb is_used_in_bam then [Diag_used_but_bam_empty block]
  else if negb is_marked_in_loop && is_used_in_bam
       then [Diag_not_used_but_bam_used block]
       else [].

Lemma bam_check_equality_loop_run fuel :
  forall l log,
    1 <= l <= cbmimage_get_max_lba image ->
    (Z.to_nat (cbmimage_get_max_lba image - l) < fuel)%nat ->
    bam_check_equality_loop fuel (block_of_lba image l) image log
    = Some (tt, image,
            log ++ flat_map (fun n => round (block_of_lba image (Z.of_nat n)))
                     (seq (Z.to_nat l) (Z.to_nat (cbmimage_get_max_lba image - l + 1)))).
Proof.
  induction fuel as [|fuel IH]; intros l log Hl Hfuel; [lia|].
  cbn [bam_check_equality_loop].
  unfold mbind at 1. unfold V_bind at 1. unfold the_image at 1.
  unfold mbind at 1. unfold V_bind at 1. unfold print at 1.
  rewrite (blockaddress_advance_lba image l Hok Hl).
  replace (Z.to_nat (cbmimage_get_max_lba image - l + 1))
    with (S (Z.to_nat (cbmimage_get_max_lba image - l))) by lia.
  cbn [seq flat_map]. rewrite Z2Nat.id by lia. fold (round (block_of_lba image l)).
  destruct (Z.ltb_spec l (cbmimage_get_max_lba image)) as [Hlt|Hge].
  - cbn [truthy Z.eqb negb].
    rewrite (IH (l + 1)) by lia.
    replace (Z.to_nat (l + 1)) with (S (Z.to_nat l)) by lia.
    replace (cbmimage_get_max_lba image - (l + 1) + 1)
      with (cbmimage_get_max_lba image - l) by lia.
    rewrite <- app_assoc. reflexivity.
  - cbn [truthy Z.eqb negb]. unfold mret, V_ret.
    replace (Z.to_nat (cbmimage_get_max_lba image - l)) with 0%nat by lia.
    cbn [seq flat_map]. rewrite app_nil_r. reflexivity.
Qed.

End BamEquality.

(** The whole check on a well-formed image. *)
Lemma bam_check_equality_run
    (image : cbmimage_fileimage) (fuel : nat) (log : list diag) :
  image_ok image = true ->
  (Z.to_nat (cbmimage_get_max_lba image) <= fuel)%nat ->
  cbmimage_i_bam_check_equality fuel image log
  = Some (0, image,
          log ++ flat_map
                   (fun n =>
                      let block := block_of_lba image (Z.of_nat n) in
                      let in_fat := cbmimage_fat_is_used (settings_fat image) block in
                      let in_bam :=
                        cbmimage_bam_get image block =? BAM_state_code BAM_USED in
                      if in_fat && negb in_bam then [Diag_used_but_bam_empty block]
                      else if negb in_fat && in_bam
                           then [Diag_not_used_but_bam_used block]
                           else [])
                   (seq 1 (Z.to_nat (cbmimage_get_max_lba image)))).
Proof.
  intros Hok Hfuel.
  destruct (image_ok_facts image Hok) as (_ & _ & _ & _ & Hmax & _).
  destruct (frame_layout image Hok) as (Hmt & Hfirst & _ & Hall & Hexi & Hconv).
  destruct (Hall 1 ltac:(lia)) as (Hsit & _).
  assert (Hex : cbmimage_blockaddress_ts_exists image 1 0 = true)
    by (apply Hexi; lia).
  unfold cbmimage_i_bam_check_equality.
  unfold mbind at 1. unfold V_bind at 1. unfold the_image at 1.
  destruct (Hconv cbmimage_block_unused 1 0 ltac:(lia) Hex) as (-> & _).
  cbn [snd]. rewrite Hfirst.
  pose proof (block_of_lba_at image Hok 1 0 ltac:(lia) ltac:(lia) ltac:(lia)) as Hb.
  rewrite Hfirst in Hb. change (1 + 0) with 1 in *. rewrite <- Hb.
  unfold mbind, V_bind.
  rewrite (bam_check_equality_loop_run image Hok fuel 1 log) by lia.
  unfold mret, V_ret.
  replace (Z.to_nat (cbmimage_get_max_lba image - 1 + 1))
    with (Z.to_nat (cbmimage_get_max_lba image)) by lia.
  reflexivity.
Qed.

(** X27. [cbmimage_i_bam_check_equality] on an image opened as D40, D64, D71
    or D81, with a FAT that has an entry for every block: it looks at every
    block of the image once, in the order of the LBAs, and prints one
    diagnostic for each block that is used in the FAT but not in the BAM,
    and for each one that is used in the BAM but not in the FAT.  It leaves
    the image as it is and returns 0 whatever it has found. *)
Theorem bam_check_equality_result
    (buf : Z -> Z) (sz : Z) (ty : cbmimage_imagetype) (f : cbmimage_fat)
    (fuel : nat) (log : list diag) :
  opens_with_geometry ty = true ->
  cbmimage_i_get_number_of_blocks ty * 256 <= sz < 18446744073709551616 ->
  let opened := cbmimage_image_open buf sz ty in
  length (fat_entry f) = Z.to_nat (cbmimage_get_max_lba opened + 1) ->
  (Z.to_nat (cbmimage_get_max_lba opened) <= fuel)%nat ->
  let image := with_settings opened (set_fat (settings opened) (Some f)) in
  cbmimage_i_bam_check_equality fuel image log
  = Some (0, image,
          log ++ flat_map
                   (fun n =>
                      let block := block_of_lba image (Z.of_nat n) in
                      let in_fat := cbmimage_fat_is_used f block in
                      let in_bam :=
                        cbmimage_bam_get image block =? BAM_state_code BAM_USED in
                      if in_fat && negb in_bam then [Diag_used_but_bam_empty block]
                      else if negb in_fat && in_bam
                           then [Diag_not_used_but_bam_used block]
                           else [])
                   (seq 1 (Z.to_nat (cbmimage_get_max_lba opened)))).
Proof.
  intros Hty Hsz opened _ Hfuel image.
  assert (Hok : image_ok image = true).
  { change (image_ok opened = true). apply image_open_image_ok; assumption. }
  exact (bam_check_equality_run image fuel log Hok Hfuel).
Qed.

Lemma bam_check_equality_result_witness :
  exists log',
    cbmimage_i_bam_check_equality 683
      (with_settings d64_bad_bam
         (set_fat (settings d64_bad_bam) (Some (cbmimage_fat_create d64_bad_bam)))) []
    = Some (0,
            with_settings d64_bad_bam
              (set_fat (settings d64_bad_bam) (Some (cbmimage_fat_create d64_bad_bam))),
            log').
Proof.
  eexists.
  refine (bam_check_equality_result
            (poke [(91392 + 4, 5); (91392 + 8, 1); (91392 + 11, 128); (91392 + 12, 30)]
               zero_buffer)
            174848 TYPE_D64 (cbmimage_fat_create d64_bad_bam) 683 [] _ _ _ _).
  - reflexivity.
  - vm_compute. split; [discriminate|reflexivity].
  - vm_compute; reflexivity.
  - vm_compute. lia.
Defined.

(** ** Bits of sectors that do not exist (lib/bam.c) *)

(** What the loop of [cbmimage_i_check_max_bam_of_track] tests on one byte
    once fewer than eight sectors remain. *)
Lemma check_max_byte_bits :
  forallb (fun x =>
    forallb (fun r =>
      let x := Z.of_nat x in
      let r := Z.of_nat r in
      Bool.eqb (if r =? 0 then negb (x =? 0)
                else negb (Z.land x (u8 (Z.shiftl 255 r)) =? 0))
               (existsb (fun j => (r <=? Z.of_nat j) && Z.testbit x (Z.of_nat j)) (seq 0 8)))
      (seq 0 8))
    (seq 0 256) = true.
Proof. vm_compute. reflexivity. Qed.

Lemma check_max_byte (x r : Z) :
  0 <= x < 256 -> 0 <= r < 8 ->
  (if r =? 0 then negb (x =? 0) else negb (Z.land x (u8 (Z.shiftl 255 r)) =? 0)) = true
  <-> exists j, r <= j < 8 /\ Z.testbit x j = true.
Proof.
  intros Hx Hr.
  pose proof check_max_byte_bits as H.
  rewrite forallb_forall in H. specialize (H (Z.to_nat x)).
  rewrite in_seq in H. specialize (H ltac:(lia)).
  rewrite forallb_forall in H. specialize (H (Z.to_nat r)).
  rewrite in_seq in H. specialize (H ltac:(lia)).
  cbv zeta in H. rewrite !Z2Nat.id in H by lia.
  apply Bool.eqb_prop in H. rewrite H. rewrite existsb_exists. split.
  - intros (j & Hj & Hb). apply in_seq in Hj. apply andb_true_iff in Hb.
    destruct Hb as (H1 & H2). zbool. exists (Z.of_nat j). split; [lia|exact H2].
  - intros (j & Hj & Hb). exists (Z.to_nat j). split; [apply in_seq; lia|].
    rewrite Z2Nat.id by lia. apply andb_true_iff. split; [zbool; lia|exact Hb].
Qed.

(** The loop from byte [i] on, with [remaining] sectors left. *)
Lemma check_max_bam_loop_spec (mask : list Z) (n : nat) :
  (forall i, 0 <= zidx mask i < 256) ->
  forall i remaining,
    0 <= remaining ->
    check_max_bam_loop mask n i remaining = true
    <-> exists k j, remaining / 8 <= k < Z.of_nat n
                    /\ remaining mod 8 <= j < 8
                    /\ Z.testbit (zidx mask (i + k)) j = true.
Proof.
  intros Hmask. induction n as [|n IH]; intros i remaining Hrem.
  - cbn [check_max_bam_loop]. split; [discriminate|].
    intros (k & j & Hk & _). assert (0 <= remaining / 8) by (apply Z.div_pos; lia). lia.
  - cbn [check_max_bam_loop].
    assert (Hdiv0 : 0 <= remaining / 8) by (apply Z.div_pos; lia).
    destruct (Z.leb_spec 8 remaining) as [Hge|Hlt].
    + rewrite IH by lia.
      assert (Hd : remaining / 8 = (remaining - 8) / 8 + 1).
      { replace remaining with ((remaining - 8) + 1 * 8) at 1 by lia.
        rewrite Z.div_add by lia. reflexivity. }
      assert (Hm : remaining mod 8 = (remaining - 8) mod 8).
      { replace remaining with ((remaining - 8) + 1 * 8) at 1 by lia.
        rewrite Z.mod_add by lia. reflexivity. }
      split.
      * intros (k & j & Hk & Hj & Hb). exists (k + 1), j.
        replace (i + (k + 1)) with (i + 1 + k) by lia. repeat split; try lia; exact Hb.
      * intros (k & j & Hk & Hj & Hb). exists (k - 1), j.
        replace (i + 1 + (k - 1)) with (i + k) by lia. repeat split; try lia; exact Hb.
    + assert (Hd : remaining / 8 = 0) by (apply Z.div_small; lia).
      assert (Hm : remaining mod 8 = remaining) by (apply Z.mod_small; lia).
      rewrite Hd, Hm.
      pose proof (check_max_byte (zidx mask i) remaining (Hmask i) ltac:(lia)) as Hbyte.
      assert (Hrest : check_max_bam_loop mask n (i + 1) remaining = true
                      <-> exists k j, 1 <= k < Z.of_nat (S n) /\ remaining <= j < 8
                                      /\ Z.testbit (zidx mask (i + k)) j = true).
      { rewrite IH by lia. rewrite Hd, Hm. split.
        - intros (k & j & Hk & Hj & Hb). exists (k + 1), j.
          replace (i + (k + 1)) with (i + 1 + k) by lia. repeat split; try lia; exact Hb.
        - intros (k & j & Hk & Hj & Hb). exists (k - 1), j.
          replace (i + 1 + (k - 1)) with (i + k) by lia. repeat split; try lia; exact Hb. }
      assert (Hsplit : (exists k j, 0 <= k < Z.of_nat (S n) /\ remaining <= j < 8
                                    /\ Z.testbit (zidx mask (i + k)) j = true)
                       <-> (exists j, remaining <= j < 8 /\ Z.testbit (zidx mask i) j = true)
                           \/ (exists k j, 1 <= k < Z.of_nat (S n) /\ remaining <= j < 8
                                           /\ Z.testbit (zidx mask (i + k)) j = true)).
      { split.
        - intros (k & j & Hk & Hj & Hb). destruct (Z.eq_dec k 0) as [->|Hne].
          + left. exists j. rewrite Z.add_0_r in Hb. auto.
          + right. exists k, j. repeat split; try lia; exact Hb.
        - intros [(j & Hj & Hb)|(k & j & Hk & Hj & Hb)].
          + exists 0, j. rewrite Z.add_0_r. repeat split; try lia; exact Hb.
          + exists k, j. repeat split; try lia; exact Hb. }
      rewrite Hsplit, <- Hbyte, <- Hrest.
      destruct (Z.eqb_spec remaining 0) as [E0|E0].
      * destruct (negb (zidx mask i =? 0)); [tauto|].
        split; [auto|]. intros [H|H]; [discriminate|exact H].
      * destruct (negb (Z.land _ _ =? 0)); [tauto|].
        split; [auto|]. intros [H|H]; [discriminate|exact H].
Qed.

(** X28. [cbmimage_i_check_max_bam_of_track] on a bitmap of bytes returns 0
    or -1.  With [n] sectors on the track it returns -1 exactly when the
    track is behind the last one, or when for some byte [i] of the bitmap
    from byte [n / 8] on a bit [j] with [n mod 8 <= j] is set: in the byte
    that holds the last sectors these are the bits of the sectors that do
    not exist, and in every byte after it the same bit positions. *)
Theorem check_max_bam_of_track_result
    (image : cbmimage_fileimage) (t : Z) (mask : list Z) :
  (forall i, 0 <= zidx mask i < 256) ->
  let n := u16 (cbmimage_get_sectors_in_track image t) in
  let r := fst (cbmimage_i_check_max_bam_of_track image t mask) in
  (r = 0 \/ r = -1)
  /\ (r = -1 <->
      cbmimage_get_max_track image < t
      \/ exists i j, n / 8 <= i < BAM_MASK_COUNT /\ n mod 8 <= j < 8
                     /\ Z.testbit (zidx mask i) j = true).
Proof.
  intros Hmask. cbn zeta. unfold cbmimage_i_check_max_bam_of_track.
  pose proof (u16_range (cbmimage_get_sectors_in_track image t)) as Hn.
  set (n := u16 (cbmimage_get_sectors_in_track image t)) in *.
  destruct (Z.ltb_spec (cbmimage_get_max_track image) t) as [Hlt|Hge].
  - cbn [fst]. split; [right; reflexivity|]. split; [left; exact Hlt|reflexivity].
  - pose proof (check_max_bam_loop_spec mask (Z.to_nat BAM_MASK_COUNT) Hmask 0 n
                  ltac:(lia)) as Hspec.
    rewrite Z2Nat.id in Hspec by (unfold BAM_MASK_COUNT; lia).
    destruct (check_max_bam_loop mask (Z.to_nat BAM_MASK_COUNT) 0 n); cbn [fst].
    + split; [right; reflexivity|]. split; [|reflexivity].
      intros _. right. destruct (proj1 Hspec eq_refl) as (k & j & Hk & Hj & Hb).
      exists k, j. auto.
    + split; [left; reflexivity|]. split; [discriminate|].
      intros [H|(i & j & Hi & Hj & Hb)]; [lia|].
      assert (false = true); [|discriminate].
      apply Hspec. exists i, j. auto.
Qed.

(** On a D64 track of 21 sectors bit 5 of byte 2 stands for sector 21, which
    does not exist. *)
Lemma check_max_bam_of_track_result_witness :
  fst (cbmimage_i_check_max_bam_of_track d64_blank 1 [255; 255; 32]) = -1.
Proof.
  refine (proj2 (proj2 (check_max_bam_of_track_result d64_blank 1 [255; 255; 32] _)) _).
  - intros i. unfold zidx.
    destruct (Z.to_nat i) as [|[|[|[|k]]]]; cbn [nth]; lia.
  - right. exists 2, 5. vm_compute. repeat split; discriminate.
Defined.
